(** * Sandboxed-C: the backend orchestration engine, embedded in Rocq

    The development follows the JavaScript sources of the repository:

    - [backend/index.js], snapshot 20250923211629: the batch endpoint whose
      Execution Stage recovers the streams from one marker-delimited blob
      (module [IndexMarkers]);
    - [backend/index.js], snapshot stored in the second half of
      [interactiveServer_20250923230807.js]: the batch endpoint rewritten
      over [execFile] (module [IndexExecFile]);
    - [interactiveServer.js] with [stripAnsiSequences] (module
      [InteractiveServer]);
    - [interactiveServer.js], first snapshot, stored in the first half of
      [interactiveServer_20250923230807.js] (module [InteractiveFirst]);
    - the pages of the front end, [Index] and the two snapshots of [App]
      (module [Frontend]).

    The modules [Js], [Node] and [Docker] model what the code calls:
    the string functions, the callbacks of [child_process] and [fs],
    the command line of [docker run].  [Props] holds the vocabulary of
    the properties and [Examples] the concrete requests they are tried
    on; the theorems follow the definitions.

    JavaScript strings are sequences of UTF-16 code units and are modelled
    as lists of code units; the host (file system, child processes, clock)
    is an explicit state together with the answers the outside world gives
    to each call. *)

From Stdlib Require Import NArith ZArith List String Ascii Bool Lia.
From stdpp Require Import base gmap.
Import ListNotations.

Local Open Scope N_scope.

(* ===================================================================== *)
(** ** JavaScript values, strings and the library functions the code uses *)
(* ===================================================================== *)

Module Js.

(** A JavaScript string: its UTF-16 code units. *)
Definition jsstr := list N.

(** A string literal of the source.  Rocq literals have no escapes, so
    ["\n"] below is the two characters backslash and [n], which is what
    the JavaScript literal ['\\n'] denotes. *)
Definition lit (s : string) : jsstr :=
  map N_of_ascii (list_ascii_of_string s).

Definition LF : N := 10.
Definition ESC : N := 27.
Definition BEL : N := 7.
Definition BACKSLASH : N := 92.
Definition DQUOTE : jsstr := [34].

Definition str_eqb (a b : jsstr) : bool := bool_decide (a = b).

(** [s.length] *)
Definition js_length (s : jsstr) : Z := Z.of_nat (length s).

(** The values a request field, an exit code or an [Error] property can
    hold.  [VNum] holds the finite numbers that are integers (every
    exit code is one); [-0] is identified with [0].  [VInfinity] is
    [Infinity], or [-Infinity] when [negative].  [VObj] stands for any
    object or array. *)
Inductive JsVal :=
| VUndefined
| VNull
| VBool (b : bool)
| VNum (z : Z)
| VNaN
| VStr (s : jsstr)
| VObj
| VInfinity (negative : bool).

(** ToBoolean *)
Definition truthy (v : JsVal) : bool :=
  match v with
  | VUndefined | VNull | VNaN => false
  | VBool b => b
  | VNum z => negb (z =? 0)%Z
  | VStr s => negb (str_eqb s [])
  | VObj => true
  | VInfinity _ => true
  end.

(** [a || b] *)
Definition js_or (a b : JsVal) : JsVal := if truthy a then a else b.

(** [typeof v === 'string'] *)
Definition is_string (v : JsVal) : bool :=
  match v with VStr _ => true | _ => false end.

(** [a === b] on the primitives above ([NaN] equals nothing; two
    objects are never compared by the code). *)
Definition strict_eq (a b : JsVal) : bool :=
  match a, b with
  | VUndefined, VUndefined | VNull, VNull => true
  | VBool x, VBool y => eqb x y
  | VNum x, VNum y => (x =? y)%Z
  | VStr x, VStr y => str_eqb x y
  | VInfinity x, VInfinity y => eqb x y
  | _, _ => false
  end.

(** [s.startsWith(p)] *)
Fixpoint startsWith (p s : jsstr) : bool :=
  match p, s with
  | [], _ => true
  | _ :: _, [] => false
  | a :: p', b :: s' => (a =? b) && startsWith p' s'
  end.

(** [s.split(sep)] for a non-empty string separator: the pieces between
    the leftmost, non-overlapping occurrences of [sep].  [skip] counts
    the code units of an occurrence still to be jumped over and [cur]
    holds the current piece, last code unit first. *)
Fixpoint split_go (sep : jsstr) (skip : nat) (cur s : jsstr) : list jsstr :=
  match s with
  | [] => [rev cur]
  | c :: s' =>
      match skip with
      | S k => split_go sep k cur s'
      | O =>
          if startsWith sep s
          then rev cur :: split_go sep (length sep - 1) [] s'
          else split_go sep 0 (c :: cur) s'
      end
  end.

Definition split (sep s : jsstr) : list jsstr := split_go sep 0 [] s.

(** [a.join(sep)] *)
Fixpoint join (sep : jsstr) (l : list jsstr) : jsstr :=
  match l with
  | [] => []
  | [x] => x
  | x :: rest => x ++ sep ++ join sep rest
  end.

(** [a.slice(start, end)]: a negative index counts from the end, both
    are clamped to the array. *)
Definition rel_index (len i : Z) : Z :=
  if (i <? 0)%Z then Z.max (len + i) 0 else Z.min i len.

Definition slice {A} (l : list A) (start stop : Z) : list A :=
  let len := Z.of_nat (length l) in
  let k := rel_index len start in
  let final := rel_index len stop in
  firstn (Z.to_nat (final - k)) (skipn (Z.to_nat k) l).

(** [a.slice(start)] *)
Definition slice_from {A} (l : list A) (start : Z) : list A :=
  slice l start (Z.of_nat (length l)).

(** [a[i]] as a string argument: a missing element is [undefined]. *)
Definition index (l : list jsstr) (i : nat) : JsVal :=
  match nth_error l i with
  | Some s => VStr s
  | None => VUndefined
  end.

(** WhiteSpace and LineTerminator code units (ECMAScript 12.2, 12.3). *)
Definition is_line_terminator (c : N) : bool :=
  (c =? 10) || (c =? 13) || (c =? 8232) || (c =? 8233).

Definition is_whitespace (c : N) : bool :=
  (c =? 9) || (c =? 11) || (c =? 12) || (c =? 32) || (c =? 160)
  || (c =? 5760) || ((8192 <=? c) && (c <=? 8202)) || (c =? 8239)
  || (c =? 8287) || (c =? 12288) || (c =? 65279)
  || is_line_terminator c.

Fixpoint trim_start (s : jsstr) : jsstr :=
  match s with
  | c :: s' => if is_whitespace c then trim_start s' else s
  | [] => []
  end.

(** [s.trim()] *)
Definition trim (s : jsstr) : jsstr :=
  rev (trim_start (rev (trim_start s))).

(** Digits of [parseInt]: the value of a code unit as a digit. *)
Definition digit_value (c : N) : option Z :=
  if (48 <=? c) && (c <=? 57) then Some (Z.of_N (c - 48))
  else if (97 <=? c) && (c <=? 122) then Some (Z.of_N (c - 97 + 10))
  else if (65 <=? c) && (c <=? 90) then Some (Z.of_N (c - 65 + 10))
  else None.

(** The longest prefix of digits below [radix], read most significant
    first; [None] when that prefix is empty. *)
Fixpoint read_digits (radix : Z) (acc : option Z) (s : jsstr) : option Z :=
  match s with
  | [] => acc
  | c :: s' =>
      match digit_value c with
      | Some d =>
          if (d <? radix)%Z
          then read_digits radix
                 (Some (match acc with Some a => a * radix + d | None => d end)%Z) s'
          else acc
      | None => acc
      end
  end.

(** The double nearest to the integer [m], for [m] above 2^53: [m] is
    cut to its 53 leading bits and rounded on what is cut off, a tie
    going to the even neighbour. *)
Definition round_double (m : Z) : Z :=
  let e := (Z.log2 m - 52)%Z in
  let q := (m / 2 ^ e)%Z in
  let r := (m mod 2 ^ e)%Z in
  let half := (2 ^ (e - 1))%Z in
  ((if (r <? half)%Z then q
    else if (half <? r)%Z then q + 1
    else if Z.even q then q else q + 1) * 2 ^ e)%Z.

(** The Number value of the integer [z]: [z] itself up to 2^53 either
    way, the nearest double beyond, and [Infinity] when that double
    would be 2^1024 or more. *)
Definition number (z : Z) : JsVal :=
  let m := Z.abs z in
  if (m <=? 2 ^ 53)%Z then VNum z
  else
    let v := round_double m in
    if (2 ^ 1024 <=? v)%Z then VInfinity (z <? 0)%Z
    else VNum (if (z <? 0)%Z then - v else v).

(** [parseInt(v)] with no radix argument.  The argument is converted to
    a string first; the code only ever passes a string or [undefined],
    and ["undefined"] has no digits.  The digits give an integer, and
    the result is the Number value of it. *)
Definition parseInt (v : JsVal) : JsVal :=
  match v with
  | VStr s =>
      let s1 := trim_start s in
      let '(neg, s2) :=
        match s1 with
        | c :: r =>
            if c =? 45 then (true, r)
            else if c =? 43 then (false, r)
            else (false, s1)
        | [] => (false, s1)
        end in
      let '(radix, s3) :=
        match s2 with
        | a :: b :: r =>
            if (a =? 48) && ((b =? 120) || (b =? 88)) then (16%Z, r)
            else (10%Z, s2)
        | _ => (10%Z, s2)
        end in
      match read_digits radix None s3 with
      | Some n => number (if neg then - n else n)
      | None => VNaN
      end
  | _ => VNaN
  end.

(** *** Regular expressions

    The constructs that occur in the patterns of [stripAnsiSequences]:
    a code unit, a class, sequence, alternation and the two stars over a
    class.  [re_match r s k] is the backtracking matcher of the
    language: it tries the ways [r] can match a prefix of [s] in
    priority order and returns the first for which the continuation
    [k] accepts the rest. *)
Inductive Regex :=
| RChar (c : N)
| RClass (p : N -> bool)
| RSeq (r1 r2 : Regex)
| RAlt (r1 r2 : Regex)
| RStar (p : N -> bool)
| RLazy (p : N -> bool).

Fixpoint star_greedy (p : N -> bool) (s : jsstr)
    (k : jsstr -> option jsstr) : option jsstr :=
  match s with
  | c :: s' =>
      if p c then
        match star_greedy p s' k with
        | Some r => Some r
        | None => k s
        end
      else k s
  | [] => k s
  end.

Fixpoint star_lazy (p : N -> bool) (s : jsstr)
    (k : jsstr -> option jsstr) : option jsstr :=
  match k s with
  | Some r => Some r
  | None =>
      match s with
      | c :: s' => if p c then star_lazy p s' k else None
      | [] => None
      end
  end.

Fixpoint re_match (r : Regex) (s : jsstr)
    (k : jsstr -> option jsstr) : option jsstr :=
  match r with
  | RChar c =>
      match s with
      | x :: s' => if x =? c then k s' else None
      | [] => None
      end
  | RClass p =>
      match s with
      | x :: s' => if p x then k s' else None
      | [] => None
      end
  | RSeq a b => re_match a s (fun s' => re_match b s' k)
  | RAlt a b =>
      match re_match a s k with
      | Some x => Some x
      | None => re_match b s k
      end
  | RStar p => star_greedy p s k
  | RLazy p => star_lazy p s k
  end.

(** The match of [r] that starts at the head of [s], as the input left
    after it. *)
Definition exec_at (r : Regex) (s : jsstr) : option jsstr :=
  re_match r s Some.

(** [s.replace(r, '')] for a pattern with the [g] flag: every match,
    found from left to right, is deleted.  [skip] counts the code units
    of the current match still to be dropped; after an empty match the
    search moves on by one code unit, which is kept. *)
Fixpoint replace_go (r : Regex) (skip : nat) (s : jsstr) : jsstr :=
  match s with
  | [] => []
  | c :: s' =>
      match skip with
      | S k => replace_go r k s'
      | O =>
          match exec_at r s with
          | Some rest =>
              match length s - length rest with
              | O => c :: replace_go r 0 s'
              | S k => replace_go r k s'
              end%nat
          | None => c :: replace_go r 0 s'
          end
      end
  end.

Definition replace_global (r : Regex) (s : jsstr) : jsstr :=
  replace_go r 0 s.

Definition in_range (lo hi : N) (c : N) : bool := (lo <=? c) && (c <=? hi).

Fixpoint seq_of (l : list Regex) (last : Regex) : Regex :=
  match l with
  | [] => last
  | r :: l' => RSeq r (seq_of l' last)
  end.

End Js.

(* ===================================================================== *)
(** ** The Node.js host: errors, child processes, the file system         *)
(* ===================================================================== *)

Module Node.
Import Js.

(** An [Error] object, with the properties the code reads. *)
Record JsError := {
  err_message : jsstr;
  err_code : JsVal;
  err_killed : JsVal
}.

(** The arguments [(error, stdout, stderr)] that [exec] and [execFile]
    pass to their callback; [None] is [null]. *)
Record ExecCallback := {
  cb_error : option JsError;
  cb_stdout : jsstr;
  cb_stderr : jsstr
}.

(** [error?.code] and [error?.killed] *)
Definition opt_code (error : option JsError) : JsVal :=
  match error with Some e => err_code e | None => VUndefined end.

Definition opt_killed (error : option JsError) : JsVal :=
  match error with Some e => err_killed e | None => VUndefined end.

(** How a child process ends: it exits with a status; the timer of
    the [timeout] option kills it; [child_process] kills it because
    one of its streams ([stderr] when [on_stderr]) has grown over
    [maxBuffer]; or [file] cannot be started, with the system error
    [code]. *)
Inductive ChildEnd :=
| Exited (status : N)
| TimerKilled
| BufferOverflow (on_stderr : bool)
| SpawnFailed (file code : jsstr).

(** The [error] argument [child_process] builds from the end of the
    child: [null] for status 0; otherwise an [Error] whose [code] is the
    exit status ([null] after a signal) and whose [killed] tells whether
    [child_process] itself killed the child.  After an overflow of the
    buffer or a failure to start, the error is made before the child
    ends: its [code] is a string and it has no [killed]. *)
Definition callback_error (c : ChildEnd) : option JsError :=
  match c with
  | Exited 0 => None
  | Exited n =>
      Some {| err_message := lit "Command failed";
              err_code := VNum (Z.of_N n);
              err_killed := VBool false |}
  | TimerKilled =>
      Some {| err_message := lit "Command failed";
              err_code := VNull;
              err_killed := VBool true |}
  | BufferOverflow on_stderr =>
      Some {| err_message :=
                (if on_stderr then lit "stderr" else lit "stdout")
                  ++ lit " maxBuffer length exceeded";
              err_code := VStr (lit "ERR_CHILD_PROCESS_STDIO_MAXBUFFER");
              err_killed := VUndefined |}
  | SpawnFailed file code =>
      Some {| err_message := lit "spawn " ++ file ++ lit " " ++ code;
              err_code := VStr code;
              err_killed := VUndefined |}
  end.

(** [Buffer.byteLength(s, 'utf8')]: a code unit below 128 is one byte,
    one below 2048 two; a surrogate pair is four bytes, every other
    code unit, a lone surrogate included, three.  [after_high] tells
    whether the code unit before was a high surrogate that is still
    unpaired. *)
Fixpoint byteLength_go (after_high : bool) (s : jsstr) : N :=
  match s with
  | [] => 0
  | c :: s' =>
      if c <? 128 then 1 + byteLength_go false s'
      else if c <? 2048 then 2 + byteLength_go false s'
      else if (55296 <=? c) && (c <=? 56319) then 3 + byteLength_go true s'
      else if (56320 <=? c) && (c <=? 57343) && after_high
      then 1 + byteLength_go false s'
      else 3 + byteLength_go false s'
  end.

Definition byteLength (s : jsstr) : N := byteLength_go false s.

(** The default [maxBuffer] of [exec] and [execFile]. *)
Definition MAX_BUFFER : N := 1024 * 1024.

(** What the handler does to the outside world, in order. *)
Inductive Effect :=
| EMkdir (p : jsstr)
| EWriteFile (p content : jsstr)
| EExec (cmd : jsstr) (timeout : N)
| EExecFile (file : jsstr) (args : list jsstr) (timeout : N)
| ESpawn (file : jsstr) (args : list jsstr)
| EExistsSync (p : jsstr)
| ERmSync (p : jsstr).

(** The host: the directories that exist and the effects so far. *)
Record Host := {
  dirs : gset jsstr;
  trace : list Effect
}.

Definition log (e : Effect) (h : Host) : Host :=
  {| dirs := dirs h; trace := trace h ++ [e] |}.

(** A computation returns, throws an exception its caller can catch,
    or ends the process: an exception thrown inside a callback of the
    event loop is caught by nothing, and Node.js exits on it.  Either
    way it changes the host. *)
Inductive Outcome (A : Type) :=
| Returned (a : A)
| Thrown (e : JsError)
| Died.
Arguments Returned {A} a.
Arguments Thrown {A} e.
Arguments Died {A}.

Definition M (A : Type) : Type := Host -> Outcome A * Host.

Definition ret {A} (a : A) : M A := fun h => (Returned a, h).

Definition throw {A} (e : JsError) : M A := fun h => (Thrown e, h).

Definition die {A} : M A := fun h => (Died, h).

Definition bind {A B} (m : M A) (f : A -> M B) : M B :=
  fun h =>
    match m h with
    | (Returned a, h') => f a h'
    | (Thrown e, h') => (Thrown e, h')
    | (Died, h') => (Died, h')
    end.

(** [try { m } catch (e) { handler e }] *)
Definition try_catch {A} (m : M A) (handler : JsError -> M A) : M A :=
  fun h =>
    match m h with
    | (Returned a, h') => (Returned a, h')
    | (Thrown e, h') => handler e h'
    | (Died, h') => (Died, h')
    end.

(** [try { m } finally { f }]: [f] runs on every way out of [m]; an
    exception of [f] replaces the outcome of [m].  When the process
    ends in [m], nothing runs after it. *)
Definition try_finally {A} (m : M A) (f : M unit) : M A :=
  fun h =>
    match m h with
    | (Died, h') => (Died, h')
    | (o, h') =>
        match f h' with
        | (Returned _, h'') => (o, h'')
        | (Thrown e, h'') => (Thrown e, h'')
        | (Died, h'') => (Died, h'')
        end
    end.

Declare Scope js_scope.
Delimit Scope js_scope with js.
Notation "x <- m ;; k" := (bind m (fun x => k))
  (at level 100, m at next level, right associativity) : js_scope.
Notation "m ;; k" := (bind m (fun _ => k))
  (at level 100, right associativity) : js_scope.

(** [path.join(a, b)] for a directory [a] and a file name [b]. *)
Definition path_join (a b : jsstr) : jsstr := a ++ lit "/" ++ b.

(** The directories above the path [p]: for every [/] of [p], what
    comes before it, and [/] itself for the one at the head.  [before]
    is what has been read, last code unit first. *)
Fixpoint above_go (before s : jsstr) : list jsstr :=
  match s with
  | [] => []
  | c :: s' =>
      (if c =? 47
       then [match before with [] => [47] | _ :: _ => rev before end]
       else [])
        ++ above_go (c :: before) s'
  end.

Definition above (p : jsstr) : list jsstr := above_go [] p.

(** The path [q] is below the directory [p]. *)
Definition below (p q : jsstr) : bool := startsWith (p ++ [47]) q.

(** The directories [ds] with [p] and the directories above it. *)
Definition with_dir (p : jsstr) (ds : gset jsstr) : gset jsstr :=
  {[ p ]} ∪ list_to_set (above p) ∪ ds.

(** The directories [ds] without [p] and what is below it. *)
Definition without_dir (p : jsstr) (ds : gset jsstr) : gset jsstr :=
  filter (fun q => q <> p /\ below p q = false) ds.

(** [fs.mkdir(p, { recursive: true }, cb)]: [err] is what the callback
    receives.  With [recursive] the directories above [p] that are
    missing are made as well. *)
Definition fs_mkdir (err : option JsError) (p : jsstr) : M unit :=
  fun h =>
    match err with
    | Some e => (Thrown e, log (EMkdir p) h)
    | None =>
        (Returned tt,
         {| dirs := with_dir p (dirs h); trace := trace h ++ [EMkdir p] |})
    end.

(** [fs.writeFile(p, content, cb)] *)
Definition fs_writeFile (err : option JsError) (p content : jsstr) : M unit :=
  fun h =>
    match err with
    | Some e => (Thrown e, log (EWriteFile p content) h)
    | None => (Returned tt, log (EWriteFile p content) h)
    end.

(** [fs.existsSync(p)] *)
Definition fs_existsSync (p : jsstr) : M bool :=
  fun h => (Returned (bool_decide (p ∈ dirs h)), log (EExistsSync p) h).

(** [fs.rmSync(p, { recursive: true, force: true })]: [err] is the
    exception it throws, if any.  With [recursive] everything below
    [p] goes with it. *)
Definition fs_rmSync (err : option JsError) (p : jsstr) : M unit :=
  fun h =>
    match err with
    | Some e => (Thrown e, log (ERmSync p) h)
    | None =>
        (Returned tt,
         {| dirs := without_dir p (dirs h);
            trace := trace h ++ [ERmSync p] |})
    end.

(** [exec(cmd, { timeout }, cb)], awaited: [cb] is what the callback
    receives. *)
Definition exec (cmd : jsstr) (timeout : N) (cb : ExecCallback)
  : M ExecCallback :=
  fun h => (Returned cb, log (EExec cmd timeout) h).

(** [execFile(file, args, { timeout }, cb)], awaited. *)
Definition execFile (file : jsstr) (args : list jsstr) (timeout : N)
    (cb : ExecCallback) : M ExecCallback :=
  fun h => (Returned cb, log (EExecFile file args timeout) h).

End Node.

(* ===================================================================== *)
(** ** The batch endpoint: what the two snapshots of index.js share       *)
(* ===================================================================== *)

Module Batch.
Import Js Node.
Local Open Scope js_scope.

(** [req.body]: [code] and [stdin] are whatever the client sent,
    [VUndefined] when the property is absent. *)
Record Request := {
  req_code : JsVal;
  req_stdin : JsVal
}.

(** The JSON body of the response, with its HTTP status. *)
Record Response := {
  status : N;
  stdout : jsstr;
  stderr : jsstr;
  compileError : jsstr;
  exitCode : JsVal;
  timedOut : JsVal
}.

(** What [compileCode] and [executeCode] resolve to. *)
Record CompileResult := {
  c_error : bool;
  c_stdout : jsstr;
  c_stderr : jsstr;
  c_exitCode : JsVal
}.

Record ExecuteResult := {
  e_stdout : jsstr;
  e_stderr : jsstr;
  e_exitCode : JsVal;
  e_timedOut : JsVal
}.

(** The answers of the outside world during one request. *)
Record World := {
  w_tmpdir : jsstr;                (* os.tmpdir() *)
  w_uuid : jsstr;                  (* uuidv4() *)
  w_mkdir : option JsError;        (* err of fs.mkdir *)
  w_write_main : option JsError;   (* err of writing main.c *)
  w_write_input : option JsError;  (* err of writing input.txt *)
  w_compile : ExecCallback;        (* callback of the compile command *)
  w_run : ExecCallback;            (* callback of the run command *)
  w_rm : option JsError            (* exception of fs.rmSync *)
}.

(** [createWorkspace]: the promise is rejected with the first [err].
    [fs.writeFile] takes a string (or a buffer, which a JSON body cannot
    hold) as its data and throws a [TypeError] on anything else before
    it does anything.  For [stdin] that call is made inside the callback
    of the write before it, where nothing catches the exception: the
    promise is never settled and the process ends. *)
Definition createWorkspace (w : World) (workspaceDir code : jsstr)
    (stdin : JsVal) : M unit :=
  fs_mkdir (w_mkdir w) workspaceDir ;;
  let mainPath := path_join workspaceDir (lit "main.c") in
  fs_writeFile (w_write_main w) mainPath code ;;
  let inputPath := path_join workspaceDir (lit "input.txt") in
  match stdin with
  | VStr text => fs_writeFile (w_write_input w) inputPath text
  | _ => die
  end.

(** [cleanupWorkspace]: a failure of the removal is logged and
    swallowed. *)
Definition cleanupWorkspace (w : World) (workspaceDir : jsstr) : M unit :=
  try_catch
    (found <- fs_existsSync workspaceDir ;;
     if found : bool then fs_rmSync (w_rm w) workspaceDir else ret tt)
    (fun error => ret tt).

Definition MAX_CODE_LENGTH : Z := 1024 * 1024.

(** [stdin] after [const { code, stdin = '' } = req.body]: the default
    is taken for a property that is absent, and for nothing else. *)
Definition handler_stdin (req : Request) : JsVal :=
  match req_stdin req with
  | VUndefined => VStr []
  | sent => sent
  end.

(** The workspace directory of the request served in world [w]. *)
Definition workspace_of (w : World) : jsstr :=
  path_join (w_tmpdir w) (lit "c-runner-" ++ w_uuid w).

Section Route.

(** The two stages, which differ between the snapshots. *)
Variable compileCode : World -> jsstr -> M CompileResult.
Variable executeCode : World -> jsstr -> M ExecuteResult.

(** [app.post('/api/run', ...)].  The value returned is the response
    the handler passes to [res.json]; the [finally] block runs after
    that call, in the same turn of the event loop. *)
Definition api_run (w : World) (req : Request) : M Response :=
  let code := req_code req in
  let stdin := handler_stdin req in
  if negb (truthy code) || negb (is_string code) then
    ret {| status := 400;
           stdout := [];
           stderr := lit "Invalid code provided";
           compileError := [];
           exitCode := VNum (-1);
           timedOut := VBool false |}
  else
    let source := match code with VStr s => s | _ => [] end in
    if (js_length source >? MAX_CODE_LENGTH)%Z then
      ret {| status := 400;
             stdout := [];
             stderr := lit "Code too large (max 1MB)";
             compileError := [];
             exitCode := VNum (-1);
             timedOut := VBool false |}
    else
      let runId := w_uuid w in
      let workspaceDir := path_join (w_tmpdir w) (lit "c-runner-" ++ runId) in
      try_finally
        (try_catch
           (createWorkspace w workspaceDir source stdin ;;
            compileResult <- compileCode w workspaceDir ;;
            if c_error compileResult then
              ret {| status := 200;
                     stdout := [];
                     stderr := [];
                     compileError := c_stderr compileResult;
                     exitCode := c_exitCode compileResult;
                     timedOut := VBool false |}
            else
              executeResult <- executeCode w workspaceDir ;;
              ret {| status := 200;
                     stdout := e_stdout executeResult;
                     stderr := e_stderr executeResult;
                     compileError := [];
                     exitCode := e_exitCode executeResult;
                     timedOut := e_timedOut executeResult |})
           (fun error =>
              ret {| status := 500;
                     stdout := [];
                     stderr := lit "Internal server error: "
                                 ++ err_message error;
                     compileError := [];
                     exitCode := VNum (-1);
                     timedOut := VBool false |}))
        (cleanupWorkspace w workspaceDir).

End Route.

End Batch.

(* ===================================================================== *)
(** ** Docker command lines and what runs inside the container            *)
(* ===================================================================== *)

Module Docker.
Import Js.

(** Where the shell is in a command line: outside quotes, between
    double quotes or between single quotes. *)
Inductive Quoting :=
| Bare
| InDouble
| InSingle.

Definition is_blank (c : N) : bool := (c =? 32) || (c =? 9) || (c =? 10).

(** The words of a command line as the shell cuts it: at the blanks
    that are outside quotes, and with the quotes taken off.  [started]
    tells whether a word has begun and [cur] holds its code units, last
    one first.  The other things the shell does to a word (expansions,
    escapes, operators) are not modelled: the properties that go
    through [words] ask for a path without the characters that trigger
    them. *)
Fixpoint words_go (q : Quoting) (started : bool) (cur s : jsstr)
    : list jsstr :=
  match s with
  | [] => if started then [rev cur] else []
  | c :: s' =>
      match q with
      | Bare =>
          if is_blank c then
            (if started then [rev cur] else []) ++ words_go Bare false [] s'
          else if c =? 34 then words_go InDouble true cur s'
          else if c =? 39 then words_go InSingle true cur s'
          else words_go Bare true (c :: cur) s'
      | InDouble =>
          if c =? 34 then words_go Bare true cur s'
          else words_go InDouble true (c :: cur) s'
      | InSingle =>
          if c =? 39 then words_go Bare true cur s'
          else words_go InSingle true (c :: cur) s'
      end
  end.

Definition words (cmd : jsstr) : list jsstr := words_go Bare false [] cmd.

(** The options of [docker run], read as the docker client reads what
    follows [docker run]: [-v] and [--workdir] take the next word as
    their value, every other word that starts with a dash is an option
    on its own, and the first word that is neither is the image. *)
Fixpoint run_options (ws : list jsstr) : list jsstr :=
  match ws with
  | [] => []
  | o :: rest =>
      if str_eqb o (lit "-v") || str_eqb o (lit "--workdir") then
        match rest with
        | [] => []
        | _ :: rest' => run_options rest'
        end
      else if startsWith (lit "-") o then o :: run_options rest
      else []
  end.

(** The value of the option [name=value], if the option is given. *)
Fixpoint option_value (name : jsstr) (opts : list jsstr) : option jsstr :=
  match opts with
  | [] => None
  | o :: rest =>
      if startsWith (name ++ lit "=") o
      then Some (skipn (length name + 1) o)
      else option_value name rest
  end.

(** The resource caps of an isolated environment. *)
Record Caps := {
  memory : option jsstr;
  cpus : option jsstr;
  pids_limit : option jsstr;
  network : option jsstr;
  user : option jsstr
}.

(** The caps a command line [docker run ...] asks for. *)
Definition caps_of (argv : list jsstr) : Caps :=
  let opts := run_options (skipn 2 argv) in
  {| memory := option_value (lit "--memory") opts;
     cpus := option_value (lit "--cpus") opts;
     pids_limit := option_value (lit "--pids-limit") opts;
     network := option_value (lit "--network") opts;
     user := option_value (lit "--user") opts |}.

(** How the program ends inside the container: by itself, with the
    status the shell sees (128 + signal after a crash), or cut off by a
    deadline. *)
Inductive ProgramEnd :=
| Ended (status : N)
| DeadlineHit.

(** One run of the compiled program: what it wrote on each stream and
    how it ended. *)
Record ProgramRun := {
  program_out : jsstr;
  program_err : jsstr;
  program_end : ProgramEnd
}.

(** A number as the shell prints it, least significant digit first. *)
Fixpoint decimal_rev (fuel : nat) (n : N) : jsstr :=
  match fuel with
  | O => []
  | S f =>
      (48 + n mod 10)
        :: (if n / 10 =? 0 then [] else decimal_rev f (n / 10))
  end.

Definition decimal (n : N) : jsstr :=
  rev (decimal_rev (S (N.to_nat (N.log2 n))) n).

End Docker.

(* ===================================================================== *)
(** ** index.js, snapshot 20250923211629: marker-delimited output         *)
(* ===================================================================== *)

Module IndexMarkers.
Import Js Node Batch Docker.
Local Open Scope js_scope.

Definition compileCmd (workspaceDir : jsstr) : jsstr :=
  lit "docker run --rm " ++
  lit "-v " ++ DQUOTE ++ workspaceDir ++ lit ":/workspace" ++ DQUOTE
    ++ lit " " ++
  lit "--workdir /workspace " ++
  lit "--memory=256m " ++
  lit "--cpus=0.5 " ++
  lit "--network=none " ++
  lit "--user=1000:1000 " ++
  lit "c-runner:latest " ++
  lit "gcc -std=c11 -Wall -Wextra -O2 main.c -o main".

(** The callback of [exec] in [compileCode]. *)
Definition compile_result (cb : ExecCallback) : CompileResult :=
  match cb_error cb with
  | Some error =>
      {| c_error := true;
         c_stdout := cb_stdout cb;
         c_stderr := cb_stderr cb;
         c_exitCode := js_or (err_code error) (VNum 1) |}
  | None =>
      {| c_error := false;
         c_stdout := cb_stdout cb;
         c_stderr := cb_stderr cb;
         c_exitCode := VNum 0 |}
  end.

Definition compileCode (w : World) (workspaceDir : jsstr) : M CompileResult :=
  cb <- exec (compileCmd workspaceDir) 10000 (w_compile w) ;;
  ret (compile_result cb).

Definition executeCmd (workspaceDir : jsstr) : jsstr :=
  lit "docker run --rm " ++
  lit "-v " ++ DQUOTE ++ workspaceDir ++ lit ":/workspace" ++ DQUOTE
    ++ lit " " ++
  lit "--workdir /workspace " ++
  lit "--memory=256m " ++
  lit "--cpus=0.5 " ++
  lit "--pids-limit=64 " ++
  lit "--network=none " ++
  lit "--user=1000:1000 " ++
  lit "c-runner:latest " ++
  lit "sh -c 'timeout 3s ./main < input.txt > program.out 2> program.err; " ++
  lit "TIMEOUT_EXIT=$?; " ++
  lit "echo " ++ DQUOTE ++ lit "EXIT_CODE:$TIMEOUT_EXIT" ++ DQUOTE ++ lit "; " ++
  lit "echo " ++ DQUOTE ++ lit "---STDOUT---" ++ DQUOTE ++ lit "; " ++
  lit "cat program.out 2>/dev/null || echo " ++ DQUOTE ++ DQUOTE ++ lit "; " ++
  lit "echo " ++ DQUOTE ++ lit "---STDERR---" ++ DQUOTE ++ lit "; " ++
  lit "cat program.err 2>/dev/null || echo " ++ DQUOTE ++ DQUOTE ++ lit "'".

(** The state of the loop that looks for the markers. *)
Record Markers := {
  exitCodeLine : jsstr;
  stdoutStartIndex : Z;
  stderrStartIndex : Z
}.

(** [for (let i = 0; i < lines.length; i++) ...], from index [i] on. *)
Fixpoint find_markers (i : Z) (lines : list jsstr) (m : Markers) : Markers :=
  match lines with
  | [] => m
  | line :: rest =>
      find_markers (i + 1) rest
        (if startsWith (lit "EXIT_CODE:") line then
           {| exitCodeLine := line;
              stdoutStartIndex := stdoutStartIndex m;
              stderrStartIndex := stderrStartIndex m |}
         else if str_eqb line (lit "---STDOUT---") then
           {| exitCodeLine := exitCodeLine m;
              stdoutStartIndex := i + 1;
              stderrStartIndex := stderrStartIndex m |}
         else if str_eqb line (lit "---STDERR---") then
           {| exitCodeLine := exitCodeLine m;
              stdoutStartIndex := stdoutStartIndex m;
              stderrStartIndex := i + 1 |}
         else m)
  end.

(** The status GNU [timeout] returns when it had to kill the command. *)
Definition TIMEOUT_EXIT_CODE : Z := 124.

(** The callback of [exec] in [executeCode].  Every operation of its
    [try] block is total on strings, so the [catch] branch cannot be
    reached and is left out.  The separator of [split] and [join] is
    the source's ['\\n']: a backslash followed by [n]. *)
Definition parse_execution (cb : ExecCallback) : ExecuteResult :=
  let error := cb_error cb in
  let lines := split (lit "\n") (cb_stdout cb) in
  let m := find_markers 0 lines
             {| exitCodeLine := [];
                stdoutStartIndex := -1;
                stderrStartIndex := -1 |} in
  let exitCode :=
    if truthy (VStr (exitCodeLine m))
    then parseInt (index (split (lit ":") (exitCodeLine m)) 1)
    else match error with
         | Some e => js_or (err_code e) (VNum 1)
         | None => VNum 0
         end in
  let programStdout :=
    if negb (stdoutStartIndex m =? -1)%Z && negb (stderrStartIndex m =? -1)%Z
    then join (lit "\n")
           (slice lines (stdoutStartIndex m) (stderrStartIndex m - 1))
    else [] in
  let programStderr :=
    if negb (stderrStartIndex m =? -1)%Z
    then join (lit "\n") (slice_from lines (stderrStartIndex m))
    else [] in
  let timedOut := strict_eq exitCode (VNum TIMEOUT_EXIT_CODE) in
  {| e_stdout := programStdout;
     e_stderr := programStderr;
     e_exitCode := if timedOut then VNum TIMEOUT_EXIT_CODE else exitCode;
     e_timedOut := VBool timedOut |}.

Definition executeCode (w : World) (workspaceDir : jsstr) : M ExecuteResult :=
  cb <- exec (executeCmd workspaceDir) 15000 (w_run w) ;;
  ret (parse_execution cb).

Definition api_run : World -> Request -> M Response :=
  Batch.api_run compileCode executeCode.

(** What the [sh -c] script of [executeCmd] prints on the standard
    output of the container: the status left by [timeout 3s ./main],
    then the two files between the marker lines. *)
Definition script_stdout (TIMEOUT_EXIT : N) (out err : jsstr) : jsstr :=
  lit "EXIT_CODE:" ++ decimal TIMEOUT_EXIT ++ [LF] ++
  lit "---STDOUT---" ++ [LF] ++
  out ++
  lit "---STDERR---" ++ [LF] ++
  err.

(** [$?] after [timeout 3s ./main]: 124 when the deadline was hit,
    the status of the program otherwise. *)
Definition timeout_status (e : ProgramEnd) : N :=
  match e with
  | DeadlineHit => 124
  | Ended n => n
  end.

(** The callback [exec] receives when the container runs the script to
    its end and what it prints fits the buffer of [exec]: the last
    command of the script succeeds, so [docker run] exits with
    status 0. *)
Definition container_callback (r : ProgramRun) : ExecCallback :=
  {| cb_error := callback_error (Exited 0);
     cb_stdout := script_stdout (timeout_status (program_end r))
                    (program_out r) (program_err r);
     cb_stderr := [] |}.


End IndexMarkers.

(* ===================================================================== *)
(** ** index.js, later snapshot: the streams as [execFile] hands them over *)
(* ===================================================================== *)

Module IndexExecFile.
Import Js Node Batch Docker.
Local Open Scope js_scope.

Definition compile_cmd (workspaceDir : jsstr) : list jsstr :=
  [ lit "docker"; lit "run"; lit "--rm";
    lit "-v"; workspaceDir ++ lit ":/workspace";
    lit "--workdir"; lit "/workspace";
    lit "--memory=256m";
    lit "--cpus=0.5";
    lit "--network=none";
    lit "--user=1000:1000";
    lit "c-runner:latest";
    lit "gcc"; lit "-std=c11"; lit "-Wall"; lit "-Wextra"; lit "-O2";
    lit "main.c"; lit "-o"; lit "main" ].

(** The callback of [execFile] in [compileCode]; [!!error] tells
    whether there is an error object. *)
Definition compile_result (cb : ExecCallback) : CompileResult :=
  let error := cb_error cb in
  {| c_error := match error with Some _ => true | None => false end;
     c_stdout := trim (cb_stdout cb);
     c_stderr := trim (cb_stderr cb);
     c_exitCode := js_or (opt_code error) (VNum 0) |}.

Definition compileCode (w : World) (workspaceDir : jsstr) : M CompileResult :=
  let cmd := compile_cmd workspaceDir in
  cb <- execFile (hd [] cmd) (tl cmd) 10000 (w_compile w) ;;
  ret (compile_result cb).

Definition execute_cmd (workspaceDir : jsstr) : list jsstr :=
  [ lit "docker"; lit "run"; lit "--rm";
    lit "-v"; workspaceDir ++ lit ":/workspace";
    lit "--workdir"; lit "/workspace";
    lit "--memory=256m";
    lit "--cpus=0.5";
    lit "--pids-limit=64";
    lit "--network=none";
    lit "--user=1000:1000";
    lit "c-runner:latest";
    lit "./main" ].

(** The callback of [execFile] in [executeCode]. *)
Definition execution_result (cb : ExecCallback) : ExecuteResult :=
  let error := cb_error cb in
  let timedOut := js_or (opt_killed error) (VBool false) in
  let exitCode := js_or (opt_code error) (VNum 0) in
  {| e_stdout := trim (cb_stdout cb);
     e_stderr := trim (cb_stderr cb);
     e_exitCode := exitCode;
     e_timedOut := timedOut |}.

Definition executeCode (w : World) (workspaceDir : jsstr) : M ExecuteResult :=
  let cmd := execute_cmd workspaceDir in
  cb <- execFile (hd [] cmd) (tl cmd) 3000 (w_run w) ;;
  ret (execution_result cb).

Definition api_run : World -> Request -> M Response :=
  Batch.api_run compileCode executeCode.

(** What [execFile] had kept of the two streams, and which of them
    had grown over the buffer, when it killed the child for too much
    output.  How much of each stream has arrived by then depends on
    how the output comes in. *)
Record Overflow := {
  over_stderr : bool;
  kept_out : jsstr;
  kept_err : jsstr
}.

(** Both streams of the run fit the buffer of [execFile], which counts
    the bytes of what it decodes. *)
Definition fits_buffer (r : ProgramRun) : bool :=
  (byteLength (program_out r) <=? MAX_BUFFER)
  && (byteLength (program_err r) <=? MAX_BUFFER).

(** The callback [execFile] receives for a run of the program:
    [docker run] hands the two streams of the container over as its own
    and exits with the status of the program.  When the 3 s timer of
    [execFile] fires first, the callback gets what the program had
    written until then.  When the program ends by itself but has written
    more than the buffer holds on one of the streams, [execFile] has
    killed [docker run] at that point and the callback gets what was
    kept. *)
Definition container_callback (r : ProgramRun) (k : Overflow)
    : ExecCallback :=
  match program_end r with
  | DeadlineHit =>
      {| cb_error := callback_error TimerKilled;
         cb_stdout := program_out r;
         cb_stderr := program_err r |}
  | Ended n =>
      if fits_buffer r then
        {| cb_error := callback_error (Exited n);
           cb_stdout := program_out r;
           cb_stderr := program_err r |}
      else
        {| cb_error := callback_error (BufferOverflow (over_stderr k));
           cb_stdout := kept_out k;
           cb_stderr := kept_err k |}
  end.

End IndexExecFile.

(* ===================================================================== *)
(** ** interactiveServer.js: the session bridge                           *)
(* ===================================================================== *)

Module InteractiveServer.
Import Js Node Docker.
Local Open Scope js_scope.

(** CSI: [/\u001B\[[0-?]*[ -\/]*[@-~]/g] *)
Definition csi : Regex :=
  seq_of [ RChar ESC; RChar 91;
           RStar (in_range 48 63);
           RStar (in_range 32 47) ]
         (RClass (in_range 64 126)).

(** OSC: [/\u001B\][^\u0007\u001B]*(?:\u0007|\u001B\\)/g] *)
Definition osc : Regex :=
  seq_of [ RChar ESC; RChar 93;
           RStar (fun c => negb ((c =? BEL) || (c =? ESC))) ]
         (RAlt (RChar BEL) (RSeq (RChar ESC) (RChar BACKSLASH))).

(** SOS/PM/APC: [/\u001B[PX^_].*?\u001B\\/g]; the dot matches every
    code unit that is not a line terminator. *)
Definition other : Regex :=
  seq_of [ RChar ESC;
           RClass (fun c => (c =? 80) || (c =? 88) || (c =? 94) || (c =? 95));
           RLazy (fun c => negb (is_line_terminator c));
           RChar ESC ]
         (RChar BACKSLASH).

(** Single BELs: [/\u0007/g] *)
Definition bel : Regex := RChar BEL.

Definition stripAnsiSequences (raw : JsVal) : JsVal :=
  match raw with
  | VStr s =>
      VStr (replace_global bel
              (replace_global other
                 (replace_global osc
                    (replace_global csi s))))
  | _ => raw
  end.

Definition compileCmd (workspaceDir : jsstr) : list jsstr :=
  [ lit "docker"; lit "run"; lit "--rm";
    lit "-v"; workspaceDir ++ lit ":/workspace";
    lit "--workdir"; lit "/workspace";
    lit "c-runner:latest";
    lit "gcc"; lit "main.c"; lit "-o"; lit "main" ].

(** The arguments of [pty.spawn('docker', ...)]. *)
Definition spawn_args (workspaceDir : jsstr) : list jsstr :=
  [ lit "run"; lit "--rm"; lit "-i"; lit "-t";
    lit "-v"; workspaceDir ++ lit ":/workspace";
    lit "--workdir"; lit "/workspace";
    lit "c-runner:latest";
    lit "./main" ].

(** What the server sends to the client. *)
Inductive ServerMessage :=
| SendCompileError (data : jsstr)
| SendStdout (data : JsVal)
| SendExit.

(** One connection and the part of the host it acts on: the
    directories, the terminal-attached processes that are alive, the
    handle kept in [ws.term], the messages sent and the input written
    to the terminals. *)
Record Session := {
  workspaceDir : jsstr;
  host : Host;
  live : gset N;
  next_pid : N;
  term : option N;
  sent : list ServerMessage;
  written : list (N * JsVal)
}.

(** What can happen on a connection: a parsed client message, the
    callback of the compile command, data or exit of a spawned
    process, and the close of the socket ([rm] is the exception
    [fs.rmSync] throws, if any). *)
Inductive Event :=
| Message (type : jsstr) (code : jsstr) (data : JsVal)
| CompileDone (cb : ExecCallback)
| TermData (pid : N) (data : JsVal)
| TermExit (pid : N)
| Close (rm : option JsError).

(** The session with another host state, and with one more message
    sent by [ws.send]. *)
Definition with_host (s : Session) (h : Host) : Session :=
  {| workspaceDir := workspaceDir s; host := h; live := live s;
     next_pid := next_pid s; term := term s; sent := sent s;
     written := written s |}.

Definition send (s : Session) (m : ServerMessage) : Session :=
  {| workspaceDir := workspaceDir s; host := host s; live := live s;
     next_pid := next_pid s; term := term s; sent := sent s ++ [m];
     written := written s |}.

(** [wss.on('connection', ...)]: a session starts with its workspace
    directory made; [running] are the processes alive on the host and
    [pid0] the handle the next spawned process gets. *)
Definition connect (tmpdir sessionId : jsstr) (h : Host) (pid0 : N)
    (running : gset N) : Session :=
  let dir := path_join tmpdir (lit "c-runner-" ++ sessionId) in
  {| workspaceDir := dir;
     host := snd (fs_mkdir None dir h);
     live := running;
     next_pid := pid0;
     term := None;
     sent := [];
     written := [] |}.

(** [ws.on('close', ...)] *)
Definition on_close (rm : option JsError) (s : Session) : Session :=
  let dir := workspaceDir s in
  with_host s
    (snd (try_catch
            (found <- fs_existsSync dir ;;
             if found : bool then fs_rmSync rm dir else ret tt)
            (fun err => ret tt)
            (host s))).

(** The handlers of the connection, one event at a time.  The compile
    command is run with no [timeout] option; its callback comes back as
    [CompileDone].  [ws.term] is overwritten by every successful
    compile and never cleared. *)
Definition step (s : Session) (e : Event) : Session :=
  match e with
  | Message type code data =>
      let s1 :=
        if str_eqb type (lit "code") then
          let mainPath := path_join (workspaceDir s) (lit "main.c") in
          let h1 := snd (fs_writeFile None mainPath code (host s)) in
          with_host s
            (log (EExec (join (lit " ") (compileCmd (workspaceDir s))) 0) h1)
        else s in
      if str_eqb type (lit "stdin") then
        match term s1 with
        | Some pid =>
            {| workspaceDir := workspaceDir s1; host := host s1;
               live := live s1; next_pid := next_pid s1; term := term s1;
               sent := sent s1; written := written s1 ++ [(pid, data)] |}
        | None => s1
        end
      else s1
  | CompileDone cb =>
      match cb_error cb with
      | Some error => send s (SendCompileError (cb_stderr cb))
      | None =>
          let pid := next_pid s in
          {| workspaceDir := workspaceDir s;
             host := log (ESpawn (lit "docker") (spawn_args (workspaceDir s)))
                       (host s);
             live := {[ pid ]} ∪ live s;
             next_pid := pid + 1;
             term := Some pid;
             sent := sent s;
             written := written s |}
      end
  | TermData pid data => send s (SendStdout (stripAnsiSequences data))
  | TermExit pid =>
      send {| workspaceDir := workspaceDir s; host := host s;
              live := live s ∖ {[ pid ]}; next_pid := next_pid s;
              term := term s; sent := sent s; written := written s |}
           SendExit
  | Close rm => on_close rm s
  end.

(** The session after a sequence of events. *)
Definition run (s : Session) (events : list Event) : Session :=
  fold_left step events s.

End InteractiveServer.

(* ===================================================================== *)
(** ** The vocabulary of the properties                                   *)
(* ===================================================================== *)

Module Props.
Import Js Node Batch Docker.

(** A request the Gateway lets through: [code] is a non-empty string of
    at most [MAX_CODE_LENGTH] code units. *)
Definition accepted (req : Request) (source : jsstr) : Prop :=
  req_code req = VStr source /\ source <> [] /\
  (js_length source <= MAX_CODE_LENGTH)%Z.

(** The [stdin] of the request is a string, or absent. *)
Definition text_stdin (req : Request) : Prop :=
  is_string (req_stdin req) = true \/ req_stdin req = VUndefined.

(** The text written to [input.txt], when [stdin] is a string or
    absent. *)
Definition stdin_of (req : Request) : jsstr :=
  match req_stdin req with VStr text => text | _ => [] end.

(** The workspace could be allocated and both files written. *)
Definition workspace_ready (w : World) : Prop :=
  w_mkdir w = None /\ w_write_main w = None /\ w_write_input w = None.

(** A computation that does not end the process. *)
Definition never_dies {A} (m : M A) : Prop :=
  forall h, fst (m h) <> Died.

(** The effects a computation added to the trace of the host. *)
Definition effects_since (h h' : Host) : list Effect :=
  skipn (length (trace h)) (trace h').

(** The effects of [createWorkspace] when nothing fails. *)
Definition setup_effects (d source stdin : jsstr) : list Effect :=
  [ EMkdir d;
    EWriteFile (path_join d (lit "main.c")) source;
    EWriteFile (path_join d (lit "input.txt")) stdin ].

(** The shell command [cmd] was run. *)
Definition ran_command (cmd : jsstr) (tr : list Effect) : bool :=
  existsb (fun e => match e with
                    | EExec c _ => str_eqb c cmd
                    | _ => false
                    end) tr.

(** A field of the response is populated: it has a value, so that
    [JSON.stringify] puts it in the body.  ([stdout], [stderr] and
    [compileError] are strings in every response.) *)
Definition populated (v : JsVal) : Prop := v <> VUndefined.

(** The two shapes of a batch response: [compileError] is not empty
    and the two streams are; or [compileError] is empty and the other
    fields are populated. *)
Definition compile_error_shape (r : Response) : Prop :=
  compileError r <> [] /\ stdout r = [] /\ stderr r = [].

Definition execution_shape (r : Response) : Prop :=
  compileError r = [] /\ populated (exitCode r) /\ populated (timedOut r).

(** The world [w] with [run] as the callback of the run command. *)
Definition with_run (w : World) (run : ExecCallback) : World :=
  {| w_tmpdir := w_tmpdir w;
     w_uuid := w_uuid w;
     w_mkdir := w_mkdir w;
     w_write_main := w_write_main w;
     w_write_input := w_write_input w;
     w_compile := w_compile w;
     w_run := run;
     w_rm := w_rm w |}.

(** The caps of the batch endpoint, with or without a ceiling on the
    number of processes, and no cap at all. *)
Definition batch_caps (pids : option jsstr) : Caps :=
  {| memory := Some (lit "256m");
     cpus := Some (lit "0.5");
     pids_limit := pids;
     network := Some (lit "none");
     user := Some (lit "1000:1000") |}.

Definition no_caps : Caps :=
  {| memory := None; cpus := None; pids_limit := None;
     network := None; user := None |}.

(** [s.includes(sep)] *)
Fixpoint contains (sep s : jsstr) : bool :=
  startsWith sep s ||
  match s with
  | [] => false
  | _ :: s' => contains sep s'
  end.

(** The separator ['\\n'] of the marker parser, a backslash followed
    by [n], does not occur in a string. *)
Definition separator_free (s : jsstr) : Prop :=
  contains (lit "\n") s = false.

(** A path the shell leaves as it is between double quotes: without
    a double quote, a dollar sign, a backquote and a backslash. *)
Definition quotable (s : jsstr) : Prop :=
  Forall (fun c => (c =? 34) || (c =? 36) || (c =? 96) || (c =? 92) = false) s.

(** A path the shell leaves as it is without quotes: it is made of
    letters, digits and the characters [/], [.], [_] and [-]. *)
Definition path_char (c : N) : bool :=
  ((48 <=? c) && (c <=? 57)) || ((65 <=? c) && (c <=? 90))
  || ((97 <=? c) && (c <=? 122))
  || (c =? 47) || (c =? 46) || (c =? 95) || (c =? 45).

Definition unquoted_safe (s : jsstr) : Prop :=
  Forall (fun c => path_char c = true) s.

(** A decimal digit, as a code unit. *)
Definition is_digit (c : N) : Prop := 48 <= c <= 57.

(** Settles a goal about a digit by trying the ten digits; [cases] is
    the proof that the code unit is one of them. *)
Ltac by_digit cases :=
  destruct cases as
    [-> | [-> | [-> | [-> | [-> | [-> | [-> | [-> | [-> | ->]]]]]]]]];
  vm_compute; try reflexivity; try (split; [reflexivity | lia]).

End Props.

(* ===================================================================== *)
(** ** Concrete requests and worlds                                       *)
(* ===================================================================== *)

Module Examples.
Import Js Node Batch Docker.

Definition empty_host : Host := {| dirs := ∅; trace := [] |}.

Definition main_c : jsstr := lit "int main(void) { return 0; }".

Definition request : Request :=
  {| req_code := VStr main_c; req_stdin := VUndefined |}.

(** When [execFile] cuts a run for too much output on [stdout], and
    has kept nothing of what arrived: a value for the runs that fit. *)
Definition nothing_kept : IndexExecFile.Overflow :=
  {| IndexExecFile.over_stderr := false;
     IndexExecFile.kept_out := [];
     IndexExecFile.kept_err := [] |}.

(** A world in which the workspace is set up without error. *)
Definition world (compile run : ExecCallback) (rm : option JsError) : World :=
  {| w_tmpdir := lit "/tmp";
     w_uuid := lit "1b9d6bcd-bbfd-4b2d-9b5d-ab8dfbbd4bed";
     w_mkdir := None;
     w_write_main := None;
     w_write_input := None;
     w_compile := compile;
     w_run := run;
     w_rm := rm |}.

(** The compiler exits with status 0 and says nothing. *)
Definition compiled_ok : ExecCallback :=
  {| cb_error := callback_error (Exited 0); cb_stdout := []; cb_stderr := [] |}.

(** The compiler exits with status 1 and a diagnostic. *)
Definition compiled_with_error : ExecCallback :=
  {| cb_error := callback_error (Exited 1);
     cb_stdout := [];
     cb_stderr := lit "main.c:1:1: error: expected declaration" |}.

(** The compile command is killed by its 10 s timer before the
    compiler wrote anything. *)
Definition compile_timed_out : ExecCallback :=
  {| cb_error := callback_error TimerKilled; cb_stdout := []; cb_stderr := [] |}.

(** [fs.rmSync] fails. *)
Definition EACCES : JsError :=
  {| err_message := lit "EACCES: permission denied";
     err_code := VStr (lit "EACCES");
     err_killed := VUndefined |}.

(** A program that writes nothing and dereferences a null pointer:
    the shell sees status 139. *)
Definition null_dereference : ProgramRun :=
  {| program_out := []; program_err := []; program_end := Ended 139 |}.

(** The same crash after the program wrote, on its standard error, a
    backslash, [n] and an exit-code line. *)
Definition crash_with_forged_exit_line : ProgramRun :=
  {| program_out := [];
     program_err := lit "\nEXIT_CODE:0";
     program_end := Ended 139 |}.



(** Two programs that write the same on their standard error; the
    first writes the marker lines on its standard output, separated by
    backslash and [n]. *)
Definition prints_markers : ProgramRun :=
  {| program_out := lit "\n---STDOUT---\nfake\n---STDERR---\nforged";
     program_err := lit "real";
     program_end := Ended 0 |}.

Definition prints_nothing : ProgramRun :=
  {| program_out := [];
     program_err := lit "real";
     program_end := Ended 0 |}.

(** A source of 1024 * 1024 + 1 code units. *)
Definition oversized_source : jsstr := repeat 32 (N.to_nat 1048577).

(** A program that writes 1024 * 1024 + 1 letters on its standard
    output and ends with status 0, and what [execFile] has kept of it
    when it cuts the run: the letters the buffer holds. *)
Definition flood : ProgramRun :=
  {| program_out := repeat 65 (N.to_nat 1048577);
     program_err := [];
     program_end := Ended 0 |}.

Definition flood_kept : IndexExecFile.Overflow :=
  {| IndexExecFile.over_stderr := false;
     IndexExecFile.kept_out := repeat 65 (N.to_nat 1048576);
     IndexExecFile.kept_err := [] |}.

(** A request whose [stdin] is the number 5. *)
Definition request_with_number : Request :=
  {| req_code := VStr main_c; req_stdin := VNum 5 |}.

End Examples.


(* ===================================================================== *)
(** ** The rest of the code: what a command line mounts, the pages of the
       front end, the first interactive server                            *)
(* ===================================================================== *)

Module Sandbox.
Import Js Docker.






End Sandbox.

Module MarkerFormat.
Import Js Node Batch Docker Props.

Definition STDOUT_MARKER : jsstr := lit "---STDOUT---".
Definition STDERR_MARKER : jsstr := lit "---STDERR---".

(** A piece of output the marker parser takes for output: the separator
    does not occur in it, it does not start with [EXIT_CODE:] and it is
    none of the two marker lines. *)
Definition plain_piece (p : jsstr) : Prop :=
  separator_free p /\
  startsWith (lit "EXIT_CODE:") p = false /\
  p <> STDOUT_MARKER /\ p <> STDERR_MARKER.

(** The blob in the format the parser reads: the exit-code piece, the
    pieces of the standard output and of the standard error after their
    markers, all joined by the separator ['\\n']. *)
Definition blob (status : N) (outs errs : list jsstr) : jsstr :=
  join (lit "\n")
    ((lit "EXIT_CODE:" ++ decimal status) :: STDOUT_MARKER
       :: outs ++ STDERR_MARKER :: errs).

(** The exit code [executeCode] falls back to when it finds no
    [EXIT_CODE:] piece: [error ? error.code || 1 : 0]. *)
Definition fallback_exit (error : option JsError) : JsVal :=
  match error with
  | Some e => js_or (err_code e) (VNum 1)
  | None => VNum 0
  end.

End MarkerFormat.

(* ===================================================================== *)
(** ** The front end                                                      *)
(* ===================================================================== *)

Module Frontend.
Import Js Batch.

(** The [result] state of a page: a parsed JSON object whose fields may
    be missing ([VUndefined]). *)
Record Result := {
  r_stdout : JsVal;
  r_stderr : JsVal;
  r_compileError : JsVal;
  r_exitCode : JsVal;
  r_timedOut : JsVal
}.

(** A value after [JSON.stringify] and [JSON.parse]: [NaN] and the
    infinities come back as [null]. *)
Definition through_json (v : JsVal) : JsVal :=
  match v with
  | VNaN | VInfinity _ => VNull
  | _ => v
  end.

(** [response.data] for a response of the batch endpoint. *)
Definition of_response (r : Response) : Result :=
  {| r_stdout := VStr (stdout r);
     r_stderr := VStr (stderr r);
     r_compileError := VStr (compileError r);
     r_exitCode := through_json (exitCode r);
     r_timedOut := through_json (timedOut r) |}.

(** [axios] resolves the promise of a request for a status from 200 to
    299 and rejects it for every other status. *)
Definition axios_resolves (r : Response) : bool :=
  (200 <=? status r) && (status r <? 300).

(** The result [runCode] sets in its [catch] block, in the page
    [Index]. *)
Definition connection_failure : Result :=
  {| r_stdout := VStr [];
     r_stderr := VStr (lit "Failed to connect to backend server");
     r_compileError := VStr [];
     r_exitCode := VNum (-1);
     r_timedOut := VBool false |}.

(** [runCode] of the page [Index]: the result it sets for the response
    of the batch endpoint. *)
Definition runCode (r : Response) : Result :=
  if axios_resolves r then of_response r else connection_failure.

Inductive Badge :=
| CompileErrorBadge
| TimedOutBadge
| SuccessBadge
| RuntimeErrorBadge.

(** [getStatusBadge] of the page [Index] and of the first [App]; [None]
    is [null]. *)
Definition getStatusBadge (result : option Result) : option Badge :=
  match result with
  | None => None
  | Some result =>
      if truthy (r_compileError result) then Some CompileErrorBadge
      else if truthy (r_timedOut result) then Some TimedOutBadge
      else if strict_eq (r_exitCode result) (VNum 0) then Some SuccessBadge
      else Some RuntimeErrorBadge
  end.

(** [getStatusBadge] of the later [App], which also serves the
    interactive mode. *)
Definition getStatusBadge_App (result : option Result) : option Badge :=
  match result with
  | None => None
  | Some result =>
      if truthy (r_compileError result) then Some CompileErrorBadge
      else if truthy (r_timedOut result) then Some TimedOutBadge
      else if strict_eq (r_exitCode result) (VNum 0)
              || truthy (r_stdout result) then Some SuccessBadge
      else Some RuntimeErrorBadge
  end.

(** [inputToSend] of [runCode] in the first [App]: "Ensure stdin is
    never empty". *)
Definition inputToSend (stdin : jsstr) : jsstr :=
  if str_eqb (trim stdin) [] then [LF] else stdin.

(** A message of the interactive server as the page receives it. *)
Inductive Incoming :=
| InStdout (data : jsstr)
| InCompileError (data : jsstr)
| InExit.

(** The page during an interactive run: [outputData], [result],
    [isRunning] and whether the socket was closed by the page. *)
Record Page := {
  outputData : jsstr;
  result : option Result;
  isRunning : bool;
  closed : bool
}.

Definition only_stdout (s : jsstr) : Result :=
  {| r_stdout := VStr s; r_stderr := VUndefined;
     r_compileError := VUndefined; r_exitCode := VUndefined;
     r_timedOut := VUndefined |}.

Definition only_compileError (s : jsstr) : Result :=
  {| r_stdout := VUndefined; r_stderr := VUndefined;
     r_compileError := VStr s; r_exitCode := VUndefined;
     r_timedOut := VUndefined |}.

(** [wsRef.current.onmessage] *)
Definition onmessage (p : Page) (msg : Incoming) : Page :=
  match msg with
  | InStdout data =>
      {| outputData := outputData p ++ data;
         result := Some (only_stdout (outputData p ++ data));
         isRunning := isRunning p;
         closed := closed p |}
  | InCompileError data =>
      {| outputData := outputData p;
         result := Some (only_compileError data);
         isRunning := isRunning p;
         closed := closed p |}
  | InExit =>
      {| outputData := outputData p;
         result := result p;
         isRunning := false;
         closed := true |}
  end.

(** The page when [runCode] has opened the socket. *)
Definition opened : Page :=
  {| outputData := []; result := None; isRunning := true; closed := false |}.

Definition receive (p : Page) (msgs : list Incoming) : Page :=
  fold_left onmessage msgs p.

(** The output a message carries. *)
Definition stdout_data (msg : Incoming) : jsstr :=
  match msg with
  | InStdout data => data
  | _ => []
  end.

End Frontend.

(* ===================================================================== *)
(** ** interactiveServer.js, first snapshot                               *)
(* ===================================================================== *)

Module InteractiveFirst.
Import Js Node Docker.

(** One connection of the first snapshot.  The terminal is a local
    constant of the callback of the compile command, and every
    successful compile registers one more [message] handler that writes
    to its own terminal: [terms] are the terminals of these handlers,
    in the order they were registered. *)
Record Session := {
  workspaceDir : jsstr;
  host : Host;
  terms : list N;
  next_pid : N;
  sent : list InteractiveServer.ServerMessage;
  written : list (N * JsVal)
}.

(** [wss.on('connection', ...)]: the path of the workspace is computed,
    nothing is made. *)
Definition connect (tmpdir sessionId : jsstr) (h : Host) (pid0 : N)
    : Session :=
  {| workspaceDir := path_join tmpdir (lit "c-runner-" ++ sessionId);
     host := h;
     terms := [];
     next_pid := pid0;
     sent := [];
     written := [] |}.

Definition send (s : Session) (m : InteractiveServer.ServerMessage)
    : Session :=
  {| workspaceDir := workspaceDir s; host := host s; terms := terms s;
     next_pid := next_pid s; sent := sent s ++ [m];
     written := written s |}.

(** The handlers of the connection, one event at a time.  On a message
    the first handler runs, then the handlers registered by the
    successful compiles. *)
Definition step (s : Session) (e : InteractiveServer.Event) : Session :=
  match e with
  | InteractiveServer.Message type code data =>
      let s1 :=
        if str_eqb type (lit "code") then
          let dir := workspaceDir s in
          let mainPath := path_join dir (lit "main.c") in
          let h1 := snd (fs_mkdir None dir (host s)) in
          let h2 := snd (fs_writeFile None mainPath code h1) in
          {| workspaceDir := dir;
             host := log (EExec (join (lit " ")
                                   (InteractiveServer.compileCmd dir)) 0) h2;
             terms := terms s; next_pid := next_pid s; sent := sent s;
             written := written s |}
        else s in
      if str_eqb type (lit "stdin") then
        {| workspaceDir := workspaceDir s1; host := host s1;
           terms := terms s1; next_pid := next_pid s1; sent := sent s1;
           written := written s1 ++ map (fun pid => (pid, data)) (terms s1) |}
      else s1
  | InteractiveServer.CompileDone cb =>
      match cb_error cb with
      | Some error =>
          send s (InteractiveServer.SendCompileError (cb_stderr cb))
      | None =>
          let pid := next_pid s in
          {| workspaceDir := workspaceDir s;
             host := log (ESpawn (lit "docker")
                            (InteractiveServer.spawn_args (workspaceDir s)))
                       (host s);
             terms := terms s ++ [pid];
             next_pid := pid + 1;
             sent := sent s;
             written := written s |}
      end
  | InteractiveServer.TermData pid data =>
      send s (InteractiveServer.SendStdout data)
  | InteractiveServer.TermExit pid => send s InteractiveServer.SendExit
  | InteractiveServer.Close rm => s
  end.

Definition run (s : Session) (events : list InteractiveServer.Event)
    : Session :=
  fold_left step events s.

End InteractiveFirst.

Module Props2.
Import Js Node Batch Props.

(** The set-up of the workspace fails with [e]: in [fs.mkdir], in the
    write of [main.c] after that went well, or in the write of
    [input.txt], of a [stdin] that is a string or absent, after both
    went well. *)
Definition setup_fails (w : World) (req : Request) (e : JsError) : Prop :=
  w_mkdir w = Some e \/
  (w_mkdir w = None /\ w_write_main w = Some e) \/
  (w_mkdir w = None /\ w_write_main w = None /\
   text_stdin req /\ w_write_input w = Some e).

(** An effect that starts a process. *)
Definition starts_process (e : Effect) : bool :=
  match e with
  | EExec _ _ | EExecFile _ _ _ | ESpawn _ _ => true
  | _ => false
  end.

(** The 400 response to a request without a usable [code]. *)
Definition invalid_code_response : Response :=
  {| status := 400;
     stdout := [];
     stderr := lit "Invalid code provided";
     compileError := [];
     exitCode := VNum (-1);
     timedOut := VBool false |}.

(** The 500 response to an exception with message [m]. *)
Definition internal_error_response (m : jsstr) : Response :=
  {| status := 500;
     stdout := [];
     stderr := lit "Internal server error: " ++ m;
     compileError := [];
     exitCode := VNum (-1);
     timedOut := VBool false |}.

(** From [h] to [h'], outside the directory [d]: nothing that existed
    is gone, and nothing is new but directories above [d]. *)
Definition same_elsewhere (d : jsstr) (h h' : Host) : Prop :=
  forall p, p <> d -> below d p = false ->
    (p ∈ dirs h -> p ∈ dirs h') /\
    (p ∈ dirs h' -> p ∈ dirs h \/ In p (above d)).

(** A computation that removes nothing outside [d] and makes nothing
    but [d] and the directories above it. *)
Definition confined {A} (d : jsstr) (m : M A) : Prop :=
  forall h, same_elsewhere d h (snd (m h)).

(** Text without escape sequences: neither ESC nor BEL occurs in it. *)
Definition plain_text (s : jsstr) : Prop := ~ In ESC s /\ ~ In BEL s.

(** Every code unit of [s] is between [lo] and [hi]. *)
Definition all_in_range (lo hi : N) (s : jsstr) : Prop :=
  Forall (fun c => in_range lo hi c = true) s.

(** A message whose output data, if it is a string, is without BEL. *)
Definition bel_free (m : InteractiveServer.ServerMessage) : Prop :=
  match m with
  | InteractiveServer.SendStdout (VStr d) => ~ In BEL d
  | _ => True
  end.

(** The close of the socket. *)
Definition is_close (e : InteractiveServer.Event) : bool :=
  match e with
  | InteractiveServer.Close _ => true
  | _ => false
  end.

(** The callback of a compile command that went well: the one event
    that starts a program. *)
Definition starts_program (e : InteractiveServer.Event) : bool :=
  match e with
  | InteractiveServer.CompileDone cb =>
      match cb_error cb with
      | None => true
      | Some _ => false
      end
  | _ => false
  end.

(** The number of compile commands that went well. *)
Definition programs_started (events : list InteractiveServer.Event) : nat :=
  length (List.filter starts_program events).

End Props2.

(* ===================================================================== *)
(** ** Facts about the library functions                                  *)
(* ===================================================================== *)

Import Js Node Batch Docker Props Props2.

Section StringFacts.

Lemma startsWith_head_ne (c x : N) (sep' s : jsstr) :
  c <> x -> startsWith (c :: sep') (x :: s) = false.
Proof.
  intros Hne. simpl. destruct (N.eqb_spec c x); [contradiction | reflexivity].
Qed.

(** A string without the first code unit of the separator is one piece. *)
Lemma split_go_absent (c : N) (sep' : jsstr) (s cur : jsstr) :
  ~ In c s -> split_go (c :: sep') 0 cur s = [rev cur ++ s].
Proof.
  revert cur. induction s as [| x s IH]; intros cur Hnot.
  - simpl. now rewrite app_nil_r.
  - cbn [split_go]. rewrite startsWith_head_ne.
    + rewrite IH.
      * simpl. now rewrite <- app_assoc.
      * intros Hin. apply Hnot. now right.
    + intros ->. apply Hnot. now left.
Qed.

(** A prefix without the first code unit of the separator goes to the
    current piece. *)
Lemma split_go_prefix (c : N) (sep' : jsstr) (p s cur : jsstr) :
  ~ In c p ->
  split_go (c :: sep') 0 cur (p ++ s) = split_go (c :: sep') 0 (rev p ++ cur) s.
Proof.
  revert cur. induction p as [| x p IH]; intros cur Hnot.
  - reflexivity.
  - cbn [app split_go]. rewrite startsWith_head_ne.
    + rewrite IH.
      * simpl. now rewrite <- app_assoc.
      * intros Hin. apply Hnot. now right.
    + intros ->. apply Hnot. now left.
Qed.

(** The first piece starts with what was collected so far. *)
Lemma split_go_first (sep : jsstr) (s : jsstr) :
  forall k cur, exists x rest, split_go sep k cur s = (rev cur ++ x) :: rest.
Proof.
  induction s as [| c s IH]; intros k cur.
  - exists [], []. simpl. now rewrite app_nil_r.
  - destruct k as [| k].
    + cbn [split_go]. destruct (startsWith sep (c :: s)).
      * exists [], (split_go sep (length sep - 1) [] s). now rewrite app_nil_r.
      * destruct (IH 0%nat (c :: cur)) as (x & rest & ->).
        exists (c :: x), rest. simpl. now rewrite <- app_assoc.
    + cbn [split_go]. apply IH.
Qed.

End StringFacts.

Section DecimalFacts.

Lemma digit_cases (c : N) :
  is_digit c ->
  c = 48 \/ c = 49 \/ c = 50 \/ c = 51 \/ c = 52 \/
  c = 53 \/ c = 54 \/ c = 55 \/ c = 56 \/ c = 57.
Proof. unfold is_digit. lia. Qed.

Lemma digit_value_digit (c : N) :
  is_digit c -> digit_value c = Some (Z.of_N (c - 48)).
Proof. intros H. by_digit (digit_cases c H). Qed.

Lemma digit_below_ten (c : N) : is_digit c -> (Z.of_N (c - 48) <? 10)%Z = true.
Proof. intros H. by_digit (digit_cases c H). Qed.

Lemma digit_not_whitespace (c : N) : is_digit c -> is_whitespace c = false.
Proof. intros H. by_digit (digit_cases c H). Qed.

Lemma digit_not_sign (c : N) : is_digit c -> (c =? 45) = false /\ (c =? 43) = false.
Proof. intros H. by_digit (digit_cases c H). Qed.

Lemma digit_not_hex_mark (c : N) : is_digit c -> (c =? 120) || (c =? 88) = false.
Proof. intros H. by_digit (digit_cases c H). Qed.

(** Reading a run of decimal digits that ends at [t], where reading
    stops. *)
Lemma read_digits_run (ds t : jsstr) :
  Forall is_digit ds ->
  (forall acc, read_digits 10 acc t = acc) ->
  forall acc,
    ds <> [] ->
    read_digits 10 acc (ds ++ t) =
      Some (fold_left (fun a c => a * 10 + Z.of_N (c - 48))%Z ds
              (match acc with Some a => a | None => 0%Z end)).
Proof.
  intros Hds Hstop. induction Hds as [| d ds Hd Hds IH]; intros acc Hne.
  - contradiction.
  - cbn [app read_digits fold_left].
    rewrite (digit_value_digit d Hd), (digit_below_ten d Hd).
    destruct ds as [| d' ds'].
    + simpl. rewrite Hstop. destruct acc; f_equal; lia.
    + rewrite IH by discriminate. f_equal. f_equal. destruct acc; lia.
Qed.

Lemma decimal_rev_digits (f : nat) :
  forall n, Forall is_digit (decimal_rev f n).
Proof.
  induction f as [| f IH]; intros n; cbn [decimal_rev].
  - constructor.
  - constructor.
    + unfold is_digit.
      assert (n mod 10 < 10) by (apply N.mod_upper_bound; discriminate).
      generalize dependent (n mod 10). intros; lia.
    + destruct (n / 10 =? 0); [constructor | apply IH].
Qed.

Lemma decimal_rev_value (f : nat) :
  forall n,
    n < 2 ^ N.of_nat f ->
    fold_right (fun c a => a * 10 + Z.of_N (c - 48))%Z 0%Z (decimal_rev f n)
    = Z.of_N n.
Proof.
  induction f as [| f IH]; intros n Hn.
  - simpl in *. lia.
  - cbn [decimal_rev fold_right].
    pose proof (N.div_mod' n 10) as Hdm.
    assert (Hm : n mod 10 < 10) by (apply N.mod_upper_bound; discriminate).
    assert (Hq : n / 10 < 2 ^ N.of_nat f).
    { apply N.Div0.div_lt_upper_bound.
      rewrite Nat2N.inj_succ, N.pow_succ_r' in Hn.
      generalize dependent (2 ^ N.of_nat f). intros; lia. }
    specialize (IH (n / 10) Hq).
    destruct (N.eqb_spec (n / 10) 0) as [Hz | Hnz].
    + cbn [fold_right].
      generalize dependent (n mod 10). generalize dependent (n / 10).
      intros; lia.
    + rewrite IH.
      generalize dependent (n mod 10). generalize dependent (n / 10).
      intros; lia.
Qed.

Lemma decimal_digits (n : N) : Forall is_digit (decimal n).
Proof. unfold decimal. apply Forall_rev, decimal_rev_digits. Qed.

Lemma decimal_nonempty (n : N) : decimal n <> [].
Proof.
  unfold decimal. cbn [decimal_rev]. simpl rev.
  intros H. apply app_eq_nil in H. destruct H as [_ H]. discriminate.
Qed.

Lemma decimal_value (n : N) :
  fold_left (fun a c => a * 10 + Z.of_N (c - 48))%Z (decimal n) 0%Z = Z.of_N n.
Proof.
  unfold decimal. rewrite <- fold_left_rev_right, rev_involutive.
  apply decimal_rev_value.
  rewrite Nat2N.inj_succ, N2Nat.id.
  destruct (N.eq_dec n 0) as [-> | Hpos]; [reflexivity |].
  apply N.log2_spec. lia.
Qed.

(** [parseInt] reads back the number the shell printed, whatever
    follows the line feed. *)
Lemma parseInt_decimal (n : N) (r : jsstr) :
  parseInt (VStr (decimal n ++ LF :: r)) = number (Z.of_N n).
Proof.
  pose proof (decimal_digits n) as Hds.
  pose proof (decimal_nonempty n) as Hne.
  pose proof (decimal_value n) as Hval.
  pose proof (read_digits_run (decimal n) (LF :: r) Hds
                (fun acc => eq_refl) None Hne) as Hread.
  destruct (decimal n) as [| d ds]; [contradiction |].
  inversion Hds as [| ? ? Hd Hds']; subst.
  unfold parseInt. cbn [app trim_start].
  rewrite (digit_not_whitespace d Hd).
  destruct (digit_not_sign d Hd) as [-> ->].
  assert (Hnohex :
    match ds ++ LF :: r with
    | b :: _ => (b =? 120) || (b =? 88) = false
    | [] => True
    end).
  { destruct ds as [| b ds']; [reflexivity |].
    inversion Hds'; subst. now apply digit_not_hex_mark. }
  cbn [app] in Hread.
  destruct (ds ++ LF :: r) as [| b rest] eqn:Hrest.
  - destruct ds; discriminate.
  - rewrite Hnohex, andb_false_r. rewrite Hread, Hval. reflexivity.
Qed.

End DecimalFacts.

(* ===================================================================== *)
(** ** Facts about the Number value of an integer                         *)
(* ===================================================================== *)

Section NumberFacts.

Local Open Scope Z_scope.

(** Up to 2^53 an integer is its own Number value. *)
Lemma number_small (z : Z) : Z.abs z <= 2 ^ 53 -> number z = VNum z.
Proof.
  intros Hz. unfold number.
  destruct (Z.leb_spec (Z.abs z) (2 ^ 53)) as [_ | Hgt]; [reflexivity | lia].
Qed.

(** Beyond 2^53 the nearest double is no smaller than 2^53. *)
Lemma round_double_big (m : Z) : 2 ^ 53 < m -> 2 ^ 53 <= round_double m.
Proof.
  intros Hm. unfold round_double.
  assert (Hpos : 0 < m) by lia.
  pose proof (Z.log2_spec m Hpos) as [Hlow _].
  assert (Hlog : 53 <= Z.log2 m).
  { change 53 with (Z.log2 (2 ^ 53)). apply Z.log2_le_mono. lia. }
  set (e := Z.log2 m - 52) in *.
  assert (He : 1 <= e) by (unfold e; lia).
  assert (Hpow : 2 ^ Z.log2 m = 2 ^ 52 * 2 ^ e).
  { rewrite <- Z.pow_add_r by lia. f_equal. unfold e. lia. }
  assert (H2e : 2 <= 2 ^ e).
  { change 2 with (2 ^ 1) at 1. apply Z.pow_le_mono_r; lia. }
  assert (Hq : 2 ^ 52 <= m / 2 ^ e).
  { apply Z.div_le_lower_bound; [lia |]. rewrite Z.mul_comm. lia. }
  set (q := m / 2 ^ e) in *.
  assert (Hmul : forall x, q <= x -> 2 ^ 53 <= x * 2 ^ e).
  { intros x Hx. change (2 ^ 53) with (2 ^ 52 * 2).
    apply Z.mul_le_mono_nonneg; lia. }
  destruct (m mod 2 ^ e <? 2 ^ (e - 1)); [apply Hmul; lia |].
  destruct (2 ^ (e - 1) <? m mod 2 ^ e); [apply Hmul; lia |].
  destruct (Z.even q); apply Hmul; lia.
Qed.

(** The Number value of a status is 124 for the status 124 only. *)
Lemma number_is_124 (n : N) :
  strict_eq (number (Z.of_N n)) (VNum 124) = (n =? 124)%N.
Proof.
  unfold number.
  destruct (Z.leb_spec (Z.abs (Z.of_N n)) (2 ^ 53)) as [Hle | Hgt].
  - cbn [strict_eq].
    destruct (N.eqb_spec n 124) as [-> | Hne]; [reflexivity |].
    apply Z.eqb_neq. lia.
  - pose proof (round_double_big (Z.abs (Z.of_N n)) Hgt) as Hbig.
    assert (Hn : (n =? 124)%N = false).
    { apply N.eqb_neq. intros ->. vm_compute in Hgt. discriminate. }
    rewrite Hn.
    destruct (2 ^ 1024 <=? round_double (Z.abs (Z.of_N n))); [reflexivity |].
    destruct (Z.ltb_spec (Z.of_N n) 0) as [Hneg | _]; [lia |].
    cbn [strict_eq]. apply Z.eqb_neq.
    assert (124 < 2 ^ 53) by reflexivity. lia.
Qed.

End NumberFacts.

(* ===================================================================== *)
(** ** Facts about the marker parser of [IndexMarkers]                    *)
(* ===================================================================== *)

Section MarkerFacts.

Lemma startsWith_app (p s : jsstr) : startsWith p (p ++ s) = true.
Proof.
  induction p as [| c p IH]; [reflexivity |].
  simpl. now rewrite N.eqb_refl, IH.
Qed.

Lemma str_eqb_cons_nil (c : N) (s : jsstr) : str_eqb (c :: s) [] = false.
Proof. unfold str_eqb. now apply bool_decide_eq_false. Qed.

Lemma not_in_app (c : N) (a b : jsstr) :
  ~ In c a -> ~ In c b -> ~ In c (a ++ b).
Proof. intros Ha Hb H. apply in_app_or in H. tauto. Qed.

Lemma decimal_no_colon (n : N) : ~ In 58 (decimal n).
Proof.
  intros Hin. pose proof (decimal_digits n) as Hds.
  rewrite List.Forall_forall in Hds. apply Hds in Hin.
  unfold is_digit in Hin. lia.
Qed.

(** A string in which the separator does not occur is one piece. *)
Lemma split_go_not_contained (sep s : jsstr) :
  contains sep s = false ->
  forall cur, split_go sep 0 cur s = [rev cur ++ s].
Proof.
  induction s as [| c s IH]; intros Hfree cur.
  - simpl. now rewrite app_nil_r.
  - cbn [contains] in Hfree. apply orb_false_elim in Hfree.
    destruct Hfree as [Hhere Hlater].
    cbn [split_go]. rewrite Hhere, (IH Hlater).
    simpl. now rewrite <- app_assoc.
Qed.

(** A separator of two code units occurs in [a ++ b] only if it occurs
    in [a], occurs in [b], or sits across the seam. *)
Lemma contains_app_head (x y : N) (a b : jsstr) :
  contains [x; y] a = false -> contains [x; y] b = false ->
  startsWith [y] b = false ->
  contains [x; y] (a ++ b) = false.
Proof.
  intros Ha Hb Hseam. induction a as [| c a IH]; [exact Hb |].
  cbn [contains] in Ha. apply orb_false_elim in Ha. destruct Ha as [Hc Ha].
  cbn [app contains]. rewrite (IH Ha), orb_false_r.
  cbn [startsWith] in *. destruct (x =? c); [| reflexivity]. cbn [andb] in *.
  destruct a as [| d a]; [exact Hseam | exact Hc].
Qed.

Lemma contains_app_last (x y : N) (a b : jsstr) :
  contains [x; y] a = false -> contains [x; y] b = false ->
  (List.last a y =? x) = false ->
  contains [x; y] (a ++ b) = false.
Proof.
  intros Ha Hb Hseam. induction a as [| c a IH]; [exact Hb |].
  cbn [contains] in Ha. apply orb_false_elim in Ha. destruct Ha as [Hc Ha].
  cbn [app contains].
  destruct a as [| d a].
  - cbn [List.last] in Hseam. cbn [app startsWith]. rewrite N.eqb_sym, Hseam.
    cbn [andb orb]. exact Hb.
  - rewrite (IH Ha Hseam), orb_false_r. exact Hc.
Qed.

Lemma decimal_separator_free (n : N) : contains [BACKSLASH; 110] (decimal n) = false.
Proof.
  pose proof (decimal_digits n) as Hds.
  induction Hds as [| d ds Hd Hds IH]; [reflexivity |].
  cbn [contains startsWith]. rewrite IH, orb_false_r.
  destruct (N.eqb_spec BACKSLASH d) as [He | _]; [| reflexivity].
  unfold is_digit, BACKSLASH in *. lia.
Qed.

(** When the separator occurs neither in the standard output nor in
    the standard error of the program, it does not occur in what the
    script prints. *)
Lemma script_stdout_separator_free (st : N) (out err : jsstr) :
  separator_free out -> separator_free err ->
  separator_free (IndexMarkers.script_stdout st out err).
Proof.
  unfold separator_free, IndexMarkers.script_stdout.
  change (lit "\n") with [BACKSLASH; 110]. intros Hout Herr.
  apply contains_app_last; [reflexivity | | reflexivity].
  apply contains_app_head; [apply decimal_separator_free | | reflexivity].
  apply contains_app_last; [reflexivity | | reflexivity].
  apply contains_app_last; [reflexivity | | reflexivity].
  apply contains_app_last; [reflexivity | | reflexivity].
  apply contains_app_head; [exact Hout | | reflexivity].
  apply contains_app_last; [reflexivity | | reflexivity].
  apply contains_app_last; [reflexivity | exact Herr | reflexivity].
Qed.

(** The number [split(':')[1]] and [parseInt] recover from a blob that
    starts with the [EXIT_CODE:] line. *)
Lemma exit_code_read_back (st : N) (rest : jsstr) :
  parseInt
    (index (split (lit ":")
              (lit "EXIT_CODE:" ++ decimal st ++ LF :: rest)) 1)
  = number (Z.of_N st).
Proof.
  unfold split.
  change (lit ":") with [58].
  change (lit "EXIT_CODE:") with ([69; 88; 73; 84; 95; 67; 79; 68; 69] ++ [58]).
  rewrite <- app_assoc.
  rewrite split_go_prefix by (vm_compute; intuition discriminate).
  cbn [app split_go startsWith length Nat.sub N.eqb Pos.eqb andb].
  rewrite split_go_prefix by apply decimal_no_colon.
  change (LF :: rest) with ([LF] ++ rest).
  rewrite split_go_prefix by (vm_compute; intuition discriminate).
  destruct (split_go_first [58] rest 0
              (rev [LF] ++ rev (decimal st) ++ [])) as (x & tl & ->).
  cbn [index nth_error].
  rewrite app_nil_r, <- rev_app_distr, rev_involutive, <- app_assoc.
  cbn [app].
  apply parseInt_decimal.
Qed.

Lemma split_lines_one_piece (blob : jsstr) :
  separator_free blob -> split (lit "\n") blob = [blob].
Proof. intros H. unfold split. now rewrite split_go_not_contained. Qed.

Lemma find_markers_one_piece (rest : jsstr) (m : IndexMarkers.Markers) :
  IndexMarkers.find_markers 0 [lit "EXIT_CODE:" ++ rest] m =
    {| IndexMarkers.exitCodeLine := lit "EXIT_CODE:" ++ rest;
       IndexMarkers.stdoutStartIndex := IndexMarkers.stdoutStartIndex m;
       IndexMarkers.stderrStartIndex := IndexMarkers.stderrStartIndex m |}.
Proof. cbn [IndexMarkers.find_markers]. now rewrite startsWith_app. Qed.

(** What [executeCode] makes of the output of the script when the
    separator does not occur in the output of the program: the blob
    stays in one piece, the marker lines are not found, and the status
    is read back. *)
Lemma parse_execution_container (r : ProgramRun) :
  separator_free (program_out r) -> separator_free (program_err r) ->
  IndexMarkers.parse_execution (IndexMarkers.container_callback r) =
    let st := IndexMarkers.timeout_status (program_end r) in
    {| e_stdout := [];
       e_stderr := [];
       e_exitCode := number (Z.of_N st);
       e_timedOut := VBool (st =? 124) |}.
Proof.
  intros Hout Herr.
  pose proof (script_stdout_separator_free
                (IndexMarkers.timeout_status (program_end r)) _ _ Hout Herr)
    as Hblob.
  unfold IndexMarkers.parse_execution, IndexMarkers.container_callback.
  cbv zeta. cbn [cb_error cb_stdout cb_stderr callback_error].
  rewrite (split_lines_one_piece _ Hblob).
  set (st := IndexMarkers.timeout_status (program_end r)).
  unfold IndexMarkers.script_stdout.
  rewrite find_markers_one_piece.
  cbn [IndexMarkers.exitCodeLine IndexMarkers.stdoutStartIndex
       IndexMarkers.stderrStartIndex].
  change (-1 =? -1)%Z with true. cbn [negb andb].
  replace (truthy (VStr (lit "EXIT_CODE:" ++ decimal st ++ [LF] ++
             lit "---STDOUT---" ++ [LF] ++ program_out r ++
             lit "---STDERR---" ++ [LF] ++ program_err r))) with true
    by (symmetry; apply negb_true_iff, str_eqb_cons_nil).
  cbn [app]. rewrite exit_code_read_back.
  unfold IndexMarkers.TIMEOUT_EXIT_CODE. rewrite number_is_124.
  destruct (N.eqb_spec st 124) as [-> | Hne]; reflexivity.
Qed.

End MarkerFacts.

(* ===================================================================== *)
(** ** Facts about the route handler, for any pair of stages              *)
(* ===================================================================== *)

Section RouteFacts.

Variable compileCode : World -> jsstr -> M CompileResult.
Variable executeCode : World -> jsstr -> M ExecuteResult.

Lemma str_eqb_nil_false (s : jsstr) : s <> [] -> str_eqb s [] = false.
Proof. intros H. unfold str_eqb. now apply bool_decide_eq_false. Qed.

Lemma elem_of_without_dir (p q : jsstr) (ds : gset jsstr) :
  q ∈ without_dir p ds <-> q ∈ ds /\ q <> p /\ below p q = false.
Proof. unfold without_dir. rewrite elem_of_filter. tauto. Qed.

Lemma not_elem_of_without_dir (p : jsstr) (ds : gset jsstr) :
  p ∉ without_dir p ds.
Proof. rewrite elem_of_without_dir. tauto. Qed.

Lemma elem_of_with_dir (p q : jsstr) (ds : gset jsstr) :
  q ∈ with_dir p ds <-> q = p \/ In q (above p) \/ q ∈ ds.
Proof.
  unfold with_dir. rewrite !elem_of_union, elem_of_singleton,
    elem_of_list_to_set, <- list_elem_of_In. tauto.
Qed.

Lemma elem_of_with_dir_self (p : jsstr) (ds : gset jsstr) :
  p ∈ with_dir p ds.
Proof. rewrite elem_of_with_dir. now left. Qed.

(** [cleanupWorkspace] always returns; it removes the directory when
    it is there and [fs.rmSync] does not throw. *)
Lemma cleanupWorkspace_spec (w : World) (d : jsstr) (h : Host) :
  cleanupWorkspace w d h =
    (Returned tt,
     if bool_decide (d ∈ dirs h) then
       {| dirs := match w_rm w with
                  | None => without_dir d (dirs h)
                  | Some _ => dirs h
                  end;
          trace := trace h ++ [EExistsSync d; ERmSync d] |}
     else
       {| dirs := dirs h; trace := trace h ++ [EExistsSync d] |}).
Proof.
  unfold cleanupWorkspace, try_catch, bind, fs_existsSync, fs_rmSync, ret, log.
  cbn [dirs trace].
  destruct (bool_decide (d ∈ dirs h)); [| reflexivity].
  destruct (w_rm w); cbn [dirs trace]; now rewrite <- app_assoc.
Qed.

Lemma cleanupWorkspace_removes (w : World) (d : jsstr) (h : Host) :
  w_rm w = None -> d ∉ dirs (snd (cleanupWorkspace w d h)).
Proof.
  intros Hrm. rewrite cleanupWorkspace_spec. cbn [snd].
  destruct (decide (d ∈ dirs h)) as [Hin | Hin].
  - rewrite bool_decide_eq_true_2 by exact Hin. cbn [dirs].
    rewrite Hrm. apply not_elem_of_without_dir.
  - rewrite bool_decide_eq_false_2 by exact Hin. exact Hin.
Qed.

(** The [stdin] the handler passes on, when the request has a string
    or nothing. *)
Lemma handler_stdin_text (req : Request) :
  text_stdin req -> handler_stdin req = VStr (stdin_of req).
Proof.
  unfold text_stdin, handler_stdin, stdin_of.
  intros [Hs | Hu].
  - destruct (req_stdin req); try discriminate Hs. reflexivity.
  - now rewrite Hu.
Qed.

(** The first two tests of the handler let an accepted request
    through. *)
Lemma api_run_accepted (w : World) (req : Request) (src : jsstr) :
  accepted req src ->
  Batch.api_run compileCode executeCode w req =
    try_finally
      (try_catch
         (bind (createWorkspace w (workspace_of w) src (handler_stdin req))
            (fun _ =>
               bind (compileCode w (workspace_of w))
                 (fun compileResult =>
                    if c_error compileResult then
                      ret {| status := 200;
                             stdout := [];
                             stderr := [];
                             compileError := c_stderr compileResult;
                             exitCode := c_exitCode compileResult;
                             timedOut := VBool false |}
                    else
                      bind (executeCode w (workspace_of w))
                        (fun executeResult =>
                           ret {| status := 200;
                                  stdout := e_stdout executeResult;
                                  stderr := e_stderr executeResult;
                                  compileError := [];
                                  exitCode := e_exitCode executeResult;
                                  timedOut := e_timedOut executeResult |}))))
         (fun error =>
            ret {| status := 500;
                   stdout := [];
                   stderr := lit "Internal server error: " ++ err_message error;
                   compileError := [];
                   exitCode := VNum (-1);
                   timedOut := VBool false |}))
      (cleanupWorkspace w (workspace_of w)).
Proof.
  intros (Hcode & Hne & Hlen). unfold Batch.api_run.
  rewrite Hcode. cbn [truthy is_string negb orb].
  rewrite (str_eqb_nil_false _ Hne). cbn [negb].
  destruct (Z.gtb_spec (js_length src) MAX_CODE_LENGTH) as [Hgt | _]; [lia |].
  reflexivity.
Qed.

(** With a text as [stdin] the set-up of the workspace returns or
    throws. *)
Lemma createWorkspace_lives (w : World) (d src text : jsstr) :
  never_dies (createWorkspace w d src (VStr text)).
Proof.
  intros h. unfold createWorkspace, bind, fs_mkdir, fs_writeFile.
  destruct (w_mkdir w); [discriminate |].
  destruct (w_write_main w); [discriminate |].
  destruct (w_write_input w); discriminate.
Qed.

(** Every accepted request whose [stdin] is a string or absent gets a
    response, when the two stages do not end the process, and the
    handler leaves through [cleanupWorkspace]. *)
Lemma api_run_leaves_through_cleanup (w : World) (req : Request)
    (src : jsstr) (h : Host) :
  (forall d, never_dies (compileCode w d)) ->
  (forall d, never_dies (executeCode w d)) ->
  accepted req src -> text_stdin req ->
  exists resp h1,
    Batch.api_run compileCode executeCode w req h =
      (Returned resp, snd (cleanupWorkspace w (workspace_of w) h1)).
Proof.
  intros Hcompile Hexecute Hacc Htext.
  rewrite (api_run_accepted w req src Hacc).
  rewrite (handler_stdin_text req Htext).
  unfold try_finally.
  match goal with
  | |- context [try_catch ?m ?k h] => destruct (try_catch m k h) as [o h1] eqn:Hbody
  end.
  assert (Hret : exists resp, o = Returned resp).
  { unfold try_catch, bind in Hbody.
    pose proof (createWorkspace_lives w (workspace_of w) src (stdin_of req) h)
      as Hsetup.
    destruct (createWorkspace w (workspace_of w) src (VStr (stdin_of req)) h)
      as [[u | e |] h0]; [| | now destruct Hsetup].
    - pose proof (Hcompile (workspace_of w) h0) as Hc.
      destruct (compileCode w (workspace_of w) h0) as [[c | e |] h2];
        [| | now destruct Hc].
      + destruct (c_error c).
        * inversion Hbody; subst. eauto.
        * pose proof (Hexecute (workspace_of w) h2) as Hx.
          destruct (executeCode w (workspace_of w) h2) as [[x | e |] h3];
            [| | now destruct Hx].
          -- inversion Hbody; subst. eauto.
          -- unfold ret in Hbody. inversion Hbody; subst. eauto.
      + unfold ret in Hbody. inversion Hbody; subst. eauto.
    - unfold ret in Hbody. inversion Hbody; subst. eauto. }
  destruct Hret as [resp ->]. exists resp, h1.
  rewrite cleanupWorkspace_spec. reflexivity.
Qed.

Variable compiled : World -> CompileResult.
Variable compile_effect : jsstr -> Effect.
Variable executed : World -> ExecuteResult.
Variable execute_effect : jsstr -> Effect.

Hypothesis compileCode_runs : forall w d h,
  compileCode w d h = (Returned (compiled w), log (compile_effect d) h).
Hypothesis executeCode_runs : forall w d h,
  executeCode w d h = (Returned (executed w), log (execute_effect d) h).

(** The whole run of the handler on an accepted request whose [stdin]
    is a string or absent and whose workspace could be set up. *)
Lemma api_run_ready (w : World) (req : Request) (src : jsstr) (h : Host) :
  accepted req src -> text_stdin req -> workspace_ready w ->
  let d := workspace_of w in
  let c := compiled w in
  let x := executed w in
  Batch.api_run compileCode executeCode w req h =
    (Returned
       (if c_error c then
          {| status := 200; stdout := []; stderr := [];
             compileError := c_stderr c; exitCode := c_exitCode c;
             timedOut := VBool false |}
        else
          {| status := 200; stdout := e_stdout x; stderr := e_stderr x;
             compileError := []; exitCode := e_exitCode x;
             timedOut := e_timedOut x |}),
     {| dirs := match w_rm w with
                | None => without_dir d (with_dir d (dirs h))
                | Some _ => with_dir d (dirs h)
                end;
        trace := trace h ++ setup_effects d src (stdin_of req)
                   ++ [compile_effect d]
                   ++ (if c_error c then [] else [execute_effect d])
                   ++ [EExistsSync d; ERmSync d] |}).
Proof.
  intros Hacc Htext (Hmk & Hmain & Hin) d c x.
  rewrite (api_run_accepted w req src Hacc).
  rewrite (handler_stdin_text req Htext).
  unfold createWorkspace, try_finally, try_catch, bind, fs_mkdir,
    fs_writeFile. rewrite Hmk, Hmain, Hin. cbv beta iota.
  rewrite compileCode_runs. cbv beta iota. fold d c.
  destruct (c_error c).
  - unfold ret. rewrite cleanupWorkspace_spec. cbn [dirs trace log].
    rewrite bool_decide_eq_true_2 by apply elem_of_with_dir_self.
    f_equal. f_equal. unfold setup_effects. cbn [app].
    now rewrite <- !app_assoc.
  - rewrite executeCode_runs. cbv beta iota. fold x. unfold ret.
    rewrite cleanupWorkspace_spec. cbn [dirs trace log].
    rewrite bool_decide_eq_true_2 by apply elem_of_with_dir_self.
    f_equal. f_equal. unfold setup_effects. cbn [app].
    now rewrite <- !app_assoc.
Qed.

End RouteFacts.

(* ===================================================================== *)
(** ** The two snapshots as instances                                     *)
(* ===================================================================== *)

Section Instances.

Lemma markers_compileCode_runs (w : World) (d : jsstr) (h : Host) :
  IndexMarkers.compileCode w d h =
    (Returned (IndexMarkers.compile_result (w_compile w)),
     log (EExec (IndexMarkers.compileCmd d) 10000) h).
Proof. reflexivity. Qed.

Lemma markers_executeCode_runs (w : World) (d : jsstr) (h : Host) :
  IndexMarkers.executeCode w d h =
    (Returned (IndexMarkers.parse_execution (w_run w)),
     log (EExec (IndexMarkers.executeCmd d) 15000) h).
Proof. reflexivity. Qed.

Lemma execfile_compileCode_runs (w : World) (d : jsstr) (h : Host) :
  IndexExecFile.compileCode w d h =
    (Returned (IndexExecFile.compile_result (w_compile w)),
     log (EExecFile (lit "docker") (tl (IndexExecFile.compile_cmd d)) 10000) h).
Proof. reflexivity. Qed.

Lemma execfile_executeCode_runs (w : World) (d : jsstr) (h : Host) :
  IndexExecFile.executeCode w d h =
    (Returned (IndexExecFile.execution_result (w_run w)),
     log (EExecFile (lit "docker") (tl (IndexExecFile.execute_cmd d)) 3000) h).
Proof. reflexivity. Qed.

(** The compile and the run command of a workspace differ. *)
Lemma compileCmd_not_executeCmd (d : jsstr) :
  IndexMarkers.compileCmd d <> IndexMarkers.executeCmd d.
Proof.
  unfold IndexMarkers.compileCmd, IndexMarkers.executeCmd. intros H.
  repeat (apply app_inv_head in H). vm_compute in H. discriminate.
Qed.

Lemma effects_since_app (h : Host) (added : list Effect) (ds : gset jsstr) :
  effects_since h {| dirs := ds; trace := trace h ++ added |} = added.
Proof.
  unfold effects_since. cbn [trace].
  now rewrite skipn_app, skipn_all, Nat.sub_diag.
Qed.

End Instances.

Section GatewayFacts.

Variable compileCode : World -> jsstr -> M CompileResult.
Variable executeCode : World -> jsstr -> M ExecuteResult.

(** The first test of the handler. *)
Lemma api_run_invalid (w : World) (req : Request) (h : Host) :
  is_string (req_code req) = false \/ req_code req = VStr [] ->
  Batch.api_run compileCode executeCode w req h =
    (Returned invalid_code_response, h).
Proof.
  intros Hbad. unfold Batch.api_run.
  destruct Hbad as [Hns | ->].
  - rewrite Hns. cbn [negb]. now rewrite orb_true_r.
  - reflexivity.
Qed.

(** Every request is accepted, invalid or too long. *)
Lemma request_cases (req : Request) :
  (exists src, accepted req src) \/
  (is_string (req_code req) = false \/ req_code req = VStr []) \/
  (exists src, req_code req = VStr src /\
               (js_length src > MAX_CODE_LENGTH)%Z).
Proof.
  destruct (req_code req) as [| | b | z | | s | | neg] eqn:Hc;
    try (right; left; left; reflexivity).
  destruct s as [| c s]; [right; left; now right |].
  destruct (Z_le_gt_dec (js_length (c :: s)) MAX_CODE_LENGTH) as [Hle | Hgt].
  - left. exists (c :: s). split; [exact Hc |]. split; [discriminate | exact Hle].
  - right. right. now exists (c :: s).
Qed.

Lemma api_run_too_long (w : World) (req : Request) (src : jsstr) (h : Host) :
  req_code req = VStr src -> (js_length src > MAX_CODE_LENGTH)%Z ->
  Batch.api_run compileCode executeCode w req h =
    (Returned {| status := 400;
                 stdout := [];
                 stderr := lit "Code too large (max 1MB)";
                 compileError := [];
                 exitCode := VNum (-1);
                 timedOut := VBool false |}, h).
Proof.
  intros Hc Hlong. unfold Batch.api_run. rewrite Hc.
  assert (Hne : src <> []).
  { intros ->. unfold js_length, MAX_CODE_LENGTH in Hlong. simpl in Hlong. lia. }
  cbn [truthy is_string negb orb].
  rewrite (str_eqb_nil_false _ Hne). cbn [negb].
  destruct (Z.gtb_spec (js_length src) MAX_CODE_LENGTH) as [_ | Hle]; [| lia].
  reflexivity.
Qed.

End GatewayFacts.

Section ResponseFacts.

Variable compileCode : World -> jsstr -> M CompileResult.
Variable executeCode : World -> jsstr -> M ExecuteResult.
Variable compiled : World -> CompileResult.
Variable compile_effect : jsstr -> Effect.
Variable executed : World -> ExecuteResult.
Variable execute_effect : jsstr -> Effect.

Hypothesis compileCode_runs : forall w d h,
  compileCode w d h = (Returned (compiled w), log (compile_effect d) h).
Hypothesis executeCode_runs : forall w d h,
  executeCode w d h = (Returned (executed w), log (execute_effect d) h).

Lemma stages_never_die (w : World) :
  (forall d, never_dies (compileCode w d)) /\
  (forall d, never_dies (executeCode w d)).
Proof.
  split; intros d h.
  - now rewrite compileCode_runs.
  - now rewrite executeCode_runs.
Qed.

(** The responses of the handler: an error response of its own, the
    response to a failed build, or the response to an execution. *)
Lemma api_run_responses (w : World) (req : Request) (h h' : Host)
    (resp : Response) :
  Batch.api_run compileCode executeCode w req h = (Returned resp, h') ->
  (compileError resp = [] /\ exitCode resp = VNum (-1) /\
   timedOut resp = VBool false) \/
  (c_error (compiled w) = true /\
   resp = {| status := 200; stdout := []; stderr := [];
             compileError := c_stderr (compiled w);
             exitCode := c_exitCode (compiled w);
             timedOut := VBool false |}) \/
  (c_error (compiled w) = false /\
   resp = {| status := 200;
             stdout := e_stdout (executed w);
             stderr := e_stderr (executed w);
             compileError := [];
             exitCode := e_exitCode (executed w);
             timedOut := e_timedOut (executed w) |}).
Proof.
  destruct (request_cases req) as [[src Hacc] | [Hbad | (src & Hc & Hlong)]].
  - rewrite (api_run_accepted _ _ w req src Hacc).
    unfold createWorkspace, try_finally, try_catch, bind, fs_mkdir,
      fs_writeFile, die, ret.
    destruct (w_mkdir w).
    { rewrite cleanupWorkspace_spec. intros H. inversion H; subst.
      left. now repeat split. }
    destruct (w_write_main w).
    { rewrite cleanupWorkspace_spec. intros H. inversion H; subst.
      left. now repeat split. }
    destruct (handler_stdin req); try discriminate.
    destruct (w_write_input w).
    { rewrite cleanupWorkspace_spec. intros H. inversion H; subst.
      left. now repeat split. }
    rewrite compileCode_runs. cbv beta iota.
    destruct (c_error (compiled w)) eqn:Hfailed.
    + rewrite cleanupWorkspace_spec. intros H. inversion H; subst.
      right. left. now split.
    + rewrite executeCode_runs. cbv beta iota.
      rewrite cleanupWorkspace_spec. intros H. inversion H; subst.
      right. right. now split.
  - rewrite (api_run_invalid _ _ w req h Hbad). intros H.
    inversion H; subst. left. now repeat split.
  - rewrite (api_run_too_long _ _ w req src h Hc Hlong). intros H.
    inversion H; subst. left. now repeat split.
Qed.

End ResponseFacts.

Section PopulatedFacts.

Lemma js_or_populated (a b : JsVal) : populated b -> populated (js_or a b).
Proof.
  unfold js_or, populated. intros Hb.
  destruct a; cbn [truthy]; try exact Hb; try discriminate.
  - now destruct b0.
  - now destruct (negb (z =? 0)%Z).
  - now destruct (negb (str_eqb s [])).
Qed.

Lemma number_populated (z : Z) : populated (number z).
Proof.
  unfold number, populated.
  destruct (Z.abs z <=? 2 ^ 53)%Z; [discriminate |].
  destruct (2 ^ 1024 <=? round_double (Z.abs z))%Z; discriminate.
Qed.

Lemma parseInt_populated (v : JsVal) : populated (parseInt v).
Proof.
  unfold parseInt. destruct v; try discriminate.
  repeat match goal with
         | |- populated (let '(_, _) := ?x in _) => destruct x
         end.
  destruct (read_digits _ _ _); [apply number_populated | discriminate].
Qed.

(** Both stages of both snapshots resolve with an exit code, and the
    Execution Stage with a [timedOut]. *)
Lemma markers_compile_populated (cb : ExecCallback) :
  populated (c_exitCode (IndexMarkers.compile_result cb)).
Proof.
  unfold IndexMarkers.compile_result.
  destruct (cb_error cb); cbn [c_exitCode];
    [apply js_or_populated |]; discriminate.
Qed.

Lemma execfile_compile_populated (cb : ExecCallback) :
  populated (c_exitCode (IndexExecFile.compile_result cb)).
Proof.
  unfold IndexExecFile.compile_result. cbn [c_exitCode].
  apply js_or_populated. discriminate.
Qed.

Lemma markers_execution_populated (cb : ExecCallback) :
  populated (e_exitCode (IndexMarkers.parse_execution cb)) /\
  populated (e_timedOut (IndexMarkers.parse_execution cb)).
Proof.
  unfold IndexMarkers.parse_execution. cbv zeta.
  cbn [e_exitCode e_timedOut]. split; [| discriminate].
  match goal with
  | |- populated (if ?t then _ else _) => destruct t
  end; [discriminate |].
  match goal with
  | |- populated (if ?t then _ else _) => destruct t
  end; [apply parseInt_populated |].
  destruct (cb_error cb); [apply js_or_populated |]; discriminate.
Qed.

Lemma execfile_execution_populated (cb : ExecCallback) :
  populated (e_exitCode (IndexExecFile.execution_result cb)) /\
  populated (e_timedOut (IndexExecFile.execution_result cb)).
Proof.
  unfold IndexExecFile.execution_result. cbv zeta.
  cbn [e_exitCode e_timedOut].
  split; apply js_or_populated; discriminate.
Qed.

(** A response with the fields of a stage that are populated has
    exactly one of the two shapes. *)
Lemma one_shape (resp : Response) :
  (compileError resp <> [] -> stdout resp = [] /\ stderr resp = []) ->
  populated (exitCode resp) -> populated (timedOut resp) ->
  (compile_error_shape resp /\ ~ execution_shape resp) \/
  (~ compile_error_shape resp /\ execution_shape resp).
Proof.
  intros Hstreams Hcode Hflag.
  unfold compile_error_shape, execution_shape.
  destruct (decide (compileError resp = [])) as [Hempty | Hfull].
  - right. split; [| now repeat split]. intros (Hne & _). now apply Hne.
  - left. split; [| tauto]. destruct (Hstreams Hfull). now repeat split.
Qed.

End PopulatedFacts.

(* ===================================================================== *)
(** ** The Gateway                                                        *)
(* ===================================================================== *)

(** C2.  A request whose source has more than 1024 * 1024 code units is
    answered with the 400 error "Code too large (max 1MB)" and the host
    is left exactly as it was: no directory is made and no effect at all
    (no [EMkdir]) is added to the trace. *)
Theorem oversized_source_rejected_before_allocation
    (w : World) (source : jsstr) (stdin : JsVal) (h : Host) :
  (js_length source > MAX_CODE_LENGTH)%Z ->
  IndexMarkers.api_run w {| req_code := VStr source; req_stdin := stdin |} h =
    (Returned {| status := 400;
                 stdout := [];
                 stderr := lit "Code too large (max 1MB)";
                 compileError := [];
                 exitCode := VNum (-1);
                 timedOut := VBool false |},
     h).
Proof.
  intros Hlong.
  unfold IndexMarkers.api_run, Batch.api_run. cbn [req_code req_stdin].
  assert (Hne : source <> []).
  { intros ->. unfold js_length, MAX_CODE_LENGTH in Hlong. simpl in Hlong. lia. }
  cbn [truthy is_string negb orb].
  rewrite (str_eqb_nil_false _ Hne). cbn [negb].
  destruct (Z.gtb_spec (js_length source) MAX_CODE_LENGTH) as [_ | Hle]; [| lia].
  reflexivity.
Qed.

(** An instance: a source of 1024 * 1024 + 1 spaces. *)
Lemma oversized_source_rejected_witness :
  IndexMarkers.api_run
    (Examples.world Examples.compiled_ok Examples.compiled_ok None)
    {| req_code := VStr Examples.oversized_source; req_stdin := VUndefined |}
    Examples.empty_host =
    (Returned {| status := 400;
                 stdout := [];
                 stderr := lit "Code too large (max 1MB)";
                 compileError := [];
                 exitCode := VNum (-1);
                 timedOut := VBool false |},
     Examples.empty_host).
Proof.
  apply (oversized_source_rejected_before_allocation
           (Examples.world Examples.compiled_ok Examples.compiled_ok None)
           Examples.oversized_source VUndefined Examples.empty_host).
  vm_compute. reflexivity.
Defined.

(* ===================================================================== *)
(** ** The Build Stage and the short circuit                              *)
(* ===================================================================== *)

(** C3.  When the compiler exits with a status other than 0 on a request
    that reached the Build Stage, [compileCode] reports the failure with
    the diagnostic stream as captured, the response carries that stream
    as [compileError], and the effects of the request are the set-up of
    the workspace, the compile command and the clean-up: the run command
    is never executed. *)
Theorem compile_failure_short_circuits
    (w : World) (req : Request) (src : jsstr) (h : Host) (st : N) :
  accepted req src ->
  text_stdin req ->
  workspace_ready w ->
  st <> 0 ->
  cb_error (w_compile w) = callback_error (Exited st) ->
  let d := workspace_of w in
  let diagnostics := cb_stderr (w_compile w) in
  exists h',
    IndexMarkers.compile_result (w_compile w) =
      {| c_error := true;
         c_stdout := cb_stdout (w_compile w);
         c_stderr := diagnostics;
         c_exitCode := VNum (Z.of_N st) |} /\
    IndexMarkers.api_run w req h =
      (Returned {| status := 200;
                   stdout := [];
                   stderr := [];
                   compileError := diagnostics;
                   exitCode := VNum (Z.of_N st);
                   timedOut := VBool false |}, h') /\
    effects_since h h' =
      setup_effects d src (stdin_of req)
        ++ [EExec (IndexMarkers.compileCmd d) 10000;
            EExistsSync d; ERmSync d] /\
    ran_command (IndexMarkers.executeCmd d) (effects_since h h') = false.
Proof.
  intros Hacc Htext Hready Hst Herr d diagnostics.
  assert (Hres : IndexMarkers.compile_result (w_compile w) =
                 {| c_error := true;
                    c_stdout := cb_stdout (w_compile w);
                    c_stderr := diagnostics;
                    c_exitCode := VNum (Z.of_N st) |}).
  { unfold IndexMarkers.compile_result. rewrite Herr.
    destruct st as [| p]; [contradiction |].
    cbn [callback_error err_code]. unfold js_or. cbn [truthy].
    reflexivity. }
  pose proof (api_run_ready _ _ _ _ _ _
                markers_compileCode_runs markers_executeCode_runs
                w req src h Hacc Htext Hready) as Hrun.
  cbv beta zeta in Hrun. rewrite Hres in Hrun.
  cbn [c_error c_stderr c_exitCode] in Hrun. fold d in Hrun.
  eexists. split; [exact Hres |]. split; [exact Hrun |].
  rewrite effects_since_app. split.
  - unfold setup_effects. reflexivity.
  - unfold setup_effects, ran_command. cbn [app existsb orb].
    unfold str_eqb. rewrite orb_false_r.
    apply bool_decide_eq_false_2, compileCmd_not_executeCmd.
Qed.

(** An instance: the compiler exits with status 1 and one diagnostic. *)
Lemma compile_failure_short_circuits_witness :
  let w := Examples.world Examples.compiled_with_error Examples.compiled_ok None in
  let d := workspace_of w in
  exists h',
    IndexMarkers.compile_result (w_compile w) =
      {| c_error := true;
         c_stdout := [];
         c_stderr := cb_stderr Examples.compiled_with_error;
         c_exitCode := VNum 1 |} /\
    IndexMarkers.api_run w Examples.request Examples.empty_host =
      (Returned {| status := 200;
                   stdout := [];
                   stderr := [];
                   compileError := cb_stderr Examples.compiled_with_error;
                   exitCode := VNum 1;
                   timedOut := VBool false |}, h') /\
    effects_since Examples.empty_host h' =
      setup_effects d Examples.main_c []
        ++ [EExec (IndexMarkers.compileCmd d) 10000;
            EExistsSync d; ERmSync d] /\
    ran_command (IndexMarkers.executeCmd d)
      (effects_since Examples.empty_host h') = false.
Proof.
  intros w d.
  apply (compile_failure_short_circuits w Examples.request Examples.main_c
           Examples.empty_host 1).
  - repeat split; [discriminate | vm_compute; congruence].
  - now right.
  - repeat split.
  - discriminate.
  - reflexivity.
Defined.

(* ===================================================================== *)
(** ** Clean-up                                                           *)
(* ===================================================================== *)

(** C6, as the claim states it, fails: when the removal itself throws
    (here with EACCES, on a run that otherwise succeeds) the exception
    is swallowed by [cleanupWorkspace], the response is the normal one
    and the workspace directory is still there. *)
Lemma workspace_survives_failed_removal :
  let w := Examples.world Examples.compiled_ok Examples.compiled_ok
             (Some Examples.EACCES) in
  exists resp h',
    IndexMarkers.api_run w Examples.request Examples.empty_host
      = (Returned resp, h') /\
    status resp = 200 /\
    workspace_of w ∈ dirs h'.
Proof.
  intros w.
  pose proof (api_run_ready _ _ _ _ _ _
                markers_compileCode_runs markers_executeCode_runs
                w Examples.request Examples.main_c Examples.empty_host) as Hrun.
  cbv beta zeta in Hrun.
  do 2 eexists. split.
  - apply Hrun.
    + repeat split; [discriminate | vm_compute; congruence].
    + now right.
    + repeat split.
  - split; [reflexivity |].
    cbn [dirs w_rm w Examples.world].
    apply elem_of_with_dir_self.
Qed.

(** C6, amended.  Every request the Gateway lets through and whose
    [stdin] is a string or absent gets a response, whatever happens
    while the workspace is set up, the source compiled and the program
    run; the handler leaves through [cleanupWorkspace], and when
    [fs.rmSync] does not throw the workspace directory does not exist
    afterwards. *)
Theorem workspace_removed_on_every_exit_path
    (w : World) (req : Request) (src : jsstr) (h : Host) :
  accepted req src ->
  text_stdin req ->
  exists resp h1,
    IndexMarkers.api_run w req h =
      (Returned resp, snd (cleanupWorkspace w (workspace_of w) h1)) /\
    (w_rm w = None ->
     workspace_of w ∉ dirs (snd (IndexMarkers.api_run w req h))).
Proof.
  intros Hacc Htext.
  destruct (stages_never_die _ _ _ _ _ _
              markers_compileCode_runs markers_executeCode_runs w)
    as [Hcompile Hexecute].
  destruct (api_run_leaves_through_cleanup
              IndexMarkers.compileCode IndexMarkers.executeCode
              w req src h Hcompile Hexecute Hacc Htext)
    as (resp & h1 & Hrun).
  exists resp, h1. split; [exact Hrun |].
  intros Hrm. unfold IndexMarkers.api_run. rewrite Hrun. cbn [snd].
  now apply cleanupWorkspace_removes.
Qed.

(** An instance: a request whose build fails, in a world where the
    removal succeeds. *)
Lemma workspace_removed_witness :
  let w := Examples.world Examples.compiled_with_error Examples.compiled_ok None in
  exists resp h1,
    IndexMarkers.api_run w Examples.request Examples.empty_host =
      (Returned resp, snd (cleanupWorkspace w (workspace_of w) h1)) /\
    workspace_of w ∉
      dirs (snd (IndexMarkers.api_run w Examples.request Examples.empty_host)).
Proof.
  intros w.
  destruct (workspace_removed_on_every_exit_path w Examples.request
              Examples.main_c Examples.empty_host) as (resp & h1 & Hrun & Hgone).
  - repeat split; [discriminate | vm_compute; congruence].
  - now right.
  - exists resp, h1. split; [exact Hrun | apply Hgone; reflexivity].
Defined.

(* ===================================================================== *)
(** ** The shape of the response                                          *)
(* ===================================================================== *)

(** C1.  Every response of the batch endpoint, in both snapshots, has
    exactly one of the two shapes: [compileError] is not empty and
    [stdout] and [stderr] are both empty; or [compileError] is empty and
    the other fields are populated.  The request and what happens while
    it is served are arbitrary. *)
Theorem response_has_exactly_one_shape
    (w : World) (req : Request) (h h' : Host) (resp : Response) :
  IndexMarkers.api_run w req h = (Returned resp, h') \/
  IndexExecFile.api_run w req h = (Returned resp, h') ->
  (compile_error_shape resp /\ ~ execution_shape resp) \/
  (~ compile_error_shape resp /\ execution_shape resp).
Proof.
  intros [Hrun | Hrun].
  - destruct (api_run_responses _ _ _ _ _ _
                markers_compileCode_runs markers_executeCode_runs
                w req h h' resp Hrun)
      as [(Hce & Hcode & Hflag) | [(_ & ->) | (_ & ->)]].
    + apply one_shape; [now rewrite Hce | now rewrite Hcode | now rewrite Hflag].
    + apply one_shape; cbn [compileError stdout stderr exitCode timedOut];
        [tauto | apply markers_compile_populated | discriminate].
    + apply one_shape; cbn [compileError stdout stderr exitCode timedOut];
        [tauto | apply markers_execution_populated ..].
  - destruct (api_run_responses _ _ _ _ _ _
                execfile_compileCode_runs execfile_executeCode_runs
                w req h h' resp Hrun)
      as [(Hce & Hcode & Hflag) | [(_ & ->) | (_ & ->)]].
    + apply one_shape; [now rewrite Hce | now rewrite Hcode | now rewrite Hflag].
    + apply one_shape; cbn [compileError stdout stderr exitCode timedOut];
        [tauto | apply execfile_compile_populated | discriminate].
    + apply one_shape; cbn [compileError stdout stderr exitCode timedOut];
        [tauto | apply execfile_execution_populated ..].
Qed.

(** An instance: the response to a build that failed with a
    diagnostic has the first shape. *)
Lemma response_has_exactly_one_shape_witness :
  let resp := {| status := 200; stdout := []; stderr := [];
                 compileError := cb_stderr Examples.compiled_with_error;
                 exitCode := VNum 1; timedOut := VBool false |} in
  (compile_error_shape resp /\ ~ execution_shape resp) \/
  (~ compile_error_shape resp /\ execution_shape resp).
Proof.
  intros resp.
  pose (w := Examples.world Examples.compiled_with_error
               Examples.compiled_ok None).
  apply (response_has_exactly_one_shape w Examples.request
           Examples.empty_host
           (snd (IndexMarkers.api_run w Examples.request Examples.empty_host))
           resp).
  left.
  pose proof (api_run_ready _ _ _ _ _ _
                markers_compileCode_runs markers_executeCode_runs
                w Examples.request Examples.main_c Examples.empty_host) as Hrun.
  cbv beta zeta in Hrun. unfold IndexMarkers.api_run. rewrite Hrun.
  - reflexivity.
  - repeat split; [discriminate | vm_compute; congruence].
  - now right.
  - repeat split.
Defined.




(** C5, as the claim states it, fails in the marker snapshot: a program
    that writes a backslash, [n] and [EXIT_CODE:0] on its standard error
    and then dereferences a null pointer is reported with exit code 0. *)
Lemma crash_reported_as_clean_exit :
  let w := Examples.world Examples.compiled_ok
             (IndexMarkers.container_callback
                Examples.crash_with_forged_exit_line) None in
  exists h',
    IndexMarkers.api_run w Examples.request Examples.empty_host =
      (Returned {| status := 200; stdout := []; stderr := [];
                   compileError := []; exitCode := VNum 0;
                   timedOut := VBool false |}, h').
Proof.
  intros w.
  pose proof (api_run_ready _ _ _ _ _ _
                markers_compileCode_runs markers_executeCode_runs
                w Examples.request Examples.main_c Examples.empty_host) as Hrun.
  cbv beta zeta in Hrun.
  eexists. unfold IndexMarkers.api_run. rewrite Hrun.
  - apply (f_equal2 pair); [vm_compute; reflexivity | reflexivity].
  - repeat split; [discriminate | vm_compute; congruence].
  - now right.
  - repeat split.
Qed.

(** C5, amended.  When the build succeeded and the program ends by
    itself with a status other than 0, the response has that status as
    [exitCode], [timedOut] false and an empty [compileError]: in the
    [execFile] snapshot when neither stream of the program is longer
    than the buffer of [execFile]; in the marker snapshot when the
    status is at most 255 and not 124 and the program printed no
    backslash followed by [n]. *)
Theorem crash_status_passes_through
    (w : World) (req : Request) (src : jsstr) (h : Host)
    (r : ProgramRun) (k : IndexExecFile.Overflow) (st : N) :
  accepted req src ->
  text_stdin req ->
  workspace_ready w ->
  cb_error (w_compile w) = None ->
  program_end r = Ended st ->
  st <> 0 ->
  (IndexExecFile.fits_buffer r = true ->
   exists resp h',
     IndexExecFile.api_run
       (with_run w (IndexExecFile.container_callback r k)) req h
       = (Returned resp, h') /\
     exitCode resp = VNum (Z.of_N st) /\
     timedOut resp = VBool false /\
     compileError resp = [])
  /\
  (st <= 255 -> st <> 124 ->
   separator_free (program_out r) -> separator_free (program_err r) ->
   exists resp h',
     IndexMarkers.api_run
       (with_run w (IndexMarkers.container_callback r)) req h
       = (Returned resp, h') /\
     exitCode resp = VNum (Z.of_N st) /\
     timedOut resp = VBool false /\
     compileError resp = []).
Proof.
  intros Hacc Htext Hready Hbuild Hend Hst. split.
  - intros Hfits.
    pose proof (api_run_ready _ _ _ _ _ _
                  execfile_compileCode_runs execfile_executeCode_runs
                  (with_run w (IndexExecFile.container_callback r k))
                  req src h Hacc Htext Hready) as Hrun.
    cbv beta zeta in Hrun.
    do 2 eexists. split; [exact Hrun |].
    unfold IndexExecFile.compile_result. cbn [with_run w_compile w_run].
    rewrite Hbuild. cbn [c_error exitCode timedOut compileError].
    unfold IndexExecFile.execution_result, IndexExecFile.container_callback.
    rewrite Hend, Hfits. cbn [cb_error e_exitCode e_timedOut].
    destruct st as [| p]; [contradiction |].
    repeat split.
  - intros Hbyte Hnot Hout Herr.
    pose proof (api_run_ready _ _ _ _ _ _
                  markers_compileCode_runs markers_executeCode_runs
                  (with_run w (IndexMarkers.container_callback r))
                  req src h Hacc Htext Hready) as Hrun.
    cbv beta zeta in Hrun.
    do 2 eexists. split; [exact Hrun |].
    unfold IndexMarkers.compile_result. cbn [with_run w_compile w_run].
    rewrite Hbuild. cbn [c_error exitCode timedOut compileError].
    rewrite (parse_execution_container r Hout Herr). rewrite Hend.
    cbn [IndexMarkers.timeout_status e_exitCode e_timedOut].
    destruct (N.eqb_spec st 124) as [He | _]; [contradiction |].
    rewrite number_small by (change (2 ^ 53)%Z with 9007199254740992%Z; lia).
    repeat split.
Qed.

(** An instance: the null dereference of the README, status 139. *)
Lemma crash_status_passes_through_witness :
  let w := Examples.world Examples.compiled_ok Examples.compiled_ok None in
  let r := Examples.null_dereference in
  (exists resp h',
     IndexExecFile.api_run
       (with_run w (IndexExecFile.container_callback r Examples.nothing_kept))
       Examples.request Examples.empty_host
       = (Returned resp, h') /\
     exitCode resp = VNum 139 /\
     timedOut resp = VBool false /\
     compileError resp = [])
  /\
  (exists resp h',
     IndexMarkers.api_run
       (with_run w (IndexMarkers.container_callback r))
       Examples.request Examples.empty_host
       = (Returned resp, h') /\
     exitCode resp = VNum 139 /\
     timedOut resp = VBool false /\
     compileError resp = []).
Proof.
  intros w r.
  destruct (crash_status_passes_through w Examples.request Examples.main_c
              Examples.empty_host r Examples.nothing_kept 139)
    as [Hexecfile Hmarkers].
  - repeat split; [discriminate | vm_compute; congruence].
  - now right.
  - repeat split.
  - reflexivity.
  - reflexivity.
  - discriminate.
  - split; [apply Hexecfile; reflexivity |].
    apply Hmarkers; [vm_compute; discriminate | discriminate
                    | reflexivity | reflexivity].
Defined.

(** C8, as the claim states it, fails in the marker snapshot, which
    recovers both streams from one blob.  A program that writes the
    marker lines on its standard output (separated by backslash and
    [n]) gets the text after its own [---STDERR---] reported as
    standard error and the text between its own markers as standard
    output; a second program with the same standard error gets another
    standard error reported. *)
Lemma marker_text_corrupts_streams :
  program_err Examples.prints_markers = program_err Examples.prints_nothing /\
  IndexMarkers.parse_execution
    (IndexMarkers.container_callback Examples.prints_markers) =
    {| e_stdout := lit "fake";
       e_stderr := lit "forged---STDERR---" ++ [LF] ++ lit "real";
       e_exitCode := VNum 0;
       e_timedOut := VBool false |} /\
  e_stderr (IndexMarkers.parse_execution
              (IndexMarkers.container_callback Examples.prints_markers)) <>
  e_stderr (IndexMarkers.parse_execution
              (IndexMarkers.container_callback Examples.prints_nothing)).
Proof.
  split; [reflexivity |]. split; [vm_compute; reflexivity |].
  vm_compute. discriminate.
Qed.

(** C8, amended.  In the [execFile] snapshot, for a run neither stream
    of which is longer than the buffer of [execFile], the reported
    standard output is the standard output of the program, trimmed, and
    the reported standard error its standard error, trimmed: each
    is a function of its own stream, whatever the other stream holds
    and however the program ended. *)
Theorem streams_reported_separately
    (w : World) (req : Request) (src : jsstr) (h : Host)
    (r : ProgramRun) (k : IndexExecFile.Overflow) :
  accepted req src ->
  text_stdin req ->
  workspace_ready w ->
  cb_error (w_compile w) = None ->
  IndexExecFile.fits_buffer r = true ->
  let reported :=
    IndexExecFile.execution_result (IndexExecFile.container_callback r k) in
  e_stdout reported = trim (program_out r) /\
  e_stderr reported = trim (program_err r) /\
  exists resp h',
    IndexExecFile.api_run
      (with_run w (IndexExecFile.container_callback r k)) req h
      = (Returned resp, h') /\
    stdout resp = trim (program_out r) /\
    stderr resp = trim (program_err r).
Proof.
  intros Hacc Htext Hready Hbuild Hfits reported.
  assert (Hstreams : e_stdout reported = trim (program_out r) /\
                     e_stderr reported = trim (program_err r)).
  { unfold reported, IndexExecFile.execution_result,
      IndexExecFile.container_callback.
    rewrite Hfits. destruct (program_end r); now split. }
  destruct Hstreams as [Hout Herr].
  split; [exact Hout |]. split; [exact Herr |].
  pose proof (api_run_ready _ _ _ _ _ _
                execfile_compileCode_runs execfile_executeCode_runs
                (with_run w (IndexExecFile.container_callback r k))
                req src h Hacc Htext Hready) as Hrun.
  cbv beta zeta in Hrun.
  do 2 eexists. split; [exact Hrun |].
  unfold IndexExecFile.compile_result. cbn [with_run w_compile w_run].
  rewrite Hbuild. cbn [c_error stdout stderr].
  now split.
Qed.

(** An instance: the program that prints the marker lines. *)
Lemma streams_reported_separately_witness :
  let w := Examples.world Examples.compiled_ok Examples.compiled_ok None in
  let r := Examples.prints_markers in
  let reported :=
    IndexExecFile.execution_result
      (IndexExecFile.container_callback r Examples.nothing_kept) in
  e_stdout reported = trim (program_out r) /\
  e_stderr reported = trim (program_err r) /\
  exists resp h',
    IndexExecFile.api_run
      (with_run w (IndexExecFile.container_callback r Examples.nothing_kept))
      Examples.request Examples.empty_host
      = (Returned resp, h') /\
    stdout resp = trim (program_out r) /\
    stderr resp = trim (program_err r).
Proof.
  intros w r.
  apply (streams_reported_separately w Examples.request Examples.main_c
           Examples.empty_host r Examples.nothing_kept).
  - repeat split; [discriminate | vm_compute; congruence].
  - now right.
  - repeat split.
  - reflexivity.
  - reflexivity.
Defined.

(* ===================================================================== *)
(** ** Resource caps                                                      *)
(* ===================================================================== *)

Section CommandLines.

(** Between double quotes a path without a double quote goes to the
    current word as it is. *)
Lemma words_go_quoted (d rest cur : jsstr) :
  quotable d ->
  words_go InDouble true cur (d ++ rest) =
    words_go InDouble true (rev d ++ cur) rest.
Proof.
  intros Hd. revert cur. induction Hd as [| c d Hc _ IH]; intros cur.
  - reflexivity.
  - cbn [app words_go].
    destruct (N.eqb_spec c 34) as [-> | _]; [discriminate Hc |].
    rewrite IH. cbn [rev]. now rewrite <- app_assoc.
Qed.

Lemma path_char_plain (c : N) :
  path_char c = true ->
  is_blank c = false /\ (c =? 34) = false /\ (c =? 39) = false.
Proof.
  unfold path_char, is_blank. intros Hc.
  assert (Hcases : 45 <= c).
  { repeat (apply orb_true_iff in Hc as [Hc | Hc]);
      try (apply andb_true_iff in Hc as [Hlo _]; apply N.leb_le in Hlo);
      try (apply N.eqb_eq in Hc); lia. }
  repeat split.
  - destruct (N.eqb_spec c 32); [lia |].
    destruct (N.eqb_spec c 9); [lia |].
    destruct (N.eqb_spec c 10); [lia | reflexivity].
  - apply N.eqb_neq. lia.
  - apply N.eqb_neq. lia.
Qed.

(** Outside quotes a path of plain characters, followed by a colon,
    goes to the current word as it is. *)
Lemma words_go_unquoted (d rest cur : jsstr) (started : bool) :
  unquoted_safe d ->
  words_go Bare started cur (d ++ 58 :: rest) =
    words_go Bare true (58 :: rev d ++ cur) rest.
Proof.
  intros Hd. revert cur started.
  induction Hd as [| c d Hc _ IH]; intros cur started.
  - reflexivity.
  - cbn [app words_go].
    destruct (path_char_plain c Hc) as (-> & -> & ->).
    rewrite IH. cbn [rev]. now rewrite <- app_assoc.
Qed.

(** The words of a command line up to the value of [-v], between
    double quotes or without quotes. *)
Lemma words_until_quoted_volume (rest : jsstr) :
  words (lit "docker run --rm -v " ++ 34 :: rest) =
    [lit "docker"; lit "run"; lit "--rm"; lit "-v"]
      ++ words_go InDouble true [] rest.
Proof. reflexivity. Qed.

Lemma words_until_volume (rest : jsstr) :
  words (lit "docker run --rm -v " ++ rest) =
    [lit "docker"; lit "run"; lit "--rm"; lit "-v"]
      ++ words_go Bare false [] rest.
Proof. reflexivity. Qed.

End CommandLines.

(** C7, as the claim states it, fails: the run command of the batch
    endpoint carries [--pids-limit=64] and the compile command carries no
    ceiling on the number of processes. *)
Lemma build_has_no_process_ceiling :
  let d := workspace_of
             (Examples.world Examples.compiled_ok Examples.compiled_ok None) in
  pids_limit (caps_of (words (IndexMarkers.compileCmd d))) = None /\
  pids_limit (caps_of (words (IndexMarkers.executeCmd d))) = Some (lit "64") /\
  caps_of (words (IndexMarkers.compileCmd d)) <>
  caps_of (words (IndexMarkers.executeCmd d)).
Proof.
  split; [vm_compute; reflexivity |]. split; [vm_compute; reflexivity |].
  vm_compute. discriminate.
Qed.

(** C7, amended.  In both snapshots of the batch endpoint the build
    and the run environment get the same memory ceiling (256m), CPU
    share (0.5), network (none) and user (1000:1000), and only the run
    environment gets a ceiling on the number of processes (64); the
    interactive server gives neither environment any cap.  This holds
    for every path of the workspace where the command is started
    without a shell; where it goes through a shell, for every path the
    shell leaves as it is: between the double quotes of the marker
    snapshot a path without a double quote, a dollar sign, a backquote
    and a backslash, and in the unquoted compile command of the
    interactive server a path of letters, digits, [/], [.], [_] and
    [-]. *)
Theorem caps_of_build_and_run (d : jsstr) :
  (quotable d ->
   caps_of (words (IndexMarkers.compileCmd d)) = batch_caps None /\
   caps_of (words (IndexMarkers.executeCmd d)) = batch_caps (Some (lit "64")))
  /\
  caps_of (IndexExecFile.compile_cmd d) = batch_caps None /\
  caps_of (IndexExecFile.execute_cmd d) = batch_caps (Some (lit "64")) /\
  (unquoted_safe d ->
   caps_of (words (join (lit " ") (InteractiveServer.compileCmd d))) = no_caps)
  /\
  caps_of (lit "docker" :: InteractiveServer.spawn_args d) = no_caps.
Proof.
  split; [| split; [| split; [| split]]].
  - intros Hd. split.
    + replace (IndexMarkers.compileCmd d)
        with (lit "docker run --rm -v " ++ 34 :: d ++
              skipn 20 (IndexMarkers.compileCmd []))
        by (unfold IndexMarkers.compileCmd; now rewrite <- ?app_assoc).
      rewrite words_until_quoted_volume, (words_go_quoted d _ [] Hd).
      vm_compute. reflexivity.
    + replace (IndexMarkers.executeCmd d)
        with (lit "docker run --rm -v " ++ 34 :: d ++
              skipn 20 (IndexMarkers.executeCmd []))
        by (unfold IndexMarkers.executeCmd; now rewrite <- ?app_assoc).
      rewrite words_until_quoted_volume, (words_go_quoted d _ [] Hd).
      vm_compute. reflexivity.
  - vm_compute. reflexivity.
  - vm_compute. reflexivity.
  - intros Hd.
    replace (join (lit " ") (InteractiveServer.compileCmd d))
      with (lit "docker run --rm -v " ++ d ++ 58 ::
            skipn 20 (join (lit " ") (InteractiveServer.compileCmd [])))
      by (unfold InteractiveServer.compileCmd; cbn [join];
          now rewrite <- ?app_assoc).
    rewrite words_until_volume, (words_go_unquoted d _ [] false Hd).
    vm_compute. reflexivity.
  - vm_compute. reflexivity.
Qed.

(** An instance: a workspace below a temporary directory with a space
    in its name, for the commands that quote the path or use no shell,
    and the workspace of the example world for the unquoted one. *)
Lemma caps_of_build_and_run_witness :
  let d := lit "/tmp/my files/c-runner-1b9d6bcd" in
  let d' := workspace_of
              (Examples.world Examples.compiled_ok Examples.compiled_ok None) in
  caps_of (words (IndexMarkers.compileCmd d)) = batch_caps None /\
  caps_of (words (IndexMarkers.executeCmd d)) = batch_caps (Some (lit "64")) /\
  caps_of (IndexExecFile.compile_cmd d) = batch_caps None /\
  caps_of (IndexExecFile.execute_cmd d) = batch_caps (Some (lit "64")) /\
  caps_of (words (join (lit " ") (InteractiveServer.compileCmd d'))) = no_caps /\
  caps_of (lit "docker" :: InteractiveServer.spawn_args d) = no_caps.
Proof.
  intros d d'.
  destruct (caps_of_build_and_run d)
    as (Hmarkers & Hcompile & Hexecute & _ & Hspawn).
  destruct (caps_of_build_and_run d') as (_ & _ & _ & Hinteractive & _).
  assert (Hq : quotable d) by repeat constructor.
  assert (Hu : unquoted_safe d') by repeat constructor.
  destruct (Hmarkers Hq) as [Hc Hx].
  exact (conj Hc (conj Hx (conj Hcompile (conj Hexecute
           (conj (Hinteractive Hu) Hspawn))))).
Defined.

(* ===================================================================== *)
(** ** The interactive session                                            *)
(* ===================================================================== *)

Section SessionFacts.

Import InteractiveServer.

(** What [ws.on('close')] does to the host. *)
Lemma on_close_host (rm : option JsError) (s : Session) :
  host (on_close rm s) =
    let d := workspaceDir s in
    let h := host s in
    if bool_decide (d ∈ dirs h) then
      {| dirs := match rm with
                 | None => without_dir d (dirs h)
                 | Some _ => dirs h
                 end;
         trace := trace h ++ [EExistsSync d; ERmSync d] |}
    else
      {| dirs := dirs h; trace := trace h ++ [EExistsSync d] |}.
Proof.
  unfold on_close, with_host, try_catch, bind, fs_existsSync, fs_rmSync,
    ret, log.
  cbn [host dirs trace snd].
  destruct (bool_decide (workspaceDir s ∈ dirs (host s))); [| reflexivity].
  destruct rm; cbn [snd dirs trace]; now rewrite <- app_assoc.
Qed.

Lemma on_close_removes (s : Session) :
  workspaceDir s ∉ dirs (host (on_close None s)).
Proof.
  rewrite on_close_host. cbv zeta.
  destruct (decide (workspaceDir s ∈ dirs (host s))) as [Hin | Hin].
  - rewrite bool_decide_eq_true_2 by exact Hin. cbn [dirs].
    apply not_elem_of_without_dir.
  - rewrite bool_decide_eq_false_2 by exact Hin. exact Hin.
Qed.

(** A [code] message writes the source and starts the compile command;
    it touches neither the processes nor [ws.term]. *)
Lemma step_code_message (s : Session) (code : jsstr) (data : JsVal) :
  step s (Message (lit "code") code data) =
    with_host s
      (log (EExec (join (lit " ") (compileCmd (workspaceDir s))) 0)
         (snd (fs_writeFile None (path_join (workspaceDir s) (lit "main.c"))
                 code (host s)))).
Proof.
  unfold step.
  replace (str_eqb (lit "code") (lit "code")) with true
    by (vm_compute; reflexivity).
  replace (str_eqb (lit "code") (lit "stdin")) with false
    by (vm_compute; reflexivity).
  reflexivity.
Qed.

(** When the compile command succeeds the program is spawned: a new
    process is alive and [ws.term] holds it. *)
Lemma step_compile_done_ok (s : Session) (cb : ExecCallback) :
  cb_error cb = None ->
  step s (CompileDone cb) =
    {| workspaceDir := workspaceDir s;
       host := log (ESpawn (lit "docker") (spawn_args (workspaceDir s))) (host s);
       live := {[ next_pid s ]} ∪ live s;
       next_pid := next_pid s + 1;
       term := Some (next_pid s);
       sent := sent s;
       written := written s |}.
Proof. intros H. unfold step. now rewrite H. Qed.

End SessionFacts.

(** C9, as the claim states it, fails: a session that received the
    source, compiled it and spawned the program is closed by the client;
    afterwards the workspace is gone, and the process the session
    spawned, still held in [ws.term], is alive. *)
Lemma process_survives_disconnect :
  let s0 := InteractiveServer.connect (lit "/tmp") (lit "7c9e6679")
              Examples.empty_host 1 ∅ in
  let s := InteractiveServer.run s0
             [ InteractiveServer.Message (lit "code") Examples.main_c VUndefined;
               InteractiveServer.CompileDone Examples.compiled_ok;
               InteractiveServer.Close None ] in
  InteractiveServer.term s = Some 1 /\
  1 ∈ InteractiveServer.live s /\
  InteractiveServer.workspaceDir s ∉ dirs (InteractiveServer.host s).
Proof.
  intros s0 s. subst s. unfold InteractiveServer.run. cbn [fold_left].
  rewrite step_code_message.
  rewrite (step_compile_done_ok _ Examples.compiled_ok eq_refl).
  cbn [InteractiveServer.step].
  split; [reflexivity |]. split.
  - cbn [InteractiveServer.on_close InteractiveServer.with_host
         InteractiveServer.live InteractiveServer.next_pid s0
         InteractiveServer.connect].
    apply elem_of_union_l. now apply elem_of_singleton.
  - match goal with
    | |- InteractiveServer.workspaceDir (InteractiveServer.on_close None ?x) ∉ _ =>
        change (InteractiveServer.workspaceDir (InteractiveServer.on_close None x))
          with (InteractiveServer.workspaceDir x)
    end.
    apply on_close_removes.
Qed.

(** C9, amended.  When the client disconnects, the session removes its
    workspace directory (when [fs.rmSync] does not throw) and does
    nothing else: the processes that are alive stay alive, [ws.term]
    keeps its handle, and no message is sent. *)
Theorem close_removes_workspace_only
    (s : InteractiveServer.Session) (rm : option JsError) :
  let s' := InteractiveServer.step s (InteractiveServer.Close rm) in
  InteractiveServer.live s' = InteractiveServer.live s /\
  InteractiveServer.term s' = InteractiveServer.term s /\
  InteractiveServer.sent s' = InteractiveServer.sent s /\
  InteractiveServer.workspaceDir s ∉
    dirs (InteractiveServer.host
            (InteractiveServer.step s (InteractiveServer.Close None))).
Proof.
  cbn [InteractiveServer.step]. repeat split. apply on_close_removes.
Qed.

(* ===================================================================== *)
(** ** Control sequences                                                  *)
(* ===================================================================== *)

Section StripFacts.

Import InteractiveServer.

(** Deleting every match of [/\u0007/g] leaves no BEL. *)
Lemma replace_bel_no_bel (s : jsstr) :
  forall skip, ~ In BEL (replace_go bel skip s).
Proof.
  induction s as [| c s IH]; intros skip.
  - simpl. tauto.
  - cbn [replace_go]. destruct skip as [| k]; [| apply IH].
    unfold exec_at, bel. cbn [re_match].
    destruct (N.eqb_spec c BEL) as [-> | Hne].
    + replace (length (BEL :: s) - length s)%nat with 1%nat
        by (cbn [length]; lia).
      apply IH.
    + intros [Hc | Hin]; [contradiction | now apply (IH 0%nat)].
Qed.

End StripFacts.

(** C10.  The output of [stripAnsiSequences] on a string is a string
    without BEL, and every other value is returned as it is. *)
Theorem stripAnsiSequences_leaves_no_bel (raw : JsVal) :
  match raw with
  | VStr s =>
      exists out,
        InteractiveServer.stripAnsiSequences raw = VStr out /\ ~ In BEL out
  | _ => InteractiveServer.stripAnsiSequences raw = raw
  end.
Proof.
  destruct raw; try reflexivity.
  eexists. split; [reflexivity |].
  unfold replace_global at 1. apply replace_bel_no_bel.
Qed.


(* ===================================================================== *)
(** ** More about the batch endpoint                                      *)
(* ===================================================================== *)

Section Confinement.

Variable d : jsstr.

Lemma same_elsewhere_refl (h : Host) : same_elsewhere d h h.
Proof. intros p _ _. split; [tauto | now left]. Qed.

Lemma same_elsewhere_trans (h1 h2 h3 : Host) :
  same_elsewhere d h1 h2 -> same_elsewhere d h2 h3 -> same_elsewhere d h1 h3.
Proof.
  intros H12 H23 p Hp Hbelow.
  destruct (H12 p Hp Hbelow) as [Hkept12 Hnew12].
  destruct (H23 p Hp Hbelow) as [Hkept23 Hnew23].
  split; [tauto |].
  intros H3. destruct (Hnew23 H3) as [H2 | Habove]; [| now right].
  now apply Hnew12.
Qed.

Lemma confined_ret {A} (a : A) : confined d (ret a).
Proof. intros h. apply same_elsewhere_refl. Qed.

Lemma confined_die {A} : confined d (@die A).
Proof. intros h. apply same_elsewhere_refl. Qed.

Lemma confined_bind {A B} (m : M A) (f : A -> M B) :
  confined d m -> (forall a, confined d (f a)) -> confined d (bind m f).
Proof.
  intros Hm Hf h. unfold bind. specialize (Hm h).
  destruct (m h) as [[a | e |] h1]; cbn [snd] in *; try exact Hm.
  eapply same_elsewhere_trans; [exact Hm | apply Hf].
Qed.

Lemma confined_try_catch {A} (m : M A) (k : JsError -> M A) :
  confined d m -> (forall e, confined d (k e)) -> confined d (try_catch m k).
Proof.
  intros Hm Hk h. unfold try_catch. specialize (Hm h).
  destruct (m h) as [[a | e |] h1]; cbn [snd] in *; try exact Hm.
  eapply same_elsewhere_trans; [exact Hm | apply Hk].
Qed.

Lemma confined_try_finally {A} (m : M A) (f : M unit) :
  confined d m -> confined d f -> confined d (try_finally m f).
Proof.
  intros Hm Hf h. unfold try_finally. specialize (Hm h).
  destruct (m h) as [[a | e |] h1]; cbn [snd] in *; try exact Hm;
    specialize (Hf h1);
    destruct (f h1) as [[u | e' |] h2]; cbn [snd] in *;
    eapply same_elsewhere_trans; eassumption.
Qed.

Lemma confined_mkdir (err : option JsError) : confined d (fs_mkdir err d).
Proof.
  intros h p Hp Hbelow. unfold fs_mkdir.
  destruct err; cbn [snd dirs log]; [split; [tauto | now left] |].
  rewrite elem_of_with_dir. split; [tauto |].
  intros [Hd | [Habove | Hin]]; [contradiction | now right | now left].
Qed.

Lemma confined_writeFile (err : option JsError) (p content : jsstr) :
  confined d (fs_writeFile err p content).
Proof.
  intros h q _ _. unfold fs_writeFile.
  destruct err; cbn [snd dirs log]; (split; [tauto | now left]).
Qed.

Lemma confined_existsSync (p : jsstr) : confined d (fs_existsSync p).
Proof.
  intros h q _ _. cbn [fs_existsSync snd dirs log]. split; [tauto | now left].
Qed.

Lemma confined_rmSync (err : option JsError) : confined d (fs_rmSync err d).
Proof.
  intros h p Hp Hbelow. unfold fs_rmSync.
  destruct err; cbn [snd dirs log]; [split; [tauto | now left] |].
  rewrite elem_of_without_dir. split; [tauto |].
  intros (Hin & _). now left.
Qed.

Lemma confined_cleanupWorkspace (w : World) : confined d (cleanupWorkspace w d).
Proof.
  unfold cleanupWorkspace. apply confined_try_catch.
  - apply confined_bind; [apply confined_existsSync |].
    intros [|]; [apply confined_rmSync | apply confined_ret].
  - intros e. apply confined_ret.
Qed.

Lemma confined_createWorkspace (w : World) (code : jsstr) (stdin : JsVal) :
  confined d (createWorkspace w d code stdin).
Proof.
  unfold createWorkspace.
  apply confined_bind; [apply confined_mkdir |]. intros _.
  apply confined_bind; [apply confined_writeFile |]. intros _.
  destruct stdin; apply confined_writeFile || apply confined_die.
Qed.

End Confinement.

Section RouteConfinement.

Variable compileCode : World -> jsstr -> M CompileResult.
Variable executeCode : World -> jsstr -> M ExecuteResult.
Hypothesis compile_confined : forall w d, confined d (compileCode w d).
Hypothesis execute_confined : forall w d, confined d (executeCode w d).

(** A handler whose stages are confined to the workspace is confined to
    it. *)
Lemma confined_api_run (w : World) (req : Request) :
  confined (workspace_of w) (Batch.api_run compileCode executeCode w req).
Proof.
  destruct (request_cases req) as [[src Hacc] | [Hbad | (src & Hc & Hlong)]].
  - rewrite (api_run_accepted _ _ w req src Hacc).
    apply confined_try_finally; [| apply confined_cleanupWorkspace].
    apply confined_try_catch; [| intros e; apply confined_ret].
    apply confined_bind; [apply confined_createWorkspace |]. intros _.
    apply confined_bind; [apply compile_confined |]. intros c.
    destruct (c_error c); [apply confined_ret |].
    apply confined_bind; [apply execute_confined |]. intros x.
    apply confined_ret.
  - intros h. rewrite (api_run_invalid _ _ w req h Hbad).
    apply same_elsewhere_refl.
  - intros h. rewrite (api_run_too_long _ _ w req src h Hc Hlong).
    apply same_elsewhere_refl.
Qed.

End RouteConfinement.

(** X1.  A request whose [code] is missing, is not a string or is the
    empty string is answered, in both snapshots, with the 400 error
    "Invalid code provided", and the host is left exactly as it was. *)
Theorem invalid_code_rejected_without_effect
    (w : World) (req : Request) (h : Host) :
  is_string (req_code req) = false \/ req_code req = VStr [] ->
  IndexMarkers.api_run w req h = (Returned invalid_code_response, h) /\
  IndexExecFile.api_run w req h = (Returned invalid_code_response, h).
Proof. intros Hbad. split; now apply api_run_invalid. Qed.

(** An instance: [code] is the number 42. *)
Lemma invalid_code_rejected_witness :
  let w := Examples.world Examples.compiled_ok Examples.compiled_ok None in
  let req := {| req_code := VNum 42; req_stdin := VUndefined |} in
  IndexMarkers.api_run w req Examples.empty_host
    = (Returned invalid_code_response, Examples.empty_host) /\
  IndexExecFile.api_run w req Examples.empty_host
    = (Returned invalid_code_response, Examples.empty_host).
Proof.
  intros w req.
  apply (invalid_code_rejected_without_effect w req Examples.empty_host).
  left. reflexivity.
Defined.

Section AnswerFacts.

Variable compileCode : World -> jsstr -> M CompileResult.
Variable executeCode : World -> jsstr -> M ExecuteResult.

(** The body of the [try] block returns a response with status 200 or
    throws, when the stages do not end the process; it ends the
    process itself on a [stdin] that is not a string, and on nothing
    else. *)
Lemma try_body_status (w : World) (src : jsstr) (stdin : JsVal) (h : Host) :
  (forall d, never_dies (compileCode w d)) ->
  (forall d, never_dies (executeCode w d)) ->
  match
    bind (createWorkspace w (workspace_of w) src stdin)
      (fun _ =>
         bind (compileCode w (workspace_of w))
           (fun compileResult =>
              if c_error compileResult then
                ret {| status := 200;
                       stdout := [];
                       stderr := [];
                       compileError := c_stderr compileResult;
                       exitCode := c_exitCode compileResult;
                       timedOut := VBool false |}
              else
                bind (executeCode w (workspace_of w))
                  (fun executeResult =>
                     ret {| status := 200;
                            stdout := e_stdout executeResult;
                            stderr := e_stderr executeResult;
                            compileError := [];
                            exitCode := e_exitCode executeResult;
                            timedOut := e_timedOut executeResult |}))) h
  with
  | (Returned resp, _) => status resp = 200
  | (Thrown _, _) => True
  | (Died, _) => is_string stdin = false
  end.
Proof.
  intros Hcompile Hexecute. unfold bind.
  assert (Hsetup : match createWorkspace w (workspace_of w) src stdin h with
                   | (Died, _) => is_string stdin = false
                   | _ => True
                   end).
  { destruct stdin as [| | b | z | | text | | neg];
      try (now destruct (createWorkspace w (workspace_of w) src _ h)
                 as [[u | e |] h1]).
    pose proof (createWorkspace_lives w (workspace_of w) src text h) as Hl.
    now destruct (createWorkspace w (workspace_of w) src (VStr text) h)
          as [[u | e |] h1]. }
  destruct (createWorkspace w (workspace_of w) src stdin h) as [[u | e |] h1];
    [| exact I | exact Hsetup].
  pose proof (Hcompile (workspace_of w) h1) as Hc.
  destruct (compileCode w (workspace_of w) h1) as [[c | e |] h2];
    [| exact I | now destruct Hc].
  destruct (c_error c); [reflexivity |].
  pose proof (Hexecute (workspace_of w) h2) as Hx.
  destruct (executeCode w (workspace_of w) h2) as [[x | e |] h3];
    [reflexivity | exact I | now destruct Hx].
Qed.

(** A [stdin] that is not a string after the default is not one
    before, and is not absent. *)
Lemma handler_stdin_not_text (req : Request) :
  is_string (handler_stdin req) = false -> ~ text_stdin req.
Proof.
  intros Hs Htext. rewrite (handler_stdin_text req Htext) in Hs.
  discriminate Hs.
Qed.

End AnswerFacts.

(** X2.  Whatever the two stages do, as long as they return or throw,
    the handler lets no exception out: it returns one response, with
    status 200, or with status 400 or 500 and then with empty [stdout]
    and [compileError], exit code -1 and [timedOut] false.  The one
    other outcome is that the process ends, which takes a [stdin] that
    is neither a string nor absent. *)
Theorem handler_answers_or_dies
    (compileCode : World -> jsstr -> M CompileResult)
    (executeCode : World -> jsstr -> M ExecuteResult)
    (w : World) (req : Request) (h : Host) :
  (forall d, never_dies (compileCode w d)) ->
  (forall d, never_dies (executeCode w d)) ->
  (exists resp h',
     Batch.api_run compileCode executeCode w req h = (Returned resp, h') /\
     (status resp = 200 \/
      ((status resp = 400 \/ status resp = 500) /\
       stdout resp = [] /\ compileError resp = [] /\
       exitCode resp = VNum (-1) /\ timedOut resp = VBool false)))
  \/
  (exists h',
     Batch.api_run compileCode executeCode w req h = (Died, h') /\
     ~ text_stdin req).
Proof.
  intros Hcompile Hexecute.
  destruct (request_cases req) as [[src Hacc] | [Hbad | (src & Hc & Hlong)]].
  - rewrite (api_run_accepted _ _ w req src Hacc).
    unfold try_finally, try_catch.
    pose proof (try_body_status compileCode executeCode w src
                  (handler_stdin req) h Hcompile Hexecute) as Hbody.
    match type of Hbody with
    | match ?m with _ => _ end => destruct m as [[resp | e |] h1]
    end.
    + left. rewrite cleanupWorkspace_spec. do 2 eexists.
      split; [reflexivity |]. now left.
    + left. unfold ret. rewrite cleanupWorkspace_spec.
      do 2 eexists. split; [reflexivity |]. right.
      cbn [status stdout compileError exitCode timedOut]. tauto.
    + right. eexists. split; [reflexivity |].
      now apply handler_stdin_not_text.
  - left. rewrite (api_run_invalid _ _ w req h Hbad). do 2 eexists.
    split; [reflexivity |]. right.
    cbn [invalid_code_response status stdout compileError exitCode timedOut].
    tauto.
  - left. rewrite (api_run_too_long _ _ w req src h Hc Hlong). do 2 eexists.
    split; [reflexivity |]. right.
    cbn [status stdout compileError exitCode timedOut]. tauto.
Qed.

(** An instance: the marker snapshot on the example request, which has
    no [stdin]; the process does not end, so there is a response. *)
Lemma handler_answers_witness :
  let w := Examples.world Examples.compiled_ok Examples.compiled_ok None in
  exists resp h',
    IndexMarkers.api_run w Examples.request Examples.empty_host
      = (Returned resp, h') /\
    (status resp = 200 \/
     ((status resp = 400 \/ status resp = 500) /\
      stdout resp = [] /\ compileError resp = [] /\
      exitCode resp = VNum (-1) /\ timedOut resp = VBool false)).
Proof.
  intros w.
  destruct (handler_answers_or_dies
              IndexMarkers.compileCode IndexMarkers.executeCode
              w Examples.request Examples.empty_host)
    as [Hanswer | (h' & _ & Hnot)].
  - intros d h. discriminate.
  - intros d h. discriminate.
  - exact Hanswer.
  - destruct Hnot. now right.
Defined.

Section SetupFailure.

(** When the set-up fails, [createWorkspace] rejects with the error
    after effects on the file system only. *)
Lemma createWorkspace_fails (w : World) (req : Request) (e : JsError)
    (d src : jsstr) (h : Host) :
  setup_fails w req e ->
  exists ds added,
    createWorkspace w d src (handler_stdin req) h =
      (Thrown e, {| dirs := ds; trace := trace h ++ added |}) /\
    existsb starts_process added = false.
Proof.
  unfold createWorkspace, bind, fs_mkdir, fs_writeFile, log.
  intros [Hmk | [(Hmk & Hmain) | (Hmk & Hmain & Htext & Hin)]].
  - rewrite Hmk. now exists (dirs h), [EMkdir d].
  - rewrite Hmk, Hmain. cbn [dirs trace].
    exists (with_dir d (dirs h)),
      [EMkdir d; EWriteFile (path_join d (lit "main.c")) src].
    now rewrite <- app_assoc.
  - rewrite Hmk, Hmain, (handler_stdin_text req Htext), Hin. cbn [dirs trace].
    exists (with_dir d (dirs h)),
      [EMkdir d; EWriteFile (path_join d (lit "main.c")) src;
       EWriteFile (path_join d (lit "input.txt")) (stdin_of req)].
    now rewrite <- !app_assoc.
Qed.

End SetupFailure.

(** X3.  When the workspace cannot be set up ([fs.mkdir] fails, the
    write of [main.c] fails, or the write of [input.txt] fails for a
    [stdin] that is a string or absent), the handler answers with
    status 500 and "Internal server error: " followed by the message of
    the error, and no process is started for the request: neither stage
    runs. *)
Theorem setup_failure_is_internal_error
    (compileCode : World -> jsstr -> M CompileResult)
    (executeCode : World -> jsstr -> M ExecuteResult)
    (w : World) (req : Request) (src : jsstr) (e : JsError) (h : Host) :
  accepted req src ->
  setup_fails w req e ->
  exists h',
    Batch.api_run compileCode executeCode w req h =
      (Returned (internal_error_response (err_message e)), h') /\
    existsb starts_process (effects_since h h') = false.
Proof.
  intros Hacc Hfail. rewrite (api_run_accepted _ _ w req src Hacc).
  destruct (createWorkspace_fails w req e (workspace_of w) src h Hfail)
    as (ds & added & Hcreate & Hquiet).
  unfold try_finally, try_catch, bind. rewrite Hcreate. unfold ret.
  rewrite cleanupWorkspace_spec. cbn [dirs trace].
  eexists. split; [reflexivity |].
  destruct (bool_decide (workspace_of w ∈ ds));
    rewrite <- app_assoc, effects_since_app, existsb_app, Hquiet; reflexivity.
Qed.

(** An instance: [fs.mkdir] fails with EACCES. *)
Lemma setup_failure_witness :
  let w := {| w_tmpdir := lit "/tmp";
              w_uuid := lit "1b9d6bcd-bbfd-4b2d-9b5d-ab8dfbbd4bed";
              w_mkdir := Some Examples.EACCES;
              w_write_main := None;
              w_write_input := None;
              w_compile := Examples.compiled_ok;
              w_run := Examples.compiled_ok;
              w_rm := None |} in
  exists h',
    IndexMarkers.api_run w Examples.request Examples.empty_host =
      (Returned (internal_error_response (lit "EACCES: permission denied")), h') /\
    existsb starts_process (effects_since Examples.empty_host h') = false.
Proof.
  intros w.
  apply (setup_failure_is_internal_error
           IndexMarkers.compileCode IndexMarkers.executeCode
           w Examples.request Examples.main_c Examples.EACCES
           Examples.empty_host).
  - repeat split; [discriminate | vm_compute; congruence].
  - left. reflexivity.
Defined.

(** X4.  In both snapshots a request removes or makes nothing outside
    its own workspace, but for the directories above the workspace
    that were missing: a path that is neither the workspace nor below
    it still exists after the request when it existed before, and
    when it exists after the request it existed before or is a
    directory above the workspace. *)
Theorem other_directories_untouched
    (w : World) (req : Request) (h : Host) (p : jsstr) :
  p <> workspace_of w ->
  below (workspace_of w) p = false ->
  let after_markers := dirs (snd (IndexMarkers.api_run w req h)) in
  let after_execfile := dirs (snd (IndexExecFile.api_run w req h)) in
  (p ∈ dirs h -> p ∈ after_markers /\ p ∈ after_execfile) /\
  (p ∈ after_markers \/ p ∈ after_execfile ->
   p ∈ dirs h \/ In p (above (workspace_of w))).
Proof.
  intros Hp Hbelow after_markers after_execfile.
  assert (Hm : same_elsewhere (workspace_of w) h
                 (snd (IndexMarkers.api_run w req h))).
  { apply (confined_api_run IndexMarkers.compileCode IndexMarkers.executeCode);
      intros w0 d0 h0 q _ _;
      (split; [intros H; exact H | intros H; left; exact H]). }
  assert (Hx : same_elsewhere (workspace_of w) h
                 (snd (IndexExecFile.api_run w req h))).
  { apply (confined_api_run IndexExecFile.compileCode IndexExecFile.executeCode);
      intros w0 d0 h0 q _ _;
      (split; [intros H; exact H | intros H; left; exact H]). }
  destruct (Hm p Hp Hbelow) as [Hkeep_m Hnew_m].
  destruct (Hx p Hp Hbelow) as [Hkeep_x Hnew_x].
  split; [now split; auto |].
  intros [Hin | Hin]; auto.
Qed.

(** An instance: the workspace of another request, present before. *)
Lemma other_directories_untouched_witness :
  let w := Examples.world Examples.compiled_ok Examples.compiled_ok None in
  let p := lit "/tmp/c-runner-other" in
  let h := {| dirs := {[ p ]}; trace := [] |} in
  p ∈ dirs (snd (IndexMarkers.api_run w Examples.request h)) /\
  p ∈ dirs (snd (IndexExecFile.api_run w Examples.request h)).
Proof.
  intros w p h.
  destruct (other_directories_untouched w Examples.request h p) as [Hkeep _].
  - vm_compute. discriminate.
  - reflexivity.
  - apply Hkeep. unfold h. cbn [dirs]. now apply elem_of_singleton.
Defined.

(** X5.  [cleanupWorkspace] can be called again: once the directory has
    been removed, a second call only asks whether it exists, attempts
    no removal and changes no directory. *)
Theorem cleanup_twice_is_cleanup_once (w : World) (d : jsstr) (h : Host) :
  w_rm w = None ->
  let h1 := snd (cleanupWorkspace w d h) in
  cleanupWorkspace w d h1 =
    (Returned tt, {| dirs := dirs h1; trace := trace h1 ++ [EExistsSync d] |}).
Proof.
  intros Hrm h1. rewrite cleanupWorkspace_spec.
  rewrite bool_decide_eq_false_2; [reflexivity |].
  now apply cleanupWorkspace_removes.
Qed.

(** An instance: the workspace exists before the first call. *)
Lemma cleanup_twice_witness :
  let w := Examples.world Examples.compiled_ok Examples.compiled_ok None in
  let d := workspace_of w in
  let h1 := snd (cleanupWorkspace w d {| dirs := {[ d ]}; trace := [] |}) in
  cleanupWorkspace w d h1 =
    (Returned tt, {| dirs := dirs h1; trace := trace h1 ++ [EExistsSync d] |}).
Proof.
  intros w d.
  apply (cleanup_twice_is_cleanup_once w d {| dirs := {[ d ]}; trace := [] |}).
  reflexivity.
Defined.

(* ===================================================================== *)
(** ** More about the marker parser                                       *)
(* ===================================================================== *)

Import MarkerFormat.

(** X6.  When what [docker run] printed on its standard output holds no
    separator and does not start with [EXIT_CODE:] (nothing at all, for
    instance, because docker could not start the container), the
    outcome has empty [stdout] and [stderr], whatever docker wrote on
    its standard error, and its exit code is that of the error object,
    1 if it has none, and 0 without an error object. *)
Theorem no_exit_line_falls_back_to_error_code (cb : ExecCallback) :
  separator_free (cb_stdout cb) ->
  startsWith (lit "EXIT_CODE:") (cb_stdout cb) = false ->
  let o := IndexMarkers.parse_execution cb in
  e_stdout o = [] /\ e_stderr o = [] /\
  e_exitCode o = fallback_exit (cb_error cb) /\
  e_timedOut o =
    VBool (strict_eq (fallback_exit (cb_error cb))
             (VNum IndexMarkers.TIMEOUT_EXIT_CODE)).
Proof.
  intros Hfree Hstart.
  unfold IndexMarkers.parse_execution. cbv zeta.
  rewrite (split_lines_one_piece _ Hfree).
  cbn [IndexMarkers.find_markers]. rewrite Hstart.
  fold (fallback_exit (cb_error cb)).
  assert (Hexit :
    (if strict_eq (fallback_exit (cb_error cb))
          (VNum IndexMarkers.TIMEOUT_EXIT_CODE)
     then VNum IndexMarkers.TIMEOUT_EXIT_CODE
     else fallback_exit (cb_error cb)) = fallback_exit (cb_error cb)).
  { destruct (fallback_exit (cb_error cb)) as [| | b | z | | s | | neg];
      try reflexivity.
    cbn [strict_eq]. destruct (Z.eqb_spec z IndexMarkers.TIMEOUT_EXIT_CODE);
      [now subst | reflexivity]. }
  destruct (str_eqb (cb_stdout cb) (lit "---STDOUT---"));
    [| destruct (str_eqb (cb_stdout cb) (lit "---STDERR---"))];
    cbn [IndexMarkers.exitCodeLine IndexMarkers.stdoutStartIndex
         IndexMarkers.stderrStartIndex truthy e_stdout e_stderr
         e_exitCode e_timedOut];
    change (str_eqb [] []) with true; cbn [negb];
    rewrite Hexit; repeat split; reflexivity.
Qed.

(** An instance: docker is not installed; the shell of [exec] says so
    on its standard error and exits with status 127. *)
Lemma no_exit_line_witness :
  let cb := {| cb_error := callback_error (Exited 127);
               cb_stdout := [];
               cb_stderr := lit "/bin/sh: 1: docker: not found" |} in
  let o := IndexMarkers.parse_execution cb in
  e_stdout o = [] /\ e_stderr o = [] /\
  e_exitCode o = VNum 127 /\ e_timedOut o = VBool false.
Proof.
  intros cb.
  apply (no_exit_line_falls_back_to_error_code cb); reflexivity.
Defined.

Section RoundTrip.

(** A piece without the separator, followed by the separator: the piece
    is cut off there.  The two code units of the separator differ, so
    no occurrence starts in the piece and ends in the separator. *)
Lemma split_go_piece (x y : N) (p rest cur : jsstr) :
  x <> y ->
  contains [x; y] p = false ->
  split_go [x; y] 0 cur (p ++ [x; y] ++ rest) =
    (rev cur ++ p) :: split_go [x; y] 0 [] rest.
Proof.
  intros Hxy. revert cur. induction p as [| c p IH]; intros cur Hfree.
  - cbn [app split_go startsWith length Nat.sub].
    rewrite !N.eqb_refl. cbn [andb]. now rewrite app_nil_r.
  - cbn [contains] in Hfree. apply orb_false_elim in Hfree.
    destruct Hfree as [Hhere Hlater].
    cbn [app split_go].
    assert (Hno : startsWith [x; y] (c :: p ++ x :: y :: rest) = false).
    { cbn [startsWith] in *. destruct (x =? c); [| reflexivity].
      cbn [andb] in *. destruct p as [| c' p]; [| exact Hhere].
      cbn [app]. destruct (N.eqb_spec y x) as [-> | _];
        [contradiction | reflexivity]. }
    rewrite Hno, (IH _ Hlater). cbn [rev]. now rewrite <- app_assoc.
Qed.

(** [split] undoes [join] on pieces without the separator. *)
Lemma split_join (x y : N) (l : list jsstr) :
  x <> y -> l <> [] ->
  Forall (fun p => contains [x; y] p = false) l ->
  split [x; y] (join [x; y] l) = l.
Proof.
  intros Hxy Hne Hl. unfold split.
  induction Hl as [| p l Hp Hl IH]; [contradiction |].
  destruct l as [| q l].
  - cbn [join]. now rewrite split_go_not_contained.
  - change (join [x; y] (p :: q :: l))
      with (p ++ [x; y] ++ join [x; y] (q :: l)).
    rewrite split_go_piece by assumption.
    now rewrite IH.
Qed.

Lemma find_markers_plain (ps rest : list jsstr) :
  Forall plain_piece ps ->
  forall i m,
    IndexMarkers.find_markers i (ps ++ rest) m =
      IndexMarkers.find_markers (i + Z.of_nat (length ps)) rest m.
Proof.
  induction 1 as [| p ps (_ & Hstart & Hout & Herr) _ IH]; intros i m.
  - cbn [app length]. f_equal. lia.
  - cbn [app IndexMarkers.find_markers]. rewrite Hstart.
    unfold str_eqb.
    rewrite (bool_decide_eq_false_2 _ Hout), (bool_decide_eq_false_2 _ Herr).
    rewrite IH. f_equal. cbn [length]. lia.
Qed.

Lemma slice_between {A} (l : list A) (a b : nat) :
  (a <= b)%nat -> (b <= length l)%nat ->
  slice l (Z.of_nat a) (Z.of_nat b) = firstn (b - a) (skipn a l).
Proof.
  intros Hab Hb. unfold slice, rel_index.
  destruct (Z.ltb_spec (Z.of_nat a) 0); [lia |].
  destruct (Z.ltb_spec (Z.of_nat b) 0); [lia |].
  rewrite !Z.min_l by lia.
  now rewrite <- Nat2Z.inj_sub, !Nat2Z.id by exact Hab.
Qed.

Lemma header_separator_free (n : N) :
  contains [BACKSLASH; 110] (lit "EXIT_CODE:" ++ decimal n) = false.
Proof.
  apply contains_app_last; [reflexivity | | reflexivity].
  apply decimal_separator_free.
Qed.

Lemma parseInt_decimal_alone (n : N) :
  parseInt (VStr (decimal n)) = number (Z.of_N n).
Proof.
  pose proof (decimal_digits n) as Hds.
  pose proof (decimal_nonempty n) as Hne.
  pose proof (decimal_value n) as Hval.
  pose proof (read_digits_run (decimal n) [] Hds
                (fun acc => eq_refl) None Hne) as Hread.
  rewrite app_nil_r in Hread.
  destruct (decimal n) as [| d ds]; [contradiction |].
  inversion Hds as [| ? ? Hd Hds']; subst.
  unfold parseInt. cbn [trim_start].
  rewrite (digit_not_whitespace d Hd).
  destruct (digit_not_sign d Hd) as [-> ->].
  destruct ds as [| b ds'].
  - rewrite Hread, Hval. reflexivity.
  - inversion Hds'; subst.
    rewrite (digit_not_hex_mark b) by assumption.
    rewrite andb_false_r, Hread, Hval. reflexivity.
Qed.

Lemma header_exit_code (n : N) :
  parseInt (index (split (lit ":") (lit "EXIT_CODE:" ++ decimal n)) 1)
  = number (Z.of_N n).
Proof.
  unfold split. change (lit ":") with [58].
  change (lit "EXIT_CODE:") with ([69; 88; 73; 84; 95; 67; 79; 68; 69] ++ [58]).
  rewrite <- app_assoc.
  rewrite split_go_prefix by (vm_compute; intuition discriminate).
  cbn [app split_go startsWith length Nat.sub N.eqb Pos.eqb andb].
  rewrite (split_go_absent 58 [] (decimal n) []) by apply decimal_no_colon.
  cbn [index nth_error rev app]. apply parseInt_decimal_alone.
Qed.

End RoundTrip.

(** X7.  The marker parser reads back a blob in its own format: from
    the exit-code piece, the marker [---STDOUT---], the pieces of the
    standard output, the marker [---STDERR---] and the pieces of the
    standard error, joined by the separator, it recovers the two
    streams, each joined by the separator again, and the exit code as
    a Number (the status itself up to 2^53, the nearest double beyond),
    provided no piece holds the separator, starts with [EXIT_CODE:] or
    is a marker line. *)
Theorem marker_blob_round_trip
    (status : N) (outs errs : list jsstr)
    (error : option JsError) (docker_stderr : jsstr) :
  Forall plain_piece outs ->
  Forall plain_piece errs ->
  IndexMarkers.parse_execution
    {| cb_error := error;
       cb_stdout := blob status outs errs;
       cb_stderr := docker_stderr |} =
    {| e_stdout := join (lit "\n") outs;
       e_stderr := join (lit "\n") errs;
       e_exitCode := number (Z.of_N status);
       e_timedOut := VBool (status =? 124) |}.
Proof.
  intros Houts Herrs.
  assert (Hfree : forall ps, Forall plain_piece ps ->
            Forall (fun p => contains [BACKSLASH; 110] p = false) ps).
  { intros ps Hps. eapply List.Forall_impl; [| exact Hps].
    intros p (Hp & _). exact Hp. }
  set (header := lit "EXIT_CODE:" ++ decimal status).
  set (lines := header :: STDOUT_MARKER :: outs ++ STDERR_MARKER :: errs).
  assert (Hsplit : split (lit "\n") (blob status outs errs) = lines).
  { unfold blob. change (lit "\n") with [BACKSLASH; 110].
    apply split_join; [discriminate | discriminate |].
    constructor; [apply header_separator_free |].
    constructor; [reflexivity |].
    apply Forall_app. split; [now apply Hfree |].
    constructor; [reflexivity | now apply Hfree]. }
  assert (Hmarkers :
    IndexMarkers.find_markers 0 lines
      {| IndexMarkers.exitCodeLine := [];
         IndexMarkers.stdoutStartIndex := -1;
         IndexMarkers.stderrStartIndex := -1 |} =
      {| IndexMarkers.exitCodeLine := header;
         IndexMarkers.stdoutStartIndex := 2;
         IndexMarkers.stderrStartIndex := Z.of_nat (3 + length outs) |}).
  { subst lines header. cbn [IndexMarkers.find_markers].
    rewrite startsWith_app.
    change (startsWith (lit "EXIT_CODE:") STDOUT_MARKER) with false.
    change (str_eqb STDOUT_MARKER (lit "---STDOUT---")) with true.
    cbv iota.
    rewrite (find_markers_plain outs _ Houts).
    cbn [IndexMarkers.find_markers].
    change (startsWith (lit "EXIT_CODE:") STDERR_MARKER) with false.
    change (str_eqb STDERR_MARKER (lit "---STDOUT---")) with false.
    change (str_eqb STDERR_MARKER (lit "---STDERR---")) with true.
    cbv iota.
    rewrite <- (app_nil_r errs), (find_markers_plain errs [] Herrs).
    cbn [IndexMarkers.find_markers IndexMarkers.exitCodeLine
         IndexMarkers.stdoutStartIndex IndexMarkers.stderrStartIndex].
    f_equal. lia. }
  unfold IndexMarkers.parse_execution. cbv zeta. cbn [cb_error cb_stdout].
  rewrite Hsplit, Hmarkers.
  cbn [IndexMarkers.exitCodeLine IndexMarkers.stdoutStartIndex
       IndexMarkers.stderrStartIndex].
  unfold jsstr in *.
  assert (Hlen : length lines = (3 + length outs + length errs)%nat).
  { subst lines. cbn [length]. rewrite length_app. cbn [length]. lia. }
  assert (Hout : slice lines 2 (Z.of_nat (3 + length outs) - 1) = outs).
  { replace (Z.of_nat (3 + length outs) - 1)%Z
      with (Z.of_nat (2 + length outs)) by lia.
    change 2%Z with (Z.of_nat 2).
    rewrite slice_between by lia.
    subst lines. cbn [skipn].
    replace (2 + length outs - 2)%nat with (length outs) by lia.
    rewrite List.skipn_O.
    now rewrite firstn_app, firstn_all, Nat.sub_diag, firstn_O, app_nil_r. }
  assert (Herr : slice_from lines (Z.of_nat (3 + length outs)) = errs).
  { unfold slice_from. rewrite slice_between by lia.
    rewrite Hlen.
    replace (3 + length outs + length errs - (3 + length outs))%nat
      with (length errs) by lia.
    subst lines.
    change (header :: STDOUT_MARKER :: outs ++ STDERR_MARKER :: errs)
      with ([header; STDOUT_MARKER] ++ outs ++ [STDERR_MARKER] ++ errs).
    rewrite !app_assoc.
    rewrite skipn_app, skipn_all2 by (rewrite !length_app; cbn [length]; lia).
    rewrite !length_app. cbn [length app].
    replace (3 + length outs - (2 + length outs + 1))%nat with 0%nat by lia.
    cbn [skipn]. apply firstn_all. }
  rewrite Hout, Herr.
  assert (Htruthy : truthy (VStr header) = true).
  { subst header. cbn [truthy]. apply negb_true_iff.
    change (lit "EXIT_CODE:" ++ decimal status)
      with (69 :: tl (lit "EXIT_CODE:") ++ decimal status).
    apply str_eqb_cons_nil. }
  rewrite Htruthy. subst header. rewrite header_exit_code.
  replace (negb (2 =? -1)%Z && negb (Z.of_nat (3 + length outs) =? -1)%Z)
    with true
    by (symmetry; apply andb_true_intro; split; [reflexivity |];
        apply negb_true_iff, Z.eqb_neq; lia).
  replace (negb (Z.of_nat (3 + length outs) =? -1)%Z) with true
    by (symmetry; apply negb_true_iff, Z.eqb_neq; lia).
  unfold IndexMarkers.TIMEOUT_EXIT_CODE. rewrite number_is_124.
  destruct (N.eqb_spec status 124) as [-> | Hne]; reflexivity.
Qed.

(** An instance: the blob of a program that printed two pieces on its
    standard output and one on its standard error, and ended with
    status 3. *)
Lemma marker_blob_round_trip_witness :
  IndexMarkers.parse_execution
    {| cb_error := None;
       cb_stdout := blob 3 [lit "Hello"; lit "World"] [lit "oops"];
       cb_stderr := [] |} =
    {| e_stdout := lit "Hello\nWorld";
       e_stderr := lit "oops";
       e_exitCode := VNum 3;
       e_timedOut := VBool false |}.
Proof.
  apply (marker_blob_round_trip 3 [lit "Hello"; lit "World"] [lit "oops"]
           None []);
    repeat constructor; discriminate.
Defined.

(* ===================================================================== *)
(** ** More about the escape-sequence filter                              *)
(* ===================================================================== *)

Section FilterFacts.

Import InteractiveServer.

(** A global replace by the empty string only deletes. *)
Lemma replace_go_sublist (r : Regex) (s : jsstr) :
  forall skip, sublist (replace_go r skip s) s.
Proof.
  induction s as [| c s IH]; intros skip.
  - constructor.
  - cbn [replace_go]. destruct skip as [| k].
    + destruct (exec_at r (c :: s)) as [rest |].
      * destruct (length (c :: s) - length rest)%nat.
        -- apply sublist_skip, IH.
        -- apply sublist_cons, IH.
      * apply sublist_skip, IH.
    + apply sublist_cons, IH.
Qed.

(** The code units of a match are dropped. *)
Lemma replace_go_skip (r : Regex) (m b : jsstr) :
  replace_go r (length m) (m ++ b) = replace_go r 0 b.
Proof.
  induction m as [| c m IH]; [reflexivity |].
  cbn [length app replace_go]. exact IH.
Qed.

Lemma replace_go_match (r : Regex) (c : N) (m b : jsstr) :
  exec_at r (c :: m ++ b) = Some b ->
  replace_go r 0 (c :: m ++ b) = replace_go r 0 b.
Proof.
  intros Hm. cbn [replace_go]. rewrite Hm.
  replace (length (c :: m ++ b) - length b)%nat with (S (length m))
    by (cbn [length]; rewrite length_app; lia).
  apply replace_go_skip.
Qed.

(** A pattern whose matches all start with [c] leaves text without [c]
    as it is. *)
Lemma replace_go_prefix (r : Regex) (c : N) (a s : jsstr) :
  (forall x t, x <> c -> exec_at r (x :: t) = None) ->
  ~ In c a ->
  replace_go r 0 (a ++ s) = a ++ replace_go r 0 s.
Proof.
  intros Hhead. induction a as [| x a IH]; intros Hnot; [reflexivity |].
  cbn [app replace_go]. rewrite Hhead.
  - f_equal. apply IH. intros Hin. apply Hnot. now right.
  - intros ->. apply Hnot. now left.
Qed.

Lemma replace_go_absent (r : Regex) (c : N) (a : jsstr) :
  (forall x t, x <> c -> exec_at r (x :: t) = None) ->
  ~ In c a ->
  replace_go r 0 a = a.
Proof.
  intros Hhead Hnot.
  rewrite <- (app_nil_r a) at 1.
  rewrite (replace_go_prefix r c a [] Hhead Hnot).
  apply app_nil_r.
Qed.

Lemma csi_head (x : N) (t : jsstr) : x <> ESC -> exec_at csi (x :: t) = None.
Proof.
  intros Hne. unfold exec_at, csi. cbn [seq_of re_match].
  now destruct (N.eqb_spec x ESC).
Qed.

Lemma osc_head (x : N) (t : jsstr) : x <> ESC -> exec_at osc (x :: t) = None.
Proof.
  intros Hne. unfold exec_at, osc. cbn [seq_of re_match].
  now destruct (N.eqb_spec x ESC).
Qed.

Lemma other_head (x : N) (t : jsstr) :
  x <> ESC -> exec_at other (x :: t) = None.
Proof.
  intros Hne. unfold exec_at, other. cbn [seq_of re_match].
  now destruct (N.eqb_spec x ESC).
Qed.

Lemma bel_head (x : N) (t : jsstr) : x <> BEL -> exec_at bel (x :: t) = None.
Proof.
  intros Hne. unfold exec_at, bel. cbn [re_match].
  now destruct (N.eqb_spec x BEL).
Qed.

Lemma plain_text_app (a b : jsstr) :
  plain_text a -> plain_text b -> plain_text (a ++ b).
Proof.
  intros [Ha1 Ha2] [Hb1 Hb2]. split; now apply not_in_app.
Qed.

(** The three later passes leave plain text as it is. *)
Lemma later_passes_plain (s : jsstr) :
  plain_text s ->
  replace_global bel (replace_global other (replace_global osc s)) = s.
Proof.
  intros [Hesc Hbel]. unfold replace_global.
  rewrite (replace_go_absent osc ESC s osc_head Hesc).
  rewrite (replace_go_absent other ESC s other_head Hesc).
  apply (replace_go_absent bel BEL s bel_head Hbel).
Qed.

(** A greedy star over a run of code units of its class, followed by a
    code unit outside the class: if the rest of the pattern matches
    after the whole run, that is the match. *)
Lemma star_greedy_run (p : N -> bool) (run t : jsstr)
    (k : jsstr -> option jsstr) (r : jsstr) :
  Forall (fun c => p c = true) run ->
  match t with c :: _ => p c = false | [] => True end ->
  k t = Some r ->
  star_greedy p (run ++ t) k = Some r.
Proof.
  intros Hrun Ht Hk. induction Hrun as [| c run Hc _ IH].
  - cbn [app]. destruct t as [| c t]; [exact Hk |].
    cbn [star_greedy]. now rewrite Ht.
  - cbn [app star_greedy]. now rewrite Hc, IH.
Qed.

End FilterFacts.

(** X8.  [stripAnsiSequences] only deletes: what it returns for a
    string is a subsequence of that string, with the code units that
    remain in their order. *)
Theorem stripAnsiSequences_only_deletes (s : jsstr) :
  exists out,
    InteractiveServer.stripAnsiSequences (VStr s) = VStr out /\
    sublist out s.
Proof.
  eexists. split; [reflexivity |].
  unfold replace_global.
  etransitivity; [apply replace_go_sublist |].
  etransitivity; [apply replace_go_sublist |].
  etransitivity; [apply replace_go_sublist |].
  apply replace_go_sublist.
Qed.

(** X9.  Text in which neither ESC nor BEL occurs passes through
    [stripAnsiSequences] unchanged. *)
Theorem plain_text_passes_unchanged (s : jsstr) :
  plain_text s ->
  InteractiveServer.stripAnsiSequences (VStr s) = VStr s.
Proof.
  intros Hs. cbn [InteractiveServer.stripAnsiSequences]. f_equal.
  destruct Hs as [Hesc Hbel].
  unfold replace_global at 4.
  rewrite (replace_go_absent InteractiveServer.csi ESC s csi_head Hesc).
  now apply later_passes_plain.
Qed.

(** An instance: a line of output with its line break. *)
Lemma plain_text_passes_unchanged_witness :
  InteractiveServer.stripAnsiSequences (VStr (lit "Enter a number: " ++ [13; LF])) =
    VStr (lit "Enter a number: " ++ [13; LF]).
Proof.
  apply plain_text_passes_unchanged.
  split; vm_compute; intuition discriminate.
Defined.

(** X10.  A CSI sequence between two plain texts is deleted as a whole:
    ESC [, parameter bytes ([0] to [?]), intermediate bytes (space to
    [/]) and one final byte ([@] to [~]). *)
Theorem csi_sequence_removed (a b params inter : jsstr) (final : N) :
  plain_text a -> plain_text b ->
  all_in_range 48 63 params ->
  all_in_range 32 47 inter ->
  in_range 64 126 final = true ->
  InteractiveServer.stripAnsiSequences
    (VStr (a ++ ESC :: 91 :: params ++ inter ++ final :: b)) =
    VStr (a ++ b).
Proof.
  intros Ha Hb Hparams Hinter Hfinal.
  cbn [InteractiveServer.stripAnsiSequences]. f_equal.
  assert (Hcsi :
    replace_global InteractiveServer.csi
      (a ++ ESC :: 91 :: params ++ inter ++ final :: b) = a ++ b).
  { unfold replace_global.
    rewrite (replace_go_prefix _ ESC a _ csi_head (proj1 Ha)).
    f_equal.
    replace (ESC :: 91 :: params ++ inter ++ final :: b)
      with (ESC :: (91 :: params ++ inter ++ [final]) ++ b)
      by (cbn [app]; now rewrite <- !app_assoc).
    rewrite replace_go_match.
    - apply (replace_go_absent _ ESC b csi_head (proj1 Hb)).
    - cbn [app]. rewrite <- !app_assoc. cbn [app].
      unfold exec_at, InteractiveServer.csi.
      cbn [seq_of re_match]. rewrite !N.eqb_refl.
      apply star_greedy_run; [exact Hparams | |].
      + destruct Hinter as [| c inter Hc _]; cbn [app].
        * unfold in_range in *.
          apply andb_true_iff in Hfinal as [H1 H2].
          apply N.leb_le in H1. apply andb_false_iff. right.
          apply N.leb_gt. lia.
        * unfold in_range in *.
          apply andb_true_iff in Hc as [H1 H2].
          apply N.leb_le in H2. apply andb_false_iff. left.
          apply N.leb_gt. lia.
      + apply star_greedy_run; [exact Hinter | |].
        * unfold in_range in *.
          apply andb_true_iff in Hfinal as [H1 H2].
          apply N.leb_le in H1. apply andb_false_iff. right.
          apply N.leb_gt. lia.
        * now rewrite Hfinal. }
  rewrite Hcsi. apply later_passes_plain. now apply plain_text_app.
Qed.

(** An instance: the colour sequence ESC [ 1 ; 3 1 m in front of a
    word. *)
Lemma csi_sequence_removed_witness :
  InteractiveServer.stripAnsiSequences
    (VStr (lit "error: " ++ ESC :: 91 :: lit "1;31" ++ [] ++ 109 :: lit "fatal")) =
    VStr (lit "error: " ++ lit "fatal").
Proof.
  apply csi_sequence_removed;
    first [ reflexivity
          | split; vm_compute; intuition discriminate
          | repeat constructor ].
Defined.

(** X11.  An OSC sequence between two plain texts is deleted as a
    whole: ESC ], a text without ESC and BEL, and the terminator BEL or
    ESC \. *)
Theorem osc_sequence_removed (a b text terminator : jsstr) :
  plain_text a -> plain_text b -> plain_text text ->
  terminator = [BEL] \/ terminator = [ESC; BACKSLASH] ->
  InteractiveServer.stripAnsiSequences
    (VStr (a ++ ESC :: 93 :: text ++ terminator ++ b)) =
    VStr (a ++ b).
Proof.
  intros Ha Hb Htext Hterm.
  cbn [InteractiveServer.stripAnsiSequences]. f_equal.
  assert (Hclass : Forall (fun c => negb ((c =? BEL) || (c =? ESC)) = true) text).
  { apply List.Forall_forall. intros c Hc.
    destruct Htext as [Hesc Hbel].
    destruct (N.eqb_spec c BEL) as [-> | _]; [contradiction |].
    destruct (N.eqb_spec c ESC) as [-> | _]; [contradiction | reflexivity]. }
  assert (Hcsi :
    replace_global InteractiveServer.csi
      (a ++ ESC :: 93 :: text ++ terminator ++ b) =
      a ++ ESC :: 93 :: text ++ terminator ++ b).
  { unfold replace_global.
    rewrite (replace_go_prefix _ ESC a _ csi_head (proj1 Ha)).
    f_equal. cbn [replace_go].
    replace (exec_at InteractiveServer.csi
               (ESC :: 93 :: text ++ terminator ++ b)) with (@None jsstr)
      by reflexivity.
    f_equal. cbn [replace_go].
    rewrite csi_head by discriminate. f_equal.
    rewrite (replace_go_prefix _ ESC text _ csi_head (proj1 Htext)).
    f_equal.
    destruct Hterm as [-> | ->]; cbn [app replace_go].
    - rewrite csi_head by discriminate. f_equal.
      apply (replace_go_absent _ ESC b csi_head (proj1 Hb)).
    - replace (exec_at InteractiveServer.csi (ESC :: BACKSLASH :: b))
        with (@None jsstr) by reflexivity.
      f_equal. rewrite csi_head by discriminate. f_equal.
      apply (replace_go_absent _ ESC b csi_head (proj1 Hb)). }
  rewrite Hcsi.
  assert (Hosc :
    replace_global InteractiveServer.osc
      (a ++ ESC :: 93 :: text ++ terminator ++ b) = a ++ b).
  { unfold replace_global.
    rewrite (replace_go_prefix _ ESC a _ osc_head (proj1 Ha)).
    f_equal.
    replace (ESC :: 93 :: text ++ terminator ++ b)
      with (ESC :: (93 :: text ++ terminator) ++ b)
      by (cbn [app]; now rewrite <- !app_assoc).
    rewrite replace_go_match.
    - apply (replace_go_absent _ ESC b osc_head (proj1 Hb)).
    - cbn [app]. rewrite <- !app_assoc.
      unfold exec_at, InteractiveServer.osc.
      cbn [seq_of re_match]. rewrite !N.eqb_refl.
      destruct Hterm as [-> | ->]; cbn [app];
        (apply star_greedy_run; [exact Hclass | reflexivity | reflexivity]). }
  unfold replace_global in Hosc |- *. rewrite Hosc.
  destruct Ha as [Ha1 Ha2], Hb as [Hb1 Hb2].
  rewrite (replace_go_absent _ ESC (a ++ b) other_head)
    by now apply not_in_app.
  apply (replace_go_absent _ BEL (a ++ b) bel_head). now apply not_in_app.
Qed.

(** An instance: the sequence that sets the window title, in front of a
    prompt. *)
Lemma osc_sequence_removed_witness :
  InteractiveServer.stripAnsiSequences
    (VStr ([] ++ ESC :: 93 :: lit "0;user@host" ++ [BEL] ++ lit "$ ")) =
    VStr ([] ++ lit "$ ").
Proof.
  apply osc_sequence_removed;
    first [ now left
          | split; vm_compute; intuition discriminate ].
Defined.

(* ===================================================================== *)
(** ** More about the interactive session                                 *)
(* ===================================================================== *)

Section SessionFacts.

Import InteractiveServer.

Lemma step_bel_free (s : Session) (e : Event) :
  Forall bel_free (sent s) -> Forall bel_free (sent (step s e)).
Proof.
  intros Hs. destruct e as [type code data | cb | pid data | pid | rm].
  - cbn [step].
    destruct (str_eqb type (lit "code")); cbn [with_host term sent];
      (destruct (str_eqb type (lit "stdin")); [| exact Hs]);
      (destruct (term s); exact Hs).
  - cbn [step]. destruct (cb_error cb); [| exact Hs].
    cbn [send sent]. apply Forall_app. split; [exact Hs |].
    now repeat constructor.
  - cbn [step send sent]. apply Forall_app. split; [exact Hs |].
    constructor; [| constructor].
    destruct data; try exact I.
    cbn [stripAnsiSequences bel_free].
    unfold replace_global at 1. apply replace_bel_no_bel.
  - cbn [step send sent]. apply Forall_app. split; [exact Hs |].
    now repeat constructor.
  - exact Hs.
Qed.

Lemma run_bel_free (events : list Event) :
  forall s, Forall bel_free (sent s) -> Forall bel_free (sent (run s events)).
Proof.
  induction events as [| e events IH]; intros s Hs; [exact Hs |].
  cbn [run fold_left]. apply IH, step_bel_free, Hs.
Qed.

(** Every handler but the one of [close] keeps the directory of the
    session and what exists on the host. *)
Lemma step_keeps_workspace (s : Session) (e : Event) :
  is_close e = false ->
  workspaceDir (step s e) = workspaceDir s /\
  dirs (host (step s e)) = dirs (host s).
Proof.
  intros He. destruct e as [type code data | cb | pid data | pid | rm];
    [| | | | discriminate He]; cbn [step].
  - destruct (str_eqb type (lit "code")); cbn [with_host term];
      (destruct (str_eqb type (lit "stdin")); [| now split]);
      (destruct (term s); now split).
  - destruct (cb_error cb); now split.
  - now split.
  - now split.
Qed.

(** Without a compile command that went well, [ws.term] stays unset
    and nothing is written. *)
Lemma step_without_program (s : Session) (e : Event) :
  starts_program e = false ->
  term s = None -> written s = [] ->
  term (step s e) = None /\ written (step s e) = [].
Proof.
  intros He Hterm Hwritten.
  destruct e as [type code data | cb | pid data | pid | rm]; cbn [step].
  - destruct (str_eqb type (lit "code")); cbn [with_host term];
      (destruct (str_eqb type (lit "stdin")); [| now split]);
      rewrite Hterm; now split.
  - cbn [starts_program] in He.
    destruct (cb_error cb); [now split | discriminate He].
  - now split.
  - now split.
  - now split.
Qed.

Lemma run_without_program (events : list Event) :
  Forall (fun e => starts_program e = false) events ->
  forall s, term s = None -> written s = [] ->
  term (run s events) = None /\ written (run s events) = [].
Proof.
  induction 1 as [| e events He _ IH]; intros s Hterm Hwritten;
    [now split |].
  cbn [run fold_left].
  destruct (step_without_program s e He Hterm Hwritten) as [Ht Hw].
  now apply IH.
Qed.

End SessionFacts.

(** X12.  Whatever happens on a connection, no output message the
    session has sent carries a BEL in its string data. *)
Theorem stdout_messages_carry_no_bel
    (tmpdir sessionId : jsstr) (h : Host) (pid0 : N) (running : gset N)
    (events : list InteractiveServer.Event) :
  Forall bel_free
    (InteractiveServer.sent
       (InteractiveServer.run
          (InteractiveServer.connect tmpdir sessionId h pid0 running)
          events)).
Proof.
  apply run_bel_free. constructor.
Qed.

(** X13.  Until the socket is closed the session keeps one workspace:
    the directory made at the connection is the directory of every
    later event, and it exists. *)
Theorem workspace_kept_until_close
    (tmpdir sessionId : jsstr) (h : Host) (pid0 : N) (running : gset N)
    (events : list InteractiveServer.Event) :
  Forall (fun e => is_close e = false) events ->
  let s :=
    InteractiveServer.run
      (InteractiveServer.connect tmpdir sessionId h pid0 running) events in
  InteractiveServer.workspaceDir s =
    path_join tmpdir (lit "c-runner-" ++ sessionId) /\
  InteractiveServer.workspaceDir s ∈ dirs (InteractiveServer.host s).
Proof.
  intros Hev.
  set (s0 := InteractiveServer.connect tmpdir sessionId h pid0 running).
  assert (H0 : InteractiveServer.workspaceDir s0 =
                 path_join tmpdir (lit "c-runner-" ++ sessionId) /\
               InteractiveServer.workspaceDir s0 ∈
                 dirs (InteractiveServer.host s0)).
  { split; [reflexivity |].
    cbn [s0 InteractiveServer.connect InteractiveServer.workspaceDir
         InteractiveServer.host fs_mkdir snd dirs].
    apply elem_of_with_dir_self. }
  clearbody s0. revert s0 H0.
  induction Hev as [| e events He _ IH]; intros s0 H0; [exact H0 |].
  cbn [InteractiveServer.run fold_left]. apply IH.
  destruct (step_keeps_workspace s0 e He) as [Hw Hd].
  now rewrite Hw, Hd.
Qed.

(** An instance: the client sends a program twice; the first does not
    compile, the second runs and prints. *)
Lemma workspace_kept_witness :
  let s :=
    InteractiveServer.run
      (InteractiveServer.connect (lit "/tmp") (lit "s1")
         Examples.empty_host 1 ∅)
      [ InteractiveServer.Message (lit "code") (lit "int main(") VUndefined;
        InteractiveServer.CompileDone
          {| cb_error := callback_error (Exited 1);
             cb_stdout := [];
             cb_stderr := lit "main.c:1:10: error: expected declaration" |};
        InteractiveServer.Message (lit "code") Examples.main_c VUndefined;
        InteractiveServer.CompileDone
          {| cb_error := None; cb_stdout := []; cb_stderr := [] |};
        InteractiveServer.TermData 1 (VStr (lit "Hello")) ] in
  InteractiveServer.workspaceDir s = lit "/tmp/c-runner-s1" /\
  InteractiveServer.workspaceDir s ∈ dirs (InteractiveServer.host s).
Proof.
  intros s.
  apply (workspace_kept_until_close (lit "/tmp") (lit "s1")).
  repeat constructor.
Defined.

(** X14.  Input that arrives before a program was started is dropped:
    when no compile command has gone well so far, the session goes on
    after a [stdin] message exactly as if the message had not been
    sent, whatever happens later.  Nothing is written, nothing is
    kept, and nothing is delivered once a program is started. *)
Theorem input_before_start_is_dropped
    (tmpdir sessionId code : jsstr) (data : JsVal) (h : Host) (pid0 : N)
    (running : gset N) (before after : list InteractiveServer.Event) :
  Forall (fun e => starts_program e = false) before ->
  let s0 := InteractiveServer.connect tmpdir sessionId h pid0 running in
  InteractiveServer.run s0
    (before ++ InteractiveServer.Message (lit "stdin") code data :: after) =
  InteractiveServer.run s0 (before ++ after).
Proof.
  intros Hbefore s0.
  unfold InteractiveServer.run. rewrite !fold_left_app. cbn [fold_left].
  f_equal.
  destruct (run_without_program before Hbefore s0) as [Hterm _];
    [reflexivity | reflexivity |].
  unfold InteractiveServer.run in Hterm.
  set (s := fold_left InteractiveServer.step before s0) in *.
  cbn [InteractiveServer.step].
  change (str_eqb (lit "stdin") (lit "code")) with false.
  change (str_eqb (lit "stdin") (lit "stdin")) with true.
  cbv iota. now rewrite Hterm.
Qed.

(** An instance: the client types while the compile command is still
    running; the program that is started then never gets the line. *)
Lemma input_before_start_witness :
  let s0 := InteractiveServer.connect (lit "/tmp") (lit "s1")
              Examples.empty_host 1 ∅ in
  let sent_code :=
    InteractiveServer.Message (lit "code") Examples.main_c VUndefined in
  let typed :=
    InteractiveServer.Message (lit "stdin") [] (VStr (lit "42" ++ [LF])) in
  let started := InteractiveServer.CompileDone Examples.compiled_ok in
  InteractiveServer.run s0 ([sent_code] ++ typed :: [started]) =
  InteractiveServer.run s0 ([sent_code] ++ [started]).
Proof.
  intros s0 sent_code typed started.
  apply (input_before_start_is_dropped (lit "/tmp") (lit "s1") []
           (VStr (lit "42" ++ [LF])) Examples.empty_host 1 ∅
           [sent_code] [started]).
  repeat constructor.
Defined.

(* ===================================================================== *)
(** ** The containers                                                     *)
(* ===================================================================== *)

Import Sandbox.


(* ===================================================================== *)
(** ** The pages                                                          *)
(* ===================================================================== *)

Import Frontend.

Section PageFacts.

Lemma receive_output (msgs : list Incoming) :
  forall p, outputData (receive p msgs) =
            outputData p ++ concat (map stdout_data msgs).
Proof.
  induction msgs as [| m msgs IH]; intros p.
  - cbn. now rewrite app_nil_r.
  - cbn [receive fold_left map concat]. fold (receive (onmessage p m) msgs).
    rewrite IH. destruct m; cbn [onmessage outputData stdout_data app].
    + now rewrite <- app_assoc.
    + reflexivity.
    + reflexivity.
Qed.

Lemma receive_app (p : Page) (msgs more : list Incoming) :
  receive p (msgs ++ more) = receive (receive p msgs) more.
Proof. apply fold_left_app. Qed.

(** An exit code that [|| 1] has gone through is not the number 0, also
    after the JSON round trip. *)
Lemma or_one_not_zero (v : JsVal) :
  strict_eq (through_json (js_or v (VNum 1))) (VNum 0) = false.
Proof.
  destruct v as [| | b | z | | s | | neg]; try reflexivity.
  - now destruct b.
  - unfold js_or. cbn [truthy]. destruct (Z.eqb_spec z 0) as [-> | Hne].
    + reflexivity.
    + cbn [negb through_json strict_eq]. now apply Z.eqb_neq.
  - unfold js_or. cbn [truthy]. now destruct (negb (str_eqb s [])).
Qed.

End PageFacts.

(** X16.  A request that reaches the handler with a [code] that is
    missing, not a string or empty is answered with status 400, and the
    page [Index] shows it as a failure to connect: [axios] rejects the
    400 response, and the [catch] block of [runCode] replaces the
    message of the server. *)
Theorem rejected_request_shown_as_connection_failure
    (compileCode : World -> jsstr -> M CompileResult)
    (executeCode : World -> jsstr -> M ExecuteResult)
    (w : World) (req : Request) (h : Host) :
  is_string (req_code req) = false \/ req_code req = VStr [] ->
  exists resp,
    Batch.api_run compileCode executeCode w req h = (Returned resp, h) /\
    status resp = 400 /\
    runCode resp = connection_failure /\
    getStatusBadge (Some (runCode resp)) = Some RuntimeErrorBadge.
Proof.
  intros Hbad. rewrite (api_run_invalid _ _ w req h Hbad).
  eexists. split; [reflexivity |]. now repeat split.
Qed.

(** An instance: the editor is empty, so that [code] is the empty
    string. *)
Lemma rejected_request_witness :
  exists resp,
    IndexExecFile.api_run
      (Examples.world Examples.compiled_ok Examples.compiled_ok None)
      {| req_code := VStr []; req_stdin := VStr [] |}
      Examples.empty_host = (Returned resp, Examples.empty_host) /\
    status resp = 400 /\
    runCode resp = connection_failure /\
    getStatusBadge (Some (runCode resp)) = Some RuntimeErrorBadge.
Proof.
  apply rejected_request_shown_as_connection_failure.
  now right.
Defined.

(** X17.  In the marker snapshot a build that failed is never shown as
    a success by the page [Index]: with diagnostics it is shown as a
    compile error, without as a runtime error. *)
Theorem failed_build_never_shown_as_success
    (w : World) (req : Request) (src : jsstr) (h : Host) (e : JsError) :
  accepted req src ->
  text_stdin req ->
  workspace_ready w ->
  cb_error (w_compile w) = Some e ->
  exists resp h',
    IndexMarkers.api_run w req h = (Returned resp, h') /\
    getStatusBadge (Some (runCode resp)) =
      Some (if str_eqb (cb_stderr (w_compile w)) []
            then RuntimeErrorBadge else CompileErrorBadge).
Proof.
  intros Hacc Htext Hready Herr.
  pose proof (api_run_ready _ _ _ _ _ _
                markers_compileCode_runs markers_executeCode_runs
                w req src h Hacc Htext Hready) as Hrun.
  cbv beta zeta in Hrun.
  unfold IndexMarkers.compile_result in Hrun. rewrite Herr in Hrun.
  cbn [c_error c_stderr c_exitCode] in Hrun.
  do 2 eexists. split; [exact Hrun |].
  unfold runCode, axios_resolves. cbn [status N.leb N.ltb andb].
  change ((200 <=? 200) && (200 <? 300)) with true. cbv iota.
  unfold getStatusBadge, of_response.
  cbn [r_compileError r_timedOut r_exitCode compileError timedOut exitCode
       truthy through_json].
  destruct (str_eqb (cb_stderr (w_compile w)) []); cbn [negb].
  - now rewrite or_one_not_zero.
  - reflexivity.
Qed.

(** An instance: the compile command is killed by its timer and has
    written nothing. *)
Lemma failed_build_witness :
  exists resp h',
    IndexMarkers.api_run
      (Examples.world Examples.compile_timed_out Examples.compiled_ok None)
      Examples.request Examples.empty_host = (Returned resp, h') /\
    getStatusBadge (Some (runCode resp)) = Some RuntimeErrorBadge.
Proof.
  destruct (failed_build_never_shown_as_success
              (Examples.world Examples.compile_timed_out
                 Examples.compiled_ok None)
              Examples.request Examples.main_c Examples.empty_host
              {| err_message := lit "Command failed";
                 err_code := VNull; err_killed := VBool true |})
    as (resp & h' & Hrun & Hbadge).
  - repeat split; [discriminate | vm_compute; discriminate].
  - now right.
  - repeat split.
  - reflexivity.
  - exists resp, h'. split; [exact Hrun | exact Hbadge].
Defined.

(** X18.  In the execFile snapshot a build that its timer killed and
    that left no diagnostics is answered with exit code 0, and the page
    [Index] shows it as a success. *)
Theorem silent_killed_build_shown_as_success
    (w : World) (req : Request) (src : jsstr) (h : Host) :
  accepted req src ->
  text_stdin req ->
  workspace_ready w ->
  cb_error (w_compile w) = callback_error TimerKilled ->
  trim (cb_stderr (w_compile w)) = [] ->
  exists resp h',
    IndexExecFile.api_run w req h = (Returned resp, h') /\
    exitCode resp = VNum 0 /\
    getStatusBadge (Some (runCode resp)) = Some SuccessBadge.
Proof.
  intros Hacc Htext Hready Herr Hquiet.
  pose proof (api_run_ready _ _ _ _ _ _
                execfile_compileCode_runs execfile_executeCode_runs
                w req src h Hacc Htext Hready) as Hrun.
  cbv beta zeta in Hrun.
  unfold IndexExecFile.compile_result in Hrun. rewrite Herr, Hquiet in Hrun.
  cbn [callback_error c_error c_stderr c_exitCode opt_code err_code] in Hrun.
  do 2 eexists. split; [exact Hrun |]. split; reflexivity.
Qed.

(** An instance: the example of a compile command killed by its
    timer. *)
Lemma silent_killed_build_witness :
  exists resp h',
    IndexExecFile.api_run
      (Examples.world Examples.compile_timed_out Examples.compiled_ok None)
      Examples.request Examples.empty_host = (Returned resp, h') /\
    exitCode resp = VNum 0 /\
    getStatusBadge (Some (runCode resp)) = Some SuccessBadge.
Proof.
  apply (silent_killed_build_shown_as_success _ _ Examples.main_c).
  - repeat split; [discriminate | vm_compute; discriminate].
  - now right.
  - repeat split.
  - reflexivity.
  - reflexivity.
Defined.

(** X19.  The first [App] never sends an empty [stdin], and what it
    sends differs from what the user typed by white space only: blank
    input goes out as a line feed, every other input as it is. *)
Theorem inputToSend_never_empty (stdin : jsstr) :
  inputToSend stdin <> [] /\ trim (inputToSend stdin) = trim stdin.
Proof.
  unfold inputToSend.
  destruct (str_eqb (trim stdin) []) eqn:Hblank.
  - split; [discriminate |].
    apply bool_decide_eq_true_1 in Hblank. now rewrite Hblank.
  - split; [| reflexivity].
    intros ->. discriminate Hblank.
Qed.

(** X20.  During an interactive run the later [App], after every output
    message, shows all the output received so far, also when a compile
    error came in between; and it shows the run as a success as soon
    as that output is not empty. *)
Theorem page_shows_all_output_so_far (msgs : list Incoming) (data : jsstr) :
  let output := concat (map stdout_data msgs) ++ data in
  let p := receive opened (msgs ++ [InStdout data]) in
  result p = Some (only_stdout output) /\
  (output <> [] -> getStatusBadge_App (result p) = Some SuccessBadge).
Proof.
  intros output p.
  assert (Hres : result p = Some (only_stdout output)).
  { unfold p. rewrite receive_app. cbn [receive fold_left onmessage result].
    fold (receive opened msgs). now rewrite receive_output. }
  split; [exact Hres |].
  intros Hne. rewrite Hres.
  cbn [getStatusBadge_App only_stdout r_compileError r_timedOut r_exitCode
       r_stdout truthy strict_eq orb].
  now rewrite (str_eqb_nil_false _ Hne).
Qed.

(** An instance: a prompt, a compile error of a second program, and an
    answer. *)
Lemma page_shows_all_output_witness :
  let p := receive opened
             [InStdout (lit "Name? "); InCompileError (lit "error");
              InStdout (lit "Hello")] in
  result p = Some (only_stdout (lit "Name? Hello")) /\
  getStatusBadge_App (result p) = Some SuccessBadge.
Proof.
  destruct (page_shows_all_output_so_far
              [InStdout (lit "Name? "); InCompileError (lit "error")]
              (lit "Hello")) as [Hres Hbadge].
  split; [exact Hres | apply Hbadge; discriminate].
Defined.

(* ===================================================================== *)
(** ** The marker snapshot on ordinary output                             *)
(* ===================================================================== *)

(** X21.  In the marker snapshot the text of a program that printed no
    backslash followed by [n] does not reach the response: the blob is
    cut at that separator and not at line feeds, the marker lines are
    not found, and [stdout] and [stderr] are empty whatever the program
    wrote. *)
Theorem marker_snapshot_reports_empty_streams
    (w : World) (req : Request) (src : jsstr) (h : Host) (r : ProgramRun) :
  accepted req src ->
  text_stdin req ->
  workspace_ready w ->
  cb_error (w_compile w) = None ->
  separator_free (program_out r) -> separator_free (program_err r) ->
  exists resp h',
    IndexMarkers.api_run
      (with_run w (IndexMarkers.container_callback r)) req h
      = (Returned resp, h') /\
    stdout resp = [] /\ stderr resp = [].
Proof.
  intros Hacc Htext Hready Hbuild Hout Herr.
  pose proof (api_run_ready _ _ _ _ _ _
                markers_compileCode_runs markers_executeCode_runs
                (with_run w (IndexMarkers.container_callback r))
                req src h Hacc Htext Hready) as Hrun.
  cbv beta zeta in Hrun.
  do 2 eexists. split; [exact Hrun |].
  unfold IndexMarkers.compile_result. cbn [with_run w_compile w_run].
  rewrite Hbuild. cbn [c_error stdout stderr].
  rewrite (parse_execution_container r Hout Herr).
  split; reflexivity.
Qed.

(** An instance: the program prints one line on each stream and ends
    with status 0. *)
Lemma marker_snapshot_empty_streams_witness :
  exists resp h',
    IndexMarkers.api_run
      (with_run
         (Examples.world Examples.compiled_ok Examples.compiled_ok None)
         (IndexMarkers.container_callback
            {| program_out := lit "Hello, World!" ++ [LF];
               program_err := lit "warning" ++ [LF];
               program_end := Ended 0 |}))
      Examples.request Examples.empty_host = (Returned resp, h') /\
    stdout resp = [] /\ stderr resp = [].
Proof.
  apply (marker_snapshot_reports_empty_streams _ _ Examples.main_c).
  - repeat split; [discriminate | vm_compute; discriminate].
  - now right.
  - repeat split.
  - reflexivity.
  - reflexivity.
  - reflexivity.
Defined.

(* ===================================================================== *)
(** ** The first snapshot of the interactive server                       *)
(* ===================================================================== *)

Section FirstSnapshotFacts.

(** No handler of the first snapshot removes a directory, and the
    directory of the session stays the same. *)
Lemma first_step_keeps (s : InteractiveFirst.Session)
    (e : InteractiveServer.Event) :
  InteractiveFirst.workspaceDir (InteractiveFirst.step s e) =
    InteractiveFirst.workspaceDir s /\
  dirs (InteractiveFirst.host s) ⊆
    dirs (InteractiveFirst.host (InteractiveFirst.step s e)).
Proof.
  destruct e as [type code data | cb | pid data | pid | rm];
    cbn [InteractiveFirst.step].
  - destruct (str_eqb type (lit "code"));
      (destruct (str_eqb type (lit "stdin"));
       cbn [InteractiveFirst.workspaceDir InteractiveFirst.host fs_mkdir
            fs_writeFile snd log dirs];
       split; reflexivity || (unfold with_dir; set_solver)).
  - destruct (cb_error cb); split; reflexivity || set_solver.
  - split; reflexivity || set_solver.
  - split; reflexivity || set_solver.
  - split; reflexivity || set_solver.
Qed.

Lemma first_run_keeps (events : list InteractiveServer.Event) :
  forall s,
    InteractiveFirst.workspaceDir (InteractiveFirst.run s events) =
      InteractiveFirst.workspaceDir s /\
    dirs (InteractiveFirst.host s) ⊆
      dirs (InteractiveFirst.host (InteractiveFirst.run s events)).
Proof.
  induction events as [| e events IH]; intros s.
  - split; reflexivity || set_solver.
  - cbn [InteractiveFirst.run fold_left].
    pose proof (IH (InteractiveFirst.step s e)) as [Hw Hd].
    destruct (first_step_keeps s e) as [Hw1 Hd1].
    split; [now rewrite <- Hw1 |].
    now transitivity (dirs (InteractiveFirst.host (InteractiveFirst.step s e))).
Qed.

Lemma first_run_app (s : InteractiveFirst.Session)
    (events more : list InteractiveServer.Event) :
  InteractiveFirst.run s (events ++ more) =
    InteractiveFirst.run (InteractiveFirst.run s events) more.
Proof. apply fold_left_app. Qed.

(** One more terminal per compile command that went well. *)
Lemma first_run_terms (events : list InteractiveServer.Event) :
  forall s,
    length (InteractiveFirst.terms (InteractiveFirst.run s events)) =
      (length (InteractiveFirst.terms s) + programs_started events)%nat.
Proof.
  unfold programs_started, InteractiveFirst.run.
  induction events as [| e events IH]; intros s.
  - cbn. lia.
  - cbn [fold_left List.filter]. rewrite IH.
    destruct e as [type code data | cb | pid data | pid | rm];
      cbn [InteractiveFirst.step starts_program].
    + destruct (str_eqb type (lit "code"));
        destruct (str_eqb type (lit "stdin")); reflexivity.
    + destruct (cb_error cb); cbn [InteractiveFirst.send InteractiveFirst.terms length].
      * reflexivity.
      * rewrite length_app. cbn [length]. lia.
    + reflexivity.
    + reflexivity.
    + reflexivity.
Qed.

End FirstSnapshotFacts.

(** X22.  The first snapshot of the interactive server never removes a
    workspace: once a program has been received, the directory of the
    session exists after every later event, the close of the socket
    included, and no directory that existed at the connection is
    gone. *)
Theorem first_snapshot_never_removes_workspace
    (tmpdir sessionId code : jsstr) (data : JsVal) (h : Host) (pid0 : N)
    (before after : list InteractiveServer.Event) :
  let s :=
    InteractiveFirst.run (InteractiveFirst.connect tmpdir sessionId h pid0)
      (before ++ InteractiveServer.Message (lit "code") code data :: after) in
  path_join tmpdir (lit "c-runner-" ++ sessionId) ∈
    dirs (InteractiveFirst.host s) /\
  dirs h ⊆ dirs (InteractiveFirst.host s).
Proof.
  intros s. subst s. rewrite first_run_app.
  set (s0 := InteractiveFirst.connect tmpdir sessionId h pid0).
  destruct (first_run_keeps before s0) as [Hw Hd].
  set (s1 := InteractiveFirst.run s0 before) in *.
  cbn [InteractiveFirst.run fold_left].
  set (s2 := InteractiveFirst.step s1
               (InteractiveServer.Message (lit "code") code data)).
  destruct (first_run_keeps after s2) as [_ Hd2].
  fold (InteractiveFirst.run s2 after).
  assert (Hmade : path_join tmpdir (lit "c-runner-" ++ sessionId) ∈
                    dirs (InteractiveFirst.host s2)).
  { subst s2. cbn [InteractiveFirst.step].
    change (str_eqb (lit "code") (lit "code")) with true.
    change (str_eqb (lit "code") (lit "stdin")) with false.
    cbv iota.
    cbn [InteractiveFirst.host fs_mkdir fs_writeFile snd log dirs].
    rewrite Hw. cbn [s0 InteractiveFirst.connect InteractiveFirst.workspaceDir].
    apply elem_of_with_dir_self. }
  destruct (first_step_keeps s1
              (InteractiveServer.Message (lit "code") code data)) as [_ Hd1].
  fold s2 in Hd1.
  split; [now apply Hd2 |].
  change (dirs h) with (dirs (InteractiveFirst.host s0)).
  transitivity (dirs (InteractiveFirst.host s1)); [exact Hd |].
  now transitivity (dirs (InteractiveFirst.host s2)).
Qed.

(** X23.  In the first snapshot every compile command that went well
    leaves one more [message] handler on the socket: a line of input is
    written once for each program started on the connection so far. *)
Theorem input_written_once_per_program
    (tmpdir sessionId code : jsstr) (data : JsVal) (h : Host) (pid0 : N)
    (events : list InteractiveServer.Event) :
  let s :=
    InteractiveFirst.run (InteractiveFirst.connect tmpdir sessionId h pid0)
      events in
  length (InteractiveFirst.written
            (InteractiveFirst.step s
               (InteractiveServer.Message (lit "stdin") code data))) =
    (length (InteractiveFirst.written s) + programs_started events)%nat.
Proof.
  intros s. cbn [InteractiveFirst.step].
  change (str_eqb (lit "stdin") (lit "code")) with false.
  change (str_eqb (lit "stdin") (lit "stdin")) with true.
  cbv iota. cbn [InteractiveFirst.written].
  rewrite length_app, length_map. f_equal.
  subst s. now rewrite first_run_terms.
Qed.

(* ===================================================================== *)
(** ** A [stdin] that is not a string, and output beyond the buffer       *)
(* ===================================================================== *)

Section CrashFacts.

Lemma handler_stdin_string (req : Request) (text : jsstr) :
  handler_stdin req = VStr text -> text_stdin req.
Proof.
  unfold handler_stdin, text_stdin.
  destruct (req_stdin req); try discriminate; intros _;
    [now right | now left].
Qed.

End CrashFacts.

(** X24.  A request the Gateway lets through with a [stdin] that is
    neither a string nor absent ends the process, when the workspace
    has been made and [main.c] written: there is no response, the
    effects are those two, no command is started, the clean-up does not
    run and the workspace stays. *)
Theorem non_string_stdin_ends_the_process
    (compileCode : World -> jsstr -> M CompileResult)
    (executeCode : World -> jsstr -> M ExecuteResult)
    (w : World) (req : Request) (src : jsstr) (h : Host) :
  accepted req src ->
  ~ text_stdin req ->
  w_mkdir w = None ->
  w_write_main w = None ->
  let d := workspace_of w in
  exists h',
    Batch.api_run compileCode executeCode w req h = (Died, h') /\
    effects_since h h' =
      [EMkdir d; EWriteFile (path_join d (lit "main.c")) src] /\
    d ∈ dirs h'.
Proof.
  intros Hacc Hnot Hmk Hmain d.
  rewrite (api_run_accepted _ _ w req src Hacc).
  unfold createWorkspace, try_finally, try_catch, bind, fs_mkdir,
    fs_writeFile, die.
  rewrite Hmk, Hmain. cbv beta iota.
  destruct (handler_stdin req) as [| | b | z | | text | | neg] eqn:Hstdin;
    try (exists {| dirs := with_dir d (dirs h);
                   trace := trace h ++
                     [EMkdir d; EWriteFile (path_join d (lit "main.c")) src] |};
         split;
         [unfold log; cbn [dirs trace]; now rewrite <- app_assoc
         | split; [apply effects_since_app | apply elem_of_with_dir_self]]).
  destruct Hnot. now apply (handler_stdin_string req text).
Qed.

(** An instance: [stdin] is the number 5. *)
Lemma non_string_stdin_witness :
  let w := Examples.world Examples.compiled_ok Examples.compiled_ok None in
  let d := workspace_of w in
  exists h',
    IndexMarkers.api_run w Examples.request_with_number Examples.empty_host
      = (Died, h') /\
    effects_since Examples.empty_host h' =
      [EMkdir d; EWriteFile (path_join d (lit "main.c")) Examples.main_c] /\
    d ∈ dirs h'.
Proof.
  intros w d.
  apply (non_string_stdin_ends_the_process
           IndexMarkers.compileCode IndexMarkers.executeCode
           w Examples.request_with_number Examples.main_c Examples.empty_host).
  - repeat split; [discriminate | vm_compute; discriminate].
  - intros [Hs | Hu]; discriminate.
  - reflexivity.
  - reflexivity.
Defined.

(** X25.  In the [execFile] snapshot a program that ends by itself
    after writing more on one of its streams than the buffer of
    [execFile] holds is not reported with its status: the exit code of
    the response is the string [ERR_CHILD_PROCESS_STDIO_MAXBUFFER],
    [timedOut] is false, the streams are what [execFile] had kept,
    trimmed, and the page [Index] shows a runtime error, also when the
    program ended with status 0. *)
Theorem overflowing_run_reported_with_error_code
    (w : World) (req : Request) (src : jsstr) (h : Host)
    (r : ProgramRun) (k : IndexExecFile.Overflow) (st : N) :
  accepted req src ->
  text_stdin req ->
  workspace_ready w ->
  cb_error (w_compile w) = None ->
  program_end r = Ended st ->
  IndexExecFile.fits_buffer r = false ->
  exists h',
    IndexExecFile.api_run
      (with_run w (IndexExecFile.container_callback r k)) req h =
      (Returned
         {| status := 200;
            stdout := trim (IndexExecFile.kept_out k);
            stderr := trim (IndexExecFile.kept_err k);
            compileError := [];
            exitCode := VStr (lit "ERR_CHILD_PROCESS_STDIO_MAXBUFFER");
            timedOut := VBool false |}, h') /\
    getStatusBadge
      (Some (runCode
               {| status := 200;
                  stdout := trim (IndexExecFile.kept_out k);
                  stderr := trim (IndexExecFile.kept_err k);
                  compileError := [];
                  exitCode := VStr (lit "ERR_CHILD_PROCESS_STDIO_MAXBUFFER");
                  timedOut := VBool false |})) = Some RuntimeErrorBadge.
Proof.
  intros Hacc Htext Hready Hbuild Hend Hover.
  pose proof (api_run_ready _ _ _ _ _ _
                execfile_compileCode_runs execfile_executeCode_runs
                (with_run w (IndexExecFile.container_callback r k))
                req src h Hacc Htext Hready) as Hrun.
  cbv beta zeta in Hrun.
  assert (Hreported :
    IndexExecFile.execution_result (IndexExecFile.container_callback r k) =
      {| e_stdout := trim (IndexExecFile.kept_out k);
         e_stderr := trim (IndexExecFile.kept_err k);
         e_exitCode := VStr (lit "ERR_CHILD_PROCESS_STDIO_MAXBUFFER");
         e_timedOut := VBool false |}).
  { unfold IndexExecFile.execution_result, IndexExecFile.container_callback.
    rewrite Hend, Hover. reflexivity. }
  unfold IndexExecFile.compile_result in Hrun.
  cbn [with_run w_compile w_run] in Hrun.
  rewrite Hbuild, Hreported in Hrun.
  cbn [c_error e_stdout e_stderr e_exitCode e_timedOut] in Hrun.
  eexists. split; [exact Hrun | reflexivity].
Qed.

(** An instance: a program that prints 1024 * 1024 + 1 letters and
    returns 0. *)
Lemma overflowing_run_witness :
  let w := Examples.world Examples.compiled_ok Examples.compiled_ok None in
  exists resp h',
    IndexExecFile.api_run
      (with_run w
         (IndexExecFile.container_callback Examples.flood Examples.flood_kept))
      Examples.request Examples.empty_host = (Returned resp, h') /\
    exitCode resp = VStr (lit "ERR_CHILD_PROCESS_STDIO_MAXBUFFER") /\
    timedOut resp = VBool false /\
    getStatusBadge (Some (runCode resp)) = Some RuntimeErrorBadge.
Proof.
  intros w.
  destruct (overflowing_run_reported_with_error_code
              w Examples.request Examples.main_c Examples.empty_host
              Examples.flood Examples.flood_kept 0)
    as (h' & Hrun & Hbadge).
  - repeat split; [discriminate | vm_compute; discriminate].
  - now right.
  - repeat split.
  - reflexivity.
  - reflexivity.
  - vm_compute. reflexivity.
  - do 2 eexists. split; [exact Hrun |].
    split; [reflexivity |]. split; [reflexivity | exact Hbadge].
Defined.
